(** * drm_hwcomposer: DrmDevice (drm/DrmDevice.cpp, drm/DrmDevice.h)

    A shallow embedding of [android::DrmDevice]: resource discovery,
    capability negotiation, display-id allocation, display pipeline
    assignment, property lookup and property-blob lifetime.

    Conventions of the embedding.
    - [uint32_t] ids, [int] return codes and [int] display ids are [Z].
      [num_displays] is a signed [int] that is only ever incremented; signed
      overflow is undefined in C++, so the model covers runs in which the ids
      stay in range and keeps them as unbounded [Z].
    - A pointer to a DrmCrtc, DrmEncoder or DrmConnector held in one of the
      binding maps points into the owning vector ([crtcs_], [encoders_],
      [connectors_]) of the device; the vectors hold [unique_ptr]s and only
      grow, so a pointer is modelled as the position of the object in its
      owning vector.  Two objects with equal attributes at different positions
      are different pointers, as in the source.
    - [std::map] is stdpp's [gmap]; [operator[]=] is insert, [count] and
      [at] are written out ([at] throws [std::out_of_range]).
    - The kernel (ioctls, libdrm calls) and the object factories that live in
      other translation units are an oracle, record [Kernel].
    - [trace_] is a history variable, not a C++ member: the kernel calls and
      log lines issued through the device, oldest first. *)

From stdpp Require Import gmap strings list fin_maps.

Local Open Scope Z_scope.

(** ** errno values used by the source (Linux, <cerrno>) *)

Definition ENOENT : Z := 2.
Definition EAGAIN : Z := 11.
Definition EACCES : Z := 13.
Definition ENODEV : Z := 19.

(** ** Kernel objects *)

Module DrmCrtc.
(** Modelled from the spec: class DrmCrtc (DrmCrtc.h is not part of the
    sources): "Attributes: id, index (used as a bit position in encoders'
    possible-CRTC masks)". *)
Record t := Build { GetId : Z; GetIndexInResArray : nat }.
End DrmCrtc.

Module DrmEncoder.
(** Modelled from the spec: class DrmEncoder (DrmEncoder.h is not part of
    the sources): "Attributes: id, index, current CRTC id (0 if none),
    possible-CRTC bitmask". *)
Record t := Build {
  GetId : Z;
  GetIndexInResArray : nat;
  GetCurrentCrtcId : Z;
  possible_crtcs : Z
}.

(** Modelled from the spec: DrmEncoder::SupportsCrtc, the CRTC's index is a
    bit position in the encoder's possible-CRTC bitmask. *)
Definition SupportsCrtc (enc : t) (crtc : DrmCrtc.t) : bool :=
  Z.testbit (possible_crtcs enc) (Z.of_nat (DrmCrtc.GetIndexInResArray crtc)).
End DrmEncoder.

Module DrmConnector.
(** Modelled from the spec: class DrmConnector (DrmConnector.h is not part
    of the sources): "Attributes: id, index, connection state, internal-vs-
    external classification, writeback capability flag, current encoder id
    (0 if none), supported-encoder set".  The source asks [IsInternal] and
    [IsExternal] separately, so they are two attributes here. *)
Record t := Build {
  GetId : Z;
  GetIndexInResArray : nat;
  IsConnected : bool;
  IsInternal : bool;
  IsExternal : bool;
  IsWriteback : bool;
  GetCurrentEncoderId : Z;
  possible_encoders : list Z
}.

(** Modelled from the spec: DrmConnector::SupportsEncoder, membership of the
    encoder's id in the connector's supported-encoder set. *)
Definition SupportsEncoder (conn : t) (enc : DrmEncoder.t) : bool :=
  bool_decide (DrmEncoder.GetId enc ∈ possible_encoders conn).
End DrmConnector.

(** Planes are only cataloged. *)
Record DrmPlane := { plane_id : Z }.

(** [drmModeRes] as returned by [drmModeGetResources]. *)
Record drmModeRes := {
  min_width : Z; max_width : Z;
  min_height : Z; max_height : Z;
  res_crtcs : list Z;
  res_encoders : list Z;
  res_connectors : list Z
}.

(** [drmModePropertyRes]: the descriptor of one property. *)
Record drmModeProperty := {
  prop_id : Z;
  flags : Z;
  name : string
}.

(** Modelled from the spec: DrmProperty::Init (DrmProperty.cpp is not part of
    the sources) keeps the object id, the matched descriptor and "its current
    raw value". *)
Record DrmProperty := {
  property_obj_id : Z;
  property_desc : option drmModeProperty;
  property_value : Z
}.

Definition DrmProperty_Init (obj_id : Z) (p : drmModeProperty) (value : Z)
  : DrmProperty :=
  {| property_obj_id := obj_id; property_desc := Some p;
     property_value := value |}.

(** ** Kernel calls and log lines *)

Inductive ClientCap :=
| DRM_CLIENT_CAP_UNIVERSAL_PLANES
| DRM_CLIENT_CAP_ATOMIC
| DRM_CLIENT_CAP_WRITEBACK_CONNECTORS.

Inductive LogLevel := ALOGE | ALOGW | ALOGI.

Inductive Event :=
| EvOpen (path : string)
| EvSetClientCap (cap : ClientCap)
| EvGetCapAddFb2Modifiers
| EvSetMaster
| EvIsMaster
| EvGetResources
| EvGetPlaneResources
| EvCreatePropBlob (data : list Z)
| EvDestroyPropBlob (blob_id : Z)
| EvObjectGetProperties (obj_id obj_type : Z)
| EvGetProperty (id : Z)
| EvLog (lvl : LogLevel) (msg : string).

(** The answers of the kernel and of the factories of the other classes. *)
Record Kernel := {
  k_open : string -> option Z;
  k_drmSetClientCap : ClientCap -> Z;
  (** whether the libdrm headers define DRM_CLIENT_CAP_WRITEBACK_CONNECTORS *)
  k_have_writeback_cap : bool;
  (** return code and value of drmGetCap(DRM_CAP_ADDFB2_MODIFIERS) *)
  k_drmGetCap_addfb2 : Z * Z;
  (** drmIsMaster after drmSetMaster *)
  k_drmIsMaster : Z;
  k_MakeDrmModeResUnique : option drmModeRes;
  k_MakeDrmModePlaneResUnique : option (list Z);
  k_DrmCrtc_CreateInstance : Z -> nat -> option DrmCrtc.t;
  k_DrmEncoder_CreateInstance : Z -> nat -> option DrmEncoder.t;
  k_DrmConnector_CreateInstance : Z -> nat -> option DrmConnector.t;
  k_DrmPlane_CreateInstance : Z -> option DrmPlane;
  (** DRM_IOCTL_MODE_CREATEPROPBLOB: return code and blob id *)
  k_create_blob : list Z -> Z * Z;
  (** DRM_IOCTL_MODE_DESTROYPROPBLOB: return code *)
  k_destroy_blob : Z -> Z;
  (** ids and values of the properties of an object, or NULL *)
  k_drmModeObjectGetProperties : Z -> Z -> option (list (Z * Z));
  (** descriptor of a property, or NULL *)
  k_drmModeGetProperty : Z -> option drmModeProperty
}.

(** ** Results *)

Inductive Exn := std_out_of_range | null_dereference.

(** A call either returns or leaves by an exception or a fault. *)
Inductive Outcome (A : Type) :=
| Normal (a : A)
| Throws (e : Exn).
Arguments Normal {A} a.
Arguments Throws {A} e.

(** [std::map::count] and [std::map::at]. *)
Definition map_count `{Countable K} {V} (m : gmap K V) (k : K) : nat :=
  match m !! k with Some _ => 1%nat | None => 0%nat end.

Definition map_at `{Countable K} {V} (m : gmap K V) (k : K) : Outcome V :=
  match m !! k with Some v => Normal v | None => Throws std_out_of_range end.

(** ** The device *)

Record DrmDevice := mkDrmDevice {
  fd_ : option Z;
  connectors_ : list DrmConnector.t;
  writeback_connectors_ : list DrmConnector.t;
  encoders_ : list DrmEncoder.t;
  crtcs_ : list DrmCrtc.t;
  planes_ : list DrmPlane;
  min_resolution_ : Z * Z;
  max_resolution_ : Z * Z;
  bound_crtcs_ : gmap Z nat;                (* display to DrmCrtc pointer *)
  bound_connectors_ : gmap Z nat;           (* display to DrmConnector pointer *)
  connectors_to_display_id_ : gmap nat Z;   (* DrmConnector pointer to display *)
  encoders_to_display_id_ : gmap nat Z;     (* DrmEncoder pointer to display *)
  bound_encoders_ : gmap nat nat;           (* DrmCrtc pointer to DrmEncoder pointer *)
  HasAddFb2ModifiersSupport_ : bool;
  trace_ : list Event
}.

(** A freshly constructed device. *)
Definition DrmDevice_new : DrmDevice :=
  mkDrmDevice None [] [] [] [] [] (0, 0) (0, 0) ∅ ∅ ∅ ∅ ∅ false [].

Section Setters.
Variable d : DrmDevice.

Definition set_fd (x : option Z) : DrmDevice :=
  mkDrmDevice x (connectors_ d) (writeback_connectors_ d) (encoders_ d)
    (crtcs_ d) (planes_ d) (min_resolution_ d) (max_resolution_ d)
    (bound_crtcs_ d) (bound_connectors_ d) (connectors_to_display_id_ d)
    (encoders_to_display_id_ d) (bound_encoders_ d)
    (HasAddFb2ModifiersSupport_ d) (trace_ d).

Definition set_connectors (x : list DrmConnector.t) : DrmDevice :=
  mkDrmDevice (fd_ d) x (writeback_connectors_ d) (encoders_ d)
    (crtcs_ d) (planes_ d) (min_resolution_ d) (max_resolution_ d)
    (bound_crtcs_ d) (bound_connectors_ d) (connectors_to_display_id_ d)
    (encoders_to_display_id_ d) (bound_encoders_ d)
    (HasAddFb2ModifiersSupport_ d) (trace_ d).

Definition set_writeback_connectors (x : list DrmConnector.t) : DrmDevice :=
  mkDrmDevice (fd_ d) (connectors_ d) x (encoders_ d)
    (crtcs_ d) (planes_ d) (min_resolution_ d) (max_resolution_ d)
    (bound_crtcs_ d) (bound_connectors_ d) (connectors_to_display_id_ d)
    (encoders_to_display_id_ d) (bound_encoders_ d)
    (HasAddFb2ModifiersSupport_ d) (trace_ d).

Definition set_encoders (x : list DrmEncoder.t) : DrmDevice :=
  mkDrmDevice (fd_ d) (connectors_ d) (writeback_connectors_ d) x
    (crtcs_ d) (planes_ d) (min_resolution_ d) (max_resolution_ d)
    (bound_crtcs_ d) (bound_connectors_ d) (connectors_to_display_id_ d)
    (encoders_to_display_id_ d) (bound_encoders_ d)
    (HasAddFb2ModifiersSupport_ d) (trace_ d).

Definition set_crtcs (x : list DrmCrtc.t) : DrmDevice :=
  mkDrmDevice (fd_ d) (connectors_ d) (writeback_connectors_ d) (encoders_ d)
    x (planes_ d) (min_resolution_ d) (max_resolution_ d)
    (bound_crtcs_ d) (bound_connectors_ d) (connectors_to_display_id_ d)
    (encoders_to_display_id_ d) (bound_encoders_ d)
    (HasAddFb2ModifiersSupport_ d) (trace_ d).

Definition set_planes (x : list DrmPlane) : DrmDevice :=
  mkDrmDevice (fd_ d) (connectors_ d) (writeback_connectors_ d) (encoders_ d)
    (crtcs_ d) x (min_resolution_ d) (max_resolution_ d)
    (bound_crtcs_ d) (bound_connectors_ d) (connectors_to_display_id_ d)
    (encoders_to_display_id_ d) (bound_encoders_ d)
    (HasAddFb2ModifiersSupport_ d) (trace_ d).

Definition set_resolution (lo hi : Z * Z) : DrmDevice :=
  mkDrmDevice (fd_ d) (connectors_ d) (writeback_connectors_ d) (encoders_ d)
    (crtcs_ d) (planes_ d) lo hi
    (bound_crtcs_ d) (bound_connectors_ d) (connectors_to_display_id_ d)
    (encoders_to_display_id_ d) (bound_encoders_ d)
    (HasAddFb2ModifiersSupport_ d) (trace_ d).

Definition set_bound_crtcs (x : gmap Z nat) : DrmDevice :=
  mkDrmDevice (fd_ d) (connectors_ d) (writeback_connectors_ d) (encoders_ d)
    (crtcs_ d) (planes_ d) (min_resolution_ d) (max_resolution_ d)
    x (bound_connectors_ d) (connectors_to_display_id_ d)
    (encoders_to_display_id_ d) (bound_encoders_ d)
    (HasAddFb2ModifiersSupport_ d) (trace_ d).

Definition set_bound_connectors (x : gmap Z nat) : DrmDevice :=
  mkDrmDevice (fd_ d) (connectors_ d) (writeback_connectors_ d) (encoders_ d)
    (crtcs_ d) (planes_ d) (min_resolution_ d) (max_resolution_ d)
    (bound_crtcs_ d) x (connectors_to_display_id_ d)
    (encoders_to_display_id_ d) (bound_encoders_ d)
    (HasAddFb2ModifiersSupport_ d) (trace_ d).

Definition set_connectors_to_display_id (x : gmap nat Z) : DrmDevice :=
  mkDrmDevice (fd_ d) (connectors_ d) (writeback_connectors_ d) (encoders_ d)
    (crtcs_ d) (planes_ d) (min_resolution_ d) (max_resolution_ d)
    (bound_crtcs_ d) (bound_connectors_ d) x
    (encoders_to_display_id_ d) (bound_encoders_ d)
    (HasAddFb2ModifiersSupport_ d) (trace_ d).

Definition set_encoders_to_display_id (x : gmap nat Z) : DrmDevice :=
  mkDrmDevice (fd_ d) (connectors_ d) (writeback_connectors_ d) (encoders_ d)
    (crtcs_ d) (planes_ d) (min_resolution_ d) (max_resolution_ d)
    (bound_crtcs_ d) (bound_connectors_ d) (connectors_to_display_id_ d)
    x (bound_encoders_ d)
    (HasAddFb2ModifiersSupport_ d) (trace_ d).

Definition set_bound_encoders (x : gmap nat nat) : DrmDevice :=
  mkDrmDevice (fd_ d) (connectors_ d) (writeback_connectors_ d) (encoders_ d)
    (crtcs_ d) (planes_ d) (min_resolution_ d) (max_resolution_ d)
    (bound_crtcs_ d) (bound_connectors_ d) (connectors_to_display_id_ d)
    (encoders_to_display_id_ d) x
    (HasAddFb2ModifiersSupport_ d) (trace_ d).

Definition set_HasAddFb2ModifiersSupport (x : bool) : DrmDevice :=
  mkDrmDevice (fd_ d) (connectors_ d) (writeback_connectors_ d) (encoders_ d)
    (crtcs_ d) (planes_ d) (min_resolution_ d) (max_resolution_ d)
    (bound_crtcs_ d) (bound_connectors_ d) (connectors_to_display_id_ d)
    (encoders_to_display_id_ d) (bound_encoders_ d)
    x (trace_ d).

Definition set_trace (x : list Event) : DrmDevice :=
  mkDrmDevice (fd_ d) (connectors_ d) (writeback_connectors_ d) (encoders_ d)
    (crtcs_ d) (planes_ d) (min_resolution_ d) (max_resolution_ d)
    (bound_crtcs_ d) (bound_connectors_ d) (connectors_to_display_id_ d)
    (encoders_to_display_id_ d) (bound_encoders_ d)
    (HasAddFb2ModifiersSupport_ d) x.
End Setters.

(** Record one kernel call or log line. *)
Definition emit (ev : Event) (d : DrmDevice) : DrmDevice :=
  set_trace d (trace_ d ++ [ev]).

Definition log (lvl : LogLevel) (msg : string) (d : DrmDevice) : DrmDevice :=
  emit (EvLog lvl msg) d.

(** The five binding maps of a device. *)
Definition bindings (d : DrmDevice) :=
  (bound_crtcs_ d, bound_connectors_ d, connectors_to_display_id_ d,
   encoders_to_display_id_ d, bound_encoders_ d).

(** ** Lookup by id (DrmDevice.h) *)

(** The first object from position [p] on that satisfies [f], with its
    position: the shape of the [for (auto &x : xs_)] loops that return a
    pointer. *)
Fixpoint find_from {A} (f : A -> bool) (p : nat) (l : list A)
  : option (nat * A) :=
  match l with
  | [] => None
  | x :: rest => if f x then Some (p, x) else find_from f (S p) rest
  end.

Definition FindCrtcById (id : Z) (d : DrmDevice) : option (nat * DrmCrtc.t) :=
  find_from (fun crtc => DrmCrtc.GetId crtc =? id) 0 (crtcs_ d).

Definition FindEncoderById (id : Z) (d : DrmDevice)
  : option (nat * DrmEncoder.t) :=
  find_from (fun enc => DrmEncoder.GetId enc =? id) 0 (encoders_ d).

(** ** Accessors *)

Definition HandlesDisplay (display : Z) (d : DrmDevice) : bool :=
  negb (map_count (bound_connectors_ d) display =? 0)%nat.

Definition GetConnectorForDisplay (display : Z) (d : DrmDevice) : Outcome nat :=
  map_at (bound_connectors_ d) display.

Definition GetCrtcForDisplay (display : Z) (d : DrmDevice) : Outcome nat :=
  map_at (bound_crtcs_ d) display.

Definition GetDisplayId (conn : nat) (d : DrmDevice) : Outcome Z :=
  map_at (connectors_to_display_id_ d) conn.

(** ** Pipeline assignment *)

(** [bound_crtcs_[display] = crtc; bound_encoders_[crtc] = enc;] *)
Definition bind_crtc (display : Z) (crtc enc : nat) (d : DrmDevice) : DrmDevice :=
  set_bound_encoders
    (set_bound_crtcs d (<[display := crtc]> (bound_crtcs_ d)))
    (<[crtc := enc]> (bound_encoders_ d)).

(** The loop of [TryEncoderForDisplay] over [crtcs_], from position [p]. *)
Fixpoint TryEncoderForDisplay_scan (display : Z) (encp : nat)
    (enc : DrmEncoder.t) (p : nat) (crtcs : list DrmCrtc.t) (d : DrmDevice)
  : Z * DrmDevice :=
  match crtcs with
  | [] =>
      (* We can't use the encoder, but nothing went wrong, try another one *)
      (- EAGAIN, d)
  | crtc :: rest =>
      (* Crtc not supported or we've already tried this earlier *)
      if negb (DrmEncoder.SupportsCrtc enc crtc)
         || (DrmCrtc.GetId crtc =? DrmEncoder.GetCurrentCrtcId enc)
      then TryEncoderForDisplay_scan display encp enc (S p) rest d
      else if (map_count (bound_crtcs_ d) display =? 0)%nat
      then (0, bind_crtc display p encp d)
      else TryEncoderForDisplay_scan display encp enc (S p) rest d
  end.

Definition TryEncoderForDisplay (display : Z) (encp : nat)
    (enc : DrmEncoder.t) (d : DrmDevice) : Z * DrmDevice :=
  (* First try to use the currently-bound crtc *)
  match FindCrtcById (DrmEncoder.GetCurrentCrtcId enc) d with
  | Some (crtc, _) =>
      if (map_count (bound_crtcs_ d) display =? 0)%nat
      then (0, bind_crtc display crtc encp d)
      else TryEncoderForDisplay_scan display encp enc 0 (crtcs_ d) d
  | None =>
      (* Try to find a possible crtc which will work *)
      TryEncoderForDisplay_scan display encp enc 0 (crtcs_ d) d
  end.

(** [encoders_to_display_id_[enc] = display;] *)
Definition claim_encoder (enc : nat) (display : Z) (d : DrmDevice) : DrmDevice :=
  set_encoders_to_display_id d (<[enc := display]> (encoders_to_display_id_ d)).

(** The loop of [CreateDisplayPipe] over [encoders_], from position [p]. *)
Fixpoint CreateDisplayPipe_scan (display : Z) (conn : DrmConnector.t)
    (p : nat) (encs : list DrmEncoder.t) (d : DrmDevice) : Z * DrmDevice :=
  match encs with
  | [] =>
      (- ENODEV,
       log ALOGE "Could not find a suitable encoder/crtc for display" d)
  | enc :: rest =>
      if negb (DrmConnector.SupportsEncoder conn enc)
         || negb (map_count (encoders_to_display_id_ d) p =? 0)%nat
      then CreateDisplayPipe_scan display conn (S p) rest d
      else
        let '(ret, d1) := TryEncoderForDisplay display p enc d in
        if ret =? 0 then (0, claim_encoder p display d1)
        else if negb (ret =? - EAGAIN)
        then (ret, log ALOGE "Could not set mode" d1)
        else CreateDisplayPipe_scan display conn (S p) rest d1
  end.

Definition CreateDisplayPipe (connp : nat) (conn : DrmConnector.t)
    (d : DrmDevice) : Outcome Z * DrmDevice :=
  match map_at (connectors_to_display_id_ d) connp with
  | Throws e => (Throws e, d)
  | Normal display =>
      (* Try to use current setup first *)
      let scan d := let '(ret, d') :=
                      CreateDisplayPipe_scan display conn 0 (encoders_ d) d in
                    (Normal ret, d') in
      match FindEncoderById (DrmConnector.GetCurrentEncoderId conn) d with
      | Some (enc0p, enc0) =>
          if (map_count (encoders_to_display_id_ d) enc0p =? 0)%nat then
            let '(ret, d1) := TryEncoderForDisplay display enc0p enc0 d in
            if ret =? 0 then (Normal 0, claim_encoder enc0p display d1)
            else if negb (ret =? - EAGAIN)
            then (Normal ret, log ALOGE "Could not set mode" d1)
            else scan d1
          else scan d
      | None => scan d
      end
  end.

(** ** Init (DrmDevice.cpp, lines 44-175) *)

(** Lines 46-84: open the node and negotiate capabilities.  [inl r] when
    [Init] returns [r] here, [inr ret] (the local [ret]) when it goes on. *)
Definition Init_negotiate (k : Kernel) (path : string) (d : DrmDevice)
  : (Z * Z + Z) * DrmDevice :=
  let d := set_fd (emit (EvOpen path) d) (k_open k path) in
  match fd_ d with
  | None => (inl (- ENODEV, 0), log ALOGE "Failed to open dri" d)
  | Some _ =>
  let d := emit (EvSetClientCap DRM_CLIENT_CAP_UNIVERSAL_PLANES) d in
  let ret := k_drmSetClientCap k DRM_CLIENT_CAP_UNIVERSAL_PLANES in
  if negb (ret =? 0)
  then (inl (ret, 0), log ALOGE "Failed to set universal plane cap" d) else
  let d := emit (EvSetClientCap DRM_CLIENT_CAP_ATOMIC) d in
  let ret := k_drmSetClientCap k DRM_CLIENT_CAP_ATOMIC in
  if negb (ret =? 0)
  then (inl (ret, 0), log ALOGE "Failed to set atomic cap" d) else
  let '(ret, d) :=
    (* #ifdef DRM_CLIENT_CAP_WRITEBACK_CONNECTORS *)
    if k_have_writeback_cap k then
      let d := emit (EvSetClientCap DRM_CLIENT_CAP_WRITEBACK_CONNECTORS) d in
      let ret := k_drmSetClientCap k DRM_CLIENT_CAP_WRITEBACK_CONNECTORS in
      if negb (ret =? 0)
      then (0, log ALOGI "Failed to set writeback cap" d)
      else (ret, d)
    else (ret, d) in
  let d := emit EvGetCapAddFb2Modifiers d in
  let '(cap_value, d) :=
    if negb (fst (k_drmGetCap_addfb2 k) =? 0)
    then (0, log ALOGW "drmGetCap failed. Fallback to no modifier support." d)
    else (snd (k_drmGetCap_addfb2 k), d) in
  let d := set_HasAddFb2ModifiersSupport d (negb (cap_value =? 0)) in
  let d := emit EvSetMaster d in
  let d := emit EvIsMaster d in
  if k_drmIsMaster k =? 0
  then (inl (- EACCES, 0), log ALOGE "DRM/KMS master access required" d)
  else (inr ret, d)
  end.

(** Lines 97-103. *)
Fixpoint Init_crtcs (k : Kernel) (i : nat) (ids : list Z) (d : DrmDevice)
  : DrmDevice :=
  match ids with
  | [] => d
  | id :: rest =>
      Init_crtcs k (S i) rest
        match k_DrmCrtc_CreateInstance k id i with
        | Some crtc => set_crtcs d (crtcs_ d ++ [crtc])
        | None => d
        end
  end.

(** Lines 105-111. *)
Fixpoint Init_encoders (k : Kernel) (i : nat) (ids : list Z) (d : DrmDevice)
  : DrmDevice :=
  match ids with
  | [] => d
  | id :: rest =>
      Init_encoders k (S i) rest
        match k_DrmEncoder_CreateInstance k id i with
        | Some enc => set_encoders d (encoders_ d ++ [enc])
        | None => d
        end
  end.

(** Lines 113-126. *)
Fixpoint Init_connectors (k : Kernel) (i : nat) (ids : list Z) (d : DrmDevice)
  : DrmDevice :=
  match ids with
  | [] => d
  | id :: rest =>
      Init_connectors k (S i) rest
        match k_DrmConnector_CreateInstance k id i with
        | None => d
        | Some conn =>
            if DrmConnector.IsWriteback conn
            then set_writeback_connectors d (writeback_connectors_ d ++ [conn])
            else set_connectors d (connectors_ d ++ [conn])
        end
  end.

(** Lines 86-126: query the resources and build the objects.  [None] when the
    resource query fails. *)
Definition Init_enumerate (k : Kernel) (d : DrmDevice) : option DrmDevice :=
  match k_MakeDrmModeResUnique k with
  | None => None
  | Some res =>
      let d := set_resolution d (min_width res, min_height res)
                                (max_width res, max_height res) in
      let d := Init_crtcs k 0 (res_crtcs res) d in
      let d := Init_encoders k 0 (res_encoders res) d in
      Some (Init_connectors k 0 (res_connectors res) d)
  end.

(** Lines 128-138: the lambda [add_displays]; it captures the device and
    [num_displays] by reference and walks [connectors_] from position [p]. *)
Fixpoint add_displays (internal connected : bool) (p : nat)
    (conns : list DrmConnector.t) (st : DrmDevice * Z) : DrmDevice * Z :=
  match conns with
  | [] => st
  | conn :: rest =>
      let '(d, num_displays) := st in
      let is_connected := DrmConnector.IsConnected conn in
      add_displays internal connected (S p) rest
        (if (if internal then DrmConnector.IsInternal conn
             else DrmConnector.IsExternal conn)
            && (if connected then is_connected else negb is_connected)
         then
           (set_connectors_to_display_id
              (set_bound_connectors d
                 (<[num_displays := p]> (bound_connectors_ d)))
              (<[p := num_displays]> (connectors_to_display_id_ d)),
            num_displays + 1)
         else st)
  end.

(** Lines 143-146: internal first, connected first. *)
Definition Init_add_displays (st : DrmDevice * Z) : DrmDevice * Z :=
  let all internal connected (st : DrmDevice * Z) :=
    add_displays internal connected 0 (connectors_ (fst st)) st in
  all false false (all true false (all false true (all true true st))).

(** Lines 158-165. *)
Fixpoint Init_planes (k : Kernel) (ids : list Z) (d : DrmDevice) : DrmDevice :=
  match ids with
  | [] => d
  | id :: rest =>
      Init_planes k rest
        match k_DrmPlane_CreateInstance k id with
        | Some plane => set_planes d (planes_ d ++ [plane])
        | None => d
        end
  end.

(** Lines 167-174: the loop over [connectors_] from position [p]; [inl r]
    when [Init] returns [r] from inside the loop, [inr ret] after it. *)
Fixpoint Init_pipes (p : nat) (conns : list DrmConnector.t) (ret : Z)
    (d : DrmDevice) : Outcome (Z * Z + Z) * DrmDevice :=
  match conns with
  | [] => (Normal (inr ret), d)
  | conn :: rest =>
      match CreateDisplayPipe p conn d with
      | (Throws e, d) => (Throws e, d)
      | (Normal ret, d) =>
          if negb (ret =? 0)
          then (Normal (inl (ret, 0)), log ALOGE "Failed CreateDisplayPipe" d)
          else Init_pipes (S p) rest ret d
      end
  end.

(** Lines 44-165: everything before the loop that creates the pipelines.
    [inl r] when [Init] returns [r] here, [inr ret] when it reaches the loop
    with the local [ret]. *)
Definition Init_prepare (k : Kernel) (path : string) (num_displays : Z)
    (d : DrmDevice) : (Z * Z + Z) * DrmDevice :=
  match Init_negotiate k path d with
  | (inl r, d) => (inl r, d)
  | (inr ret, d) =>
  let d := emit EvGetResources d in
  match Init_enumerate k d with
  | None =>
      (inl (- ENODEV, 0), log ALOGE "Failed to get DrmDevice resources" d)
  | Some d =>
  let '(d, num_displays) := Init_add_displays (d, num_displays) in
  (* Catch-all for the above loops *)
  if negb (ret =? 0) then (inl (ret, 0), d) else
  let d := emit EvGetPlaneResources d in
  match k_MakeDrmModePlaneResUnique k with
  | None => (inl (- ENOENT, 0), log ALOGE "Failed to get plane resources" d)
  | Some plane_res => (inr ret, Init_planes k plane_res d)
  end
  end
  end.

Definition Init (k : Kernel) (path : string) (num_displays : Z)
    (d : DrmDevice) : Outcome (Z * Z) * DrmDevice :=
  match Init_prepare k path num_displays d with
  | (inl r, d) => (Normal r, d)
  | (inr ret, d) =>
  match Init_pipes 0 (connectors_ d) ret d with
  | (Throws e, d) => (Throws e, d)
  | (Normal (inl r), d) => (Normal r, d)
  | (Normal (inr ret), d) =>
      (Normal (ret, Z.of_nat (size (bound_connectors_ d))), d)
  end
  end.

(** ** Property lookup (lines 282-306) *)

(** The loop [for (i = 0; !found && i < props->count_props; ++i)] over the
    parallel arrays [props] and [prop_values].  [drmModeGetProperty] may
    return NULL, which the loop dereferences. *)
Fixpoint GetProperty_scan (k : Kernel) (obj_id : Z) (prop_name : string)
    (props : list (Z * Z)) (found : bool) (property : DrmProperty)
    (d : DrmDevice) : Outcome (bool * DrmProperty) * DrmDevice :=
  match props with
  | [] => (Normal (found, property), d)
  | (id, value) :: rest =>
      if found then (Normal (found, property), d) else
      let d := emit (EvGetProperty id) d in
      match k_drmModeGetProperty k id with
      | None => (Throws null_dereference, d)
      | Some p =>
          if String.eqb (name p) prop_name
          then GetProperty_scan k obj_id prop_name rest true
                 (DrmProperty_Init obj_id p value) d
          else GetProperty_scan k obj_id prop_name rest found property d
      end
  end.

(** The result is the return code with the out-parameter [property]. *)
Definition GetProperty (k : Kernel) (obj_id obj_type : Z)
    (prop_name : string) (property : DrmProperty) (d : DrmDevice)
  : Outcome (Z * DrmProperty) * DrmDevice :=
  let d := emit (EvObjectGetProperties obj_id obj_type) d in
  match k_drmModeObjectGetProperties k obj_id obj_type with
  | None => (Normal (- ENODEV, property),
             log ALOGE "Failed to get properties" d)
  | Some props =>
      match GetProperty_scan k obj_id prop_name props false property d with
      | (Throws e, d) => (Throws e, d)
      | (Normal (found, property), d) =>
          (Normal (if found then 0 else - ENOENT, property), d)
      end
  end.

(** ** Property blobs (lines 254-280) *)

(** [DrmModeUserPropertyBlobUnique] is a [unique_ptr<uint32_t>] with a
    deleter: empty, or owning the id of a blob. *)
Definition DrmModeUserPropertyBlobUnique : Type := option Z.

Definition RegisterUserPropertyBlob (k : Kernel) (data : list Z)
    (d : DrmDevice) : DrmModeUserPropertyBlobUnique * DrmDevice :=
  let d := emit (EvCreatePropBlob data) d in
  let '(ret, blob_id) := k_create_blob k data in
  if negb (ret =? 0)
  then (None, log ALOGE "Failed to create mode property blob" d)
  else (Some blob_id, d).

(** The deleter passed to the handle (the lambda of lines 268-279). *)
Definition blob_deleter (k : Kernel) (it : Z) (d : DrmDevice) : DrmDevice :=
  let d := emit (EvDestroyPropBlob it) d in
  let err := k_destroy_blob k it in
  if negb (err =? 0)
  then log ALOGE "Failed to destroy mode property blob" d
  else d.

(** Releasing a handle ([unique_ptr]'s destructor or [reset]): the deleter
    runs when the handle owns something, and the handle is empty afterwards. *)
Definition blob_release (k : Kernel) (h : DrmModeUserPropertyBlobUnique)
    (d : DrmDevice) : DrmModeUserPropertyBlobUnique * DrmDevice :=
  match h with
  | Some it => (None, blob_deleter k it d)
  | None => (None, d)
  end.

(** Modelled from the spec: the scope that owns a handle.  The callers of
    [RegisterUserPropertyBlob] and the header that declares the handle type
    are not part of the sources.  "Ownership: exclusively held by whichever
    caller created it; must be released exactly once on every exit path,
    including error paths"; "on every code path (normal drop, early return,
    propagated failure)".  The owner holds the handle itself, not a copy:
    what it does with the handle before it leaves is to read the blob id or
    to let go of the blob early. *)
Inductive HandleUse :=
| ReadBlobId
| ResetHandle.

(** Modelled from the spec: the three ways out of the owning scope, "normal
    drop, early return, propagated failure"; the last two cut the scope short
    after some of its uses of the handle. *)
Inductive ScopeExit :=
| NormalDrop
| EarlyReturn (after : nat)
| PropagatedFailure (after : nat).

Definition uses_made (uses : list HandleUse) (exit : ScopeExit)
  : list HandleUse :=
  match exit with
  | NormalDrop => uses
  | EarlyReturn after | PropagatedFailure after => take after uses
  end.

Definition use_handle (k : Kernel) (u : HandleUse)
    (st : DrmModeUserPropertyBlobUnique * DrmDevice)
  : DrmModeUserPropertyBlobUnique * DrmDevice :=
  match u with
  | ReadBlobId => st
  | ResetHandle => blob_release k (fst st) (snd st)
  end.

(** Modelled from the spec: the life of a handle in the scope that owns it.
    The blob is created, the scope uses the handle until it is left, and on
    each way out the handle is released in the state the scope left it in. *)
Definition owning_scope (k : Kernel) (data : list Z) (uses : list HandleUse)
    (exit : ScopeExit) (d : DrmDevice)
  : DrmModeUserPropertyBlobUnique * DrmDevice :=
  let st := RegisterUserPropertyBlob k data d in
  let st := foldl (fun st u => use_handle k u st) st (uses_made uses exit) in
  blob_release k (fst st) (snd st).

(** The destroy calls of a trace, in order. *)
Definition destroy_calls (t : list Event) : list Z :=
  omap (fun ev => match ev with EvDestroyPropBlob id => Some id | _ => None end) t.

(** ** The search of [TryEncoderForDisplay] and [CreateDisplayPipe] in the
    words of the specification *)

(** A CRTC the scan does not skip: the encoder can drive it and it is not the
    encoder's current CRTC. *)
Definition acceptable_crtc (enc : DrmEncoder.t) (crtc : DrmCrtc.t) : bool :=
  DrmEncoder.SupportsCrtc enc crtc
  && negb (DrmCrtc.GetId crtc =? DrmEncoder.GetCurrentCrtcId enc).

(** Follows the specification: the current CRTC of the encoder as a fast
    path, otherwise the first acceptable CRTC in enumeration order, otherwise
    the retry signal; a CRTC is bound only while the display has none. *)
Definition TryEncoderForDisplay_spec (display : Z) (encp : nat)
    (enc : DrmEncoder.t) (d : DrmDevice) : Z * DrmDevice :=
  match bound_crtcs_ d !! display with
  | Some _ => (- EAGAIN, d)
  | None =>
      match FindCrtcById (DrmEncoder.GetCurrentCrtcId enc) d with
      | Some (crtc, _) => (0, bind_crtc display crtc encp d)
      | None =>
          match find_from (acceptable_crtc enc) 0 (crtcs_ d) with
          | Some (crtc, _) => (0, bind_crtc display crtc encp d)
          | None => (- EAGAIN, d)
          end
      end
  end.

(** Follows the specification: the connector's current encoder is tried first
    when it exists and no display has claimed it; when it is not bound the
    scan of [encoders_] follows, from the state before the attempt. *)
Definition CreateDisplayPipe_spec (connp : nat) (conn : DrmConnector.t)
    (d : DrmDevice) : Outcome Z * DrmDevice :=
  match connectors_to_display_id_ d !! connp with
  | None => (Throws std_out_of_range, d)
  | Some display =>
      let fallback :=
        let '(ret, d') :=
          CreateDisplayPipe_scan display conn 0 (encoders_ d) d in
        (Normal ret, d') in
      match FindEncoderById (DrmConnector.GetCurrentEncoderId conn) d with
      | None => fallback
      | Some (enc0p, enc0) =>
          match encoders_to_display_id_ d !! enc0p with
          | Some _ => fallback
          | None =>
              let '(ret, d1) := TryEncoderForDisplay_spec display enc0p enc0 d in
              if ret =? 0 then (Normal 0, claim_encoder enc0p display d1)
              else fallback
          end
      end
  end.

(** ** Display-id allocation in the words of the specification *)

(** One of the four priority classes. *)
Definition in_class (internal connected : bool) (conn : DrmConnector.t)
  : bool :=
  (if internal then DrmConnector.IsInternal conn
   else DrmConnector.IsExternal conn)
  && (if connected then DrmConnector.IsConnected conn
      else negb (DrmConnector.IsConnected conn)).

(** The positions, from [p] on, of the connectors that satisfy [f], in
    enumeration order. *)
Fixpoint select (f : DrmConnector.t -> bool) (p : nat)
    (conns : list DrmConnector.t) : list nat :=
  match conns with
  | [] => []
  | conn :: rest =>
      if f conn then p :: select f (S p) rest else select f (S p) rest
  end.

(** Follows the specification: internal+connected, external+connected,
    internal+disconnected, external+disconnected, each in enumeration
    order. *)
Definition display_order (conns : list DrmConnector.t) : list nat :=
  select (in_class true true) 0 conns
  ++ select (in_class false true) 0 conns
  ++ select (in_class true false) 0 conns
  ++ select (in_class false false) 0 conns.

(** Follows the specification: each connector of the sequence gets the next
    display id. *)
Fixpoint assign_ids (ptrs : list nat) (st : DrmDevice * Z) : DrmDevice * Z :=
  match ptrs with
  | [] => st
  | p :: rest =>
      let '(d, num_displays) := st in
      assign_ids rest
        (set_connectors_to_display_id
           (set_bound_connectors d
              (<[num_displays := p]> (bound_connectors_ d)))
           (<[p := num_displays]> (connectors_to_display_id_ d)),
         num_displays + 1)
  end.

(** ** Negotiation in the words of the specification *)

(** Follows the specification: the error that ends [Init] during the
    negotiation, if any.  Opening the node, the universal-plane capability,
    the atomic capability and master access are fatal, in this order; the
    writeback capability and the modifier probe are not. *)
Definition negotiation_fatal_spec (k : Kernel) (path : string) : option Z :=
  match k_open k path with
  | None => Some (- ENODEV)
  | Some _ =>
      if negb (k_drmSetClientCap k DRM_CLIENT_CAP_UNIVERSAL_PLANES =? 0)
      then Some (k_drmSetClientCap k DRM_CLIENT_CAP_UNIVERSAL_PLANES)
      else if negb (k_drmSetClientCap k DRM_CLIENT_CAP_ATOMIC =? 0)
      then Some (k_drmSetClientCap k DRM_CLIENT_CAP_ATOMIC)
      else if k_drmIsMaster k =? 0 then Some (- EACCES)
      else None
  end.

(** The kernel calls of a complete negotiation, in order. *)
Definition negotiation_calls (k : Kernel) (path : string) : list Event :=
  [EvOpen path;
   EvSetClientCap DRM_CLIENT_CAP_UNIVERSAL_PLANES;
   EvSetClientCap DRM_CLIENT_CAP_ATOMIC]
  ++ (if k_have_writeback_cap k
      then [EvSetClientCap DRM_CLIENT_CAP_WRITEBACK_CONNECTORS] else [])
  ++ [EvGetCapAddFb2Modifiers; EvSetMaster; EvIsMaster].


Definition is_kernel_call (ev : Event) : bool :=
  match ev with EvLog _ _ => false | _ => true end.

Definition kernel_calls (t : list Event) : list Event :=
  filter (fun ev => is_kernel_call ev = true) t.

(** What a call added to the history of the device. *)
Definition new_trace (d d' : DrmDevice) : list Event :=
  drop (length (trace_ d)) (trace_ d').

(** A history that grew by log lines only. *)
Definition logs_only (d d' : DrmDevice) : Prop :=
  exists t, trace_ d' = trace_ d ++ t /\ kernel_calls t = [].

(** The owned collections of a device. *)
Definition resources (d : DrmDevice) :=
  (connectors_ d, writeback_connectors_ d, encoders_ d, crtcs_ d, planes_ d).

(** What the loops over CRTCs, encoders and planes leave alone. *)
Definition kept_by_catalog (d : DrmDevice) :=
  (connectors_ d, writeback_connectors_ d, bindings d,
   HasAddFb2ModifiersSupport_ d, trace_ d).

(** What the loop over connectors leaves alone. *)
Definition kept_by_connectors (d : DrmDevice) :=
  (encoders_ d, crtcs_ d, planes_ d, bindings d,
   HasAddFb2ModifiersSupport_ d, trace_ d).

(** What the allocation of display ids leaves alone. *)
Definition kept_by_add_displays (d : DrmDevice) :=
  (resources d, bound_crtcs_ d, encoders_to_display_id_ d, bound_encoders_ d,
   HasAddFb2ModifiersSupport_ d, trace_ d).

(** What the creation of pipelines leaves alone. *)
Definition kept_by_pipes (d : DrmDevice) :=
  (resources d, bound_connectors_ d, connectors_to_display_id_ d,
   HasAddFb2ModifiersSupport_ d).

(** The connector objects the factory builds for the ids [ids], numbered
    from [i]. *)
Fixpoint created_connectors (k : Kernel) (i : nat) (ids : list Z)
  : list DrmConnector.t :=
  match ids with
  | [] => []
  | id :: rest =>
      match k_DrmConnector_CreateInstance k id i with
      | Some conn => conn :: created_connectors k (S i) rest
      | None => created_connectors k (S i) rest
      end
  end.

(** ** Invariants of the binding maps *)

(** Connectors are split by [IsWriteback], and every pointer to a connector
    in the maps is a position of [connectors_]. *)
Definition connectors_wf (d : DrmDevice) : Prop :=
  (forall c, c ∈ connectors_ d -> DrmConnector.IsWriteback c = false)
  /\ (forall c, c ∈ writeback_connectors_ d -> DrmConnector.IsWriteback c = true)
  /\ (forall display p, bound_connectors_ d !! display = Some p ->
        (p < length (connectors_ d))%nat)
  /\ (forall p display, connectors_to_display_id_ d !! p = Some display ->
        (p < length (connectors_ d))%nat).

(** Every display that appears in a map has a connector. *)
Definition displays_wf (d : DrmDevice) : Prop :=
  (forall p display, connectors_to_display_id_ d !! p = Some display ->
     is_Some (bound_connectors_ d !! display))
  /\ (forall display, is_Some (bound_crtcs_ d !! display) ->
        is_Some (bound_connectors_ d !! display))
  /\ (forall e display, encoders_to_display_id_ d !! e = Some display ->
        is_Some (bound_connectors_ d !! display)).

Definition device_wf (d : DrmDevice) : Prop :=
  connectors_wf d /\ displays_wf d.

(** While the loop of [Init] is at position [p] of [connectors_], every
    display with a CRTC is the display of an earlier connector. *)
Definition crtcs_of_earlier (p : nat) (d : DrmDevice) : Prop :=
  forall display, is_Some (bound_crtcs_ d !! display) ->
    exists q, (q < p)%nat /\ connectors_to_display_id_ d !! q = Some display.

(** No two connectors have the same display id. *)
Definition display_ids_distinct (d : DrmDevice) : Prop :=
  forall q1 q2 display,
    connectors_to_display_id_ d !! q1 = Some display ->
    connectors_to_display_id_ d !! q2 = Some display -> q1 = q2.

(** No connector is both internal and external. *)
Definition classified_once (conns : list DrmConnector.t) : Prop :=
  forall c, c ∈ conns ->
    DrmConnector.IsInternal c && DrmConnector.IsExternal c = false.

(** ** Property lookup in the words of the specification *)


(** The first property of the set whose name is [prop_name], with its
    current value: the linear scan for a name match. *)
Fixpoint first_match (k : Kernel) (prop_name : string) (props : list (Z * Z))
  : option (drmModeProperty * Z) :=
  match props with
  | [] => None
  | (id, value) :: rest =>
      match k_drmModeGetProperty k id with
      | Some p =>
          if String.eqb (name p) prop_name then Some (p, value)
          else first_match k prop_name rest
      | None => first_match k prop_name rest
      end
  end.

(** Follows the specification: QueryFailed (-ENODEV) when the properties
    cannot be enumerated, NotFound (-ENOENT) when no property has the name,
    otherwise the matched property with its current raw value. *)
Definition GetProperty_spec (k : Kernel) (obj_id obj_type : Z)
    (prop_name : string) (property : DrmProperty) : Z * DrmProperty :=
  match k_drmModeObjectGetProperties k obj_id obj_type with
  | None => (- ENODEV, property)
  | Some props =>
      match first_match k prop_name props with
      | Some (p, value) => (0, DrmProperty_Init obj_id p value)
      | None => (- ENOENT, property)
      end
  end.

(** ** Example devices *)

(** A kernel on which every call succeeds and which reports the given
    objects, one per id, in enumeration order. *)
Definition example_kernel (crtcs : list DrmCrtc.t) (encs : list DrmEncoder.t)
    (conns : list DrmConnector.t) : Kernel :=
  {| k_open := fun _ => Some 3;
     k_drmSetClientCap := fun _ => 0;
     k_have_writeback_cap := true;
     k_drmGetCap_addfb2 := (0, 1);
     k_drmIsMaster := 1;
     k_MakeDrmModeResUnique :=
       Some {| min_width := 0; max_width := 4096;
               min_height := 0; max_height := 4096;
               res_crtcs := DrmCrtc.GetId <$> crtcs;
               res_encoders := DrmEncoder.GetId <$> encs;
               res_connectors := DrmConnector.GetId <$> conns |};
     k_MakeDrmModePlaneResUnique := Some [];
     k_DrmCrtc_CreateInstance := fun _ i => crtcs !! i;
     k_DrmEncoder_CreateInstance := fun _ i => encs !! i;
     k_DrmConnector_CreateInstance := fun _ i => conns !! i;
     k_DrmPlane_CreateInstance := fun _ => None;
     k_create_blob := fun _ => (0, 7);
     k_destroy_blob := fun _ => 0;
     k_drmModeObjectGetProperties := fun _ _ => None;
     k_drmModeGetProperty := fun _ => None |}.

(** A kernel whose object 51 has the properties DPMS, CRTC_ID and EDID. *)
Definition kernel_with_properties : Kernel :=
  {| k_open := fun _ => Some 3;
     k_drmSetClientCap := fun _ => 0;
     k_have_writeback_cap := true;
     k_drmGetCap_addfb2 := (0, 1);
     k_drmIsMaster := 1;
     k_MakeDrmModeResUnique := None;
     k_MakeDrmModePlaneResUnique := None;
     k_DrmCrtc_CreateInstance := fun _ _ => None;
     k_DrmEncoder_CreateInstance := fun _ _ => None;
     k_DrmConnector_CreateInstance := fun _ _ => None;
     k_DrmPlane_CreateInstance := fun _ => None;
     k_create_blob := fun _ => (0, 7);
     k_destroy_blob := fun _ => - 22;
     k_drmModeObjectGetProperties := fun obj_id _ =>
       if obj_id =? 51 then Some [(2, 0); (20, 31); (1, 77)] else None;
     k_drmModeGetProperty := fun id =>
       if id =? 1 then Some {| prop_id := 1; flags := 16; name := "EDID" |}
       else if id =? 2 then Some {| prop_id := 2; flags := 8; name := "DPMS" |}
       else if id =? 20
       then Some {| prop_id := 20; flags := 64; name := "CRTC_ID" |}
       else None |}.

(** A kernel whose object 51 lists the property ids 2 and 20, and whose
    [drmModeGetProperty] fails for id 2 and gives CRTC_ID for id 20. *)
Definition kernel_with_missing_descriptor : Kernel :=
  {| k_open := fun _ => Some 3;
     k_drmSetClientCap := fun _ => 0;
     k_have_writeback_cap := true;
     k_drmGetCap_addfb2 := (0, 1);
     k_drmIsMaster := 1;
     k_MakeDrmModeResUnique := None;
     k_MakeDrmModePlaneResUnique := None;
     k_DrmCrtc_CreateInstance := fun _ _ => None;
     k_DrmEncoder_CreateInstance := fun _ _ => None;
     k_DrmConnector_CreateInstance := fun _ _ => None;
     k_DrmPlane_CreateInstance := fun _ => None;
     k_create_blob := fun _ => (0, 7);
     k_destroy_blob := fun _ => 0;
     k_drmModeObjectGetProperties := fun obj_id _ =>
       if obj_id =? 51 then Some [(2, 0); (20, 31)] else None;
     k_drmModeGetProperty := fun id =>
       if id =? 20
       then Some {| prop_id := 20; flags := 64; name := "CRTC_ID" |}
       else None |}.

(** One CRTC, two encoders that can both drive it and have no current CRTC,
    an internal and an external connected connector, one encoder each. *)
Definition one_crtc_two_outputs : Kernel :=
  example_kernel
    [DrmCrtc.Build 31 0]
    [DrmEncoder.Build 41 0 0 1; DrmEncoder.Build 42 1 0 1]
    [DrmConnector.Build 51 0 true true false false 0 [41];
     DrmConnector.Build 52 1 true false true false 0 [42]].

(** As above with two CRTCs, but the external connector supports no
    encoder. *)
Definition second_output_unassignable : Kernel :=
  example_kernel
    [DrmCrtc.Build 31 0; DrmCrtc.Build 32 1]
    [DrmEncoder.Build 41 0 0 1; DrmEncoder.Build 42 1 0 2]
    [DrmConnector.Build 51 0 true true false false 0 [41];
     DrmConnector.Build 52 1 true false true false 0 []].

(** Scenario A of the specification: CRTCs 0 and 1, encoder E0 on CRTC 0 and
    able to drive it only, encoder E1 able to drive CRTC 1 only, an internal
    connected connector whose current encoder is E0 and an external connected
    connector with no current encoder. *)
Definition scenario_A : Kernel :=
  example_kernel
    [DrmCrtc.Build 31 0; DrmCrtc.Build 32 1]
    [DrmEncoder.Build 41 0 31 1; DrmEncoder.Build 42 1 0 2]
    [DrmConnector.Build 51 0 true true false false 41 [41];
     DrmConnector.Build 52 1 true false true false 0 [41; 42]].

(** ** The remaining members of the device (DrmDevice.h, lines 46-75;
    DrmDevice.cpp, lines 320-353) *)

Definition GetConnectors (d : DrmDevice) : list DrmConnector.t := connectors_ d.
Definition GetPlanes (d : DrmDevice) : list DrmPlane := planes_ d.
Definition GetCrtcs (d : DrmDevice) : list DrmCrtc.t := crtcs_ d.
Definition GetEncoders (d : DrmDevice) : list DrmEncoder.t := encoders_ d.
Definition GetMinResolution (d : DrmDevice) : Z * Z := min_resolution_ d.
Definition GetMaxResolution (d : DrmDevice) : Z * Z := max_resolution_ d.
Definition HasAddFb2ModifiersSupport (d : DrmDevice) : bool :=
  HasAddFb2ModifiersSupport_ d.

(** [DrmDevice::IsKMSDev] (lines 320-335), a static member: it opens the node
    itself and looks at the three counts of the resources. *)
Definition IsKMSDev (k : Kernel) (path : string) : bool :=
  match k_open k path with
  | None => false
  | Some _ =>
      match k_MakeDrmModeResUnique k with
      | None => false
      | Some res =>
          (0 <? Z.of_nat (length (res_crtcs res)))
          && (0 <? Z.of_nat (length (res_connectors res)))
          && (0 <? Z.of_nat (length (res_encoders res)))
      end
  end.

(** The objects a factory builds for the ids [ids], numbered from [i]: the
    ones it fails on are left out. *)
Fixpoint created_objects {A} (create : Z -> nat -> option A) (i : nat)
    (ids : list Z) : list A :=
  match ids with
  | [] => []
  | id :: rest =>
      match create id i with
      | Some x => x :: created_objects create (S i) rest
      | None => created_objects create (S i) rest
      end
  end.

(** The display of the connector at position [q] has a complete pipeline: an
    encoder claimed for it, which the connector supports or has as its
    current encoder, and a CRTC, which is the current CRTC of that encoder or
    one the encoder can drive. *)
Definition pipeline_ok (d : DrmDevice) (q : nat) (conn : DrmConnector.t)
  : Prop :=
  exists display e enc crtcp crtc,
    connectors_to_display_id_ d !! q = Some display
    /\ encoders_to_display_id_ d !! e = Some display
    /\ encoders_ d !! e = Some enc
    /\ (DrmConnector.SupportsEncoder conn enc = true
        \/ DrmEncoder.GetId enc = DrmConnector.GetCurrentEncoderId conn)
    /\ bound_crtcs_ d !! display = Some crtcp
    /\ crtcs_ d !! crtcp = Some crtc
    /\ (DrmCrtc.GetId crtc = DrmEncoder.GetCurrentCrtcId enc
        \/ DrmEncoder.SupportsCrtc enc crtc = true).

(** Encoders and displays are paired one to one, and the displays with a
    CRTC are those with an encoder. *)
Definition encoders_exclusive (d : DrmDevice) : Prop :=
  (forall e1 e2 display,
     encoders_to_display_id_ d !! e1 = Some display ->
     encoders_to_display_id_ d !! e2 = Some display -> e1 = e2)
  /\ (forall display,
        is_Some (bound_crtcs_ d !! display)
        <-> exists e, encoders_to_display_id_ d !! e = Some display).

(** Every display id of a connector leads back to that connector. *)
Definition display_ids_lead_back (d : DrmDevice) : Prop :=
  forall p display,
    connectors_to_display_id_ d !! p = Some display ->
    bound_connectors_ d !! display = Some p.

(** A node without any object, and a node whose only connector is neither
    internal nor external. *)
Definition empty_node : Kernel := example_kernel [] [] [].

Definition unclassified_connector_node : Kernel :=
  example_kernel
    [DrmCrtc.Build 31 0]
    [DrmEncoder.Build 41 0 0 1]
    [DrmConnector.Build 51 0 true false false false 0 [41]].

(** The cataloged objects and the resolution bounds of a device. *)
Definition catalog (d : DrmDevice) :=
  (crtcs_ d, encoders_ d, planes_ d, min_resolution_ d, max_resolution_ d).

(** * Properties *)

(** ** Maps *)

Lemma map_count_None `{Countable K} {V} (m : gmap K V) (k : K) :
  m !! k = None -> (map_count m k =? 0)%nat = true.
Proof. intros E. unfold map_count. by rewrite E. Qed.

Lemma map_count_Some `{Countable K} {V} (m : gmap K V) (k : K) (v : V) :
  m !! k = Some v -> (map_count m k =? 0)%nat = false.
Proof. intros E. unfold map_count. by rewrite E. Qed.

(** ** [find_from] *)

Lemma find_from_Some {A} (f : A -> bool) (l : list A) (p q : nat) (x : A) :
  find_from f p l = Some (q, x) ->
  (p <= q)%nat /\ l !! (q - p)%nat = Some x /\ f x = true
  /\ forall j y, (j < q - p)%nat -> l !! j = Some y -> f y = false.
Proof.
  revert p. induction l as [|a l IH]; intros p; simpl; [done|].
  destruct (f a) eqn:Fa.
  - intros [= <- <-]. rewrite Nat.sub_diag. repeat split; auto; lia.
  - intros E. destruct (IH _ E) as (Hle & Hl & Hf & Hmin).
    split; [lia|]. replace (q - p)%nat with (S (q - S p)) by lia.
    repeat split; auto.
    intros [|j] y Hj; simpl; [congruence|].
    apply Hmin. lia.
Qed.

Lemma find_from_None {A} (f : A -> bool) (l : list A) (p : nat) :
  find_from f p l = None <-> forall x, x ∈ l -> f x = false.
Proof.
  revert p. induction l as [|a l IH]; intros p; simpl.
  - split; [|done]. intros _ x Hx. by apply elem_of_nil in Hx.
  - destruct (f a) eqn:Fa.
    + split; [done|]. intros Hall. specialize (Hall a (list_elem_of_here _ _)).
      congruence.
    + rewrite IH. split.
      * intros Hall x Hx. apply elem_of_cons in Hx as [->|Hx]; auto.
      * intros Hall x Hx. apply Hall. by apply list_elem_of_further.
Qed.

Lemma find_from_first {A} (f : A -> bool) (l : list A) (p i : nat) (x : A) :
  l !! i = Some x ->
  f x = true ->
  (forall j y, (j < i)%nat -> l !! j = Some y -> f y = false) ->
  find_from f p l = Some ((p + i)%nat, x).
Proof.
  revert p i. induction l as [|a l IH]; intros p i Hi Hx Hmin; [done|].
  destruct i as [|i]; simpl in *.
  - injection Hi as ->. by rewrite Hx, Nat.add_0_r.
  - rewrite (Hmin 0%nat a) by (done || lia).
    rewrite (IH (S p) i Hi Hx).
    + f_equal. f_equal. lia.
    + intros j y Hj. apply (Hmin (S j)). lia.
Qed.

(** ** [TryEncoderForDisplay] *)

Lemma TryEncoderForDisplay_scan_find display encp enc p crtcs d :
  TryEncoderForDisplay_scan display encp enc p crtcs d =
  match bound_crtcs_ d !! display with
  | Some _ => (- EAGAIN, d)
  | None =>
      match find_from (acceptable_crtc enc) p crtcs with
      | Some (crtc, _) => (0, bind_crtc display crtc encp d)
      | None => (- EAGAIN, d)
      end
  end.
Proof.
  revert p. induction crtcs as [|crtc rest IH]; intros p; simpl.
  - by destruct (bound_crtcs_ d !! display).
  - unfold acceptable_crtc at 1.
    destruct (DrmEncoder.SupportsCrtc enc crtc); simpl; [|apply IH].
    destruct (DrmCrtc.GetId crtc =? DrmEncoder.GetCurrentCrtcId enc); simpl;
      [apply IH|].
    unfold map_count. destruct (bound_crtcs_ d !! display) eqn:E; simpl.
    + apply IH.
    + done.
Qed.

Lemma TryEncoderForDisplay_refines display encp enc d :
  TryEncoderForDisplay display encp enc d
  = TryEncoderForDisplay_spec display encp enc d.
Proof.
  unfold TryEncoderForDisplay, TryEncoderForDisplay_spec.
  rewrite TryEncoderForDisplay_scan_find.
  destruct (FindCrtcById _ d) as [[crtc ?]|];
    destruct (bound_crtcs_ d !! display) eqn:E; try done.
  - by rewrite (map_count_Some _ _ _ E).
  - by rewrite (map_count_None _ _ E).
Qed.

(** The two results of the CRTC search: the retry signal with the device
    untouched, or a bind of one CRTC of [crtcs_] for a display that had
    none. *)
Lemma TryEncoderForDisplay_cases display encp enc d :
  TryEncoderForDisplay display encp enc d = (- EAGAIN, d)
  \/ exists crtc, (crtc < length (crtcs_ d))%nat
       /\ bound_crtcs_ d !! display = None
       /\ TryEncoderForDisplay display encp enc d
          = (0, bind_crtc display crtc encp d).
Proof.
  rewrite TryEncoderForDisplay_refines. unfold TryEncoderForDisplay_spec.
  destruct (bound_crtcs_ d !! display) eqn:E; [by left|].
  unfold FindCrtcById.
  destruct (find_from _ 0 (crtcs_ d)) as [[crtc c]|] eqn:F.
  - right. exists crtc. apply find_from_Some in F as (_ & Hl & _).
    apply lookup_lt_Some in Hl. split; [lia|done].
  - destruct (find_from (acceptable_crtc enc) 0 (crtcs_ d)) as [[crtc c]|] eqn:G;
      [|by left].
    right. exists crtc. apply find_from_Some in G as (_ & Hl & _).
    apply lookup_lt_Some in Hl. split; [lia|done].
Qed.

(** ** [CreateDisplayPipe] *)

(** The scan of [encoders_] ends in one of two ways: no encoder could be
    bound, and only a line was logged; or one supported, unclaimed encoder
    was bound with one CRTC, for a display that had no CRTC. *)
Lemma CreateDisplayPipe_scan_cases display conn p encs d :
  CreateDisplayPipe_scan display conn p encs d
  = (- ENODEV,
     log ALOGE "Could not find a suitable encoder/crtc for display" d)
  \/ exists encp enc crtc,
       (p <= encp)%nat /\ encs !! (encp - p)%nat = Some enc
       /\ DrmConnector.SupportsEncoder conn enc = true
       /\ encoders_to_display_id_ d !! encp = None
       /\ (crtc < length (crtcs_ d))%nat
       /\ bound_crtcs_ d !! display = None
       /\ CreateDisplayPipe_scan display conn p encs d
          = (0, claim_encoder encp display (bind_crtc display crtc encp d)).
Proof.
  revert p. induction encs as [|enc rest IH]; intros p; simpl; [by left|].
  assert (Hrest :
    CreateDisplayPipe_scan display conn (S p) rest d
    = (- ENODEV,
       log ALOGE "Could not find a suitable encoder/crtc for display" d)
    \/ exists encp enc' crtc,
       (p <= encp)%nat /\ (enc :: rest) !! (encp - p)%nat = Some enc'
       /\ DrmConnector.SupportsEncoder conn enc' = true
       /\ encoders_to_display_id_ d !! encp = None
       /\ (crtc < length (crtcs_ d))%nat
       /\ bound_crtcs_ d !! display = None
       /\ CreateDisplayPipe_scan display conn (S p) rest d
          = (0, claim_encoder encp display (bind_crtc display crtc encp d))).
  { destruct (IH (S p)) as [E|(encp & enc' & crtc & Hle & Hl & H)]; [by left|].
    right. exists encp, enc', crtc. split; [lia|]. split; [|done].
    replace (encp - p)%nat with (S (encp - S p)) by lia. done. }
  destruct (DrmConnector.SupportsEncoder conn enc) eqn:Hs; simpl; [|done].
  unfold map_count.
  destruct (encoders_to_display_id_ d !! p) eqn:Hc; simpl; [done|].
  destruct (TryEncoderForDisplay_cases display p enc d)
    as [E|(crtc & Hlt & Hb & E)]; rewrite E; simpl; [done|].
  right. exists p, enc, crtc. rewrite Nat.sub_diag. done.
Qed.

Lemma CreateDisplayPipe_refines connp conn d :
  CreateDisplayPipe connp conn d = CreateDisplayPipe_spec connp conn d.
Proof.
  unfold CreateDisplayPipe, CreateDisplayPipe_spec, map_at.
  destruct (connectors_to_display_id_ d !! connp) as [display|]; [|done].
  destruct (FindEncoderById _ d) as [[enc0p enc0]|]; [|done].
  unfold map_count.
  destruct (encoders_to_display_id_ d !! enc0p); simpl; [done|].
  rewrite <- TryEncoderForDisplay_refines.
  destruct (TryEncoderForDisplay_cases display enc0p enc0 d)
    as [E|(crtc & _ & _ & E)]; rewrite E; done.
Qed.

(** What one call of [CreateDisplayPipe] does to the device. *)
Lemma CreateDisplayPipe_cases connp conn d :
  (connectors_to_display_id_ d !! connp = None
   /\ CreateDisplayPipe connp conn d = (Throws std_out_of_range, d))
  \/ (exists display,
       connectors_to_display_id_ d !! connp = Some display
       /\ CreateDisplayPipe connp conn d
          = (Normal (- ENODEV),
             log ALOGE "Could not find a suitable encoder/crtc for display" d))
  \/ (exists display encp crtc,
       connectors_to_display_id_ d !! connp = Some display
       /\ (encp < length (encoders_ d))%nat
       /\ encoders_to_display_id_ d !! encp = None
       /\ (crtc < length (crtcs_ d))%nat
       /\ bound_crtcs_ d !! display = None
       /\ CreateDisplayPipe connp conn d
          = (Normal 0,
             claim_encoder encp display (bind_crtc display crtc encp d))).
Proof.
  rewrite CreateDisplayPipe_refines. unfold CreateDisplayPipe_spec.
  destruct (connectors_to_display_id_ d !! connp) as [display|]; [|by left].
  right.
  assert (Hfb :
    (let '(ret, d') := CreateDisplayPipe_scan display conn 0 (encoders_ d) d in
     (Normal ret, d'))
    = (Normal (- ENODEV),
       log ALOGE "Could not find a suitable encoder/crtc for display" d)
    \/ exists encp crtc,
       (encp < length (encoders_ d))%nat
       /\ encoders_to_display_id_ d !! encp = None
       /\ (crtc < length (crtcs_ d))%nat
       /\ bound_crtcs_ d !! display = None
       /\ (let '(ret, d') :=
             CreateDisplayPipe_scan display conn 0 (encoders_ d) d in
           (Normal ret, d'))
          = (Normal 0,
             claim_encoder encp display (bind_crtc display crtc encp d))).
  { destruct (CreateDisplayPipe_scan_cases display conn 0 (encoders_ d) d)
      as [E|(encp & enc & crtc & _ & Hl & _ & Hc & Hlt & Hb & E)];
      rewrite E; [by left|].
    right. exists encp, crtc. apply lookup_lt_Some in Hl.
    split; [lia|done]. }
  assert (Hgoal : forall r,
    (r = (Normal (- ENODEV),
          log ALOGE "Could not find a suitable encoder/crtc for display" d)
     \/ exists encp crtc,
       (encp < length (encoders_ d))%nat
       /\ encoders_to_display_id_ d !! encp = None
       /\ (crtc < length (crtcs_ d))%nat
       /\ bound_crtcs_ d !! display = None
       /\ r = (Normal 0,
               claim_encoder encp display (bind_crtc display crtc encp d)))
    -> (exists display0, Some display = Some display0 /\ r
          = (Normal (- ENODEV),
             log ALOGE "Could not find a suitable encoder/crtc for display" d))
       \/ (exists display0 encp crtc,
            Some display = Some display0
            /\ (encp < length (encoders_ d))%nat
            /\ encoders_to_display_id_ d !! encp = None
            /\ (crtc < length (crtcs_ d))%nat
            /\ bound_crtcs_ d !! display0 = None
            /\ r = (Normal 0,
                    claim_encoder encp display0
                      (bind_crtc display0 crtc encp d)))).
  { intros r [->|(encp & crtc & H)]; [left; by exists display|].
    right. by exists display, encp, crtc. }
  destruct (FindEncoderById _ d) as [[enc0p enc0]|] eqn:F;
    [|by apply Hgoal].
  destruct (encoders_to_display_id_ d !! enc0p) eqn:Hc; [by apply Hgoal|].
  rewrite <- TryEncoderForDisplay_refines.
  destruct (TryEncoderForDisplay_cases display enc0p enc0 d)
    as [E|(crtc & Hlt & Hb & E)]; rewrite E; simpl; [by apply Hgoal|].
  apply Hgoal. right. exists enc0p, crtc.
  apply find_from_Some in F as (_ & Hl & _). apply lookup_lt_Some in Hl.
  split; [lia|done].
Qed.


(** C6: a CRTC search that returns the retry signal leaves the device, and so
    the binding maps, as they were; [CreateDisplayPipe] changes the binding
    maps only when it returns 0, and then the display-to-CRTC, the
    CRTC-to-encoder and the encoder-to-display entries are written together,
    for the display of the connector. *)
Theorem retry_commits_nothing display encp enc connp conn d :
  (fst (TryEncoderForDisplay display encp enc d) = - EAGAIN
   -> snd (TryEncoderForDisplay display encp enc d) = d)
  /\ match CreateDisplayPipe connp conn d with
     | (Normal ret, d') =>
         if ret =? 0 then
           exists disp e crtc,
             connectors_to_display_id_ d !! connp = Some disp
             /\ bound_crtcs_ d' = <[disp := crtc]> (bound_crtcs_ d)
             /\ bound_encoders_ d' = <[crtc := e]> (bound_encoders_ d)
             /\ encoders_to_display_id_ d'
                = <[e := disp]> (encoders_to_display_id_ d)
             /\ bound_connectors_ d' = bound_connectors_ d
             /\ connectors_to_display_id_ d' = connectors_to_display_id_ d
         else bindings d' = bindings d
     | (Throws _, d') => bindings d' = bindings d
     end.
Proof.
  split.
  - destruct (TryEncoderForDisplay_cases display encp enc d)
      as [E|(crtc & _ & _ & E)]; rewrite E; simpl; [done|].
    unfold EAGAIN. discriminate.
  - destruct (CreateDisplayPipe_cases connp conn d)
      as [[_ E]|[(disp & _ & E)|(disp & e & crtc & Hc & _ & _ & _ & _ & E)]];
      rewrite E; simpl; try done.
    exists disp, e, crtc. done.
Qed.


(** ** What each stage of [Init] changes *)

Ltac case_ifs :=
  repeat match goal with
         | |- context [if ?b then _ else _] => destruct b; simpl
         end.

(** An event that differs from every element of an explicit list. *)
Ltac not_in_list :=
  let H := fresh in
  intros H;
  repeat (apply elem_of_cons in H as [H|H]; [discriminate H|]);
  by apply elem_of_nil in H.


Lemma Init_negotiate_frame k path d :
  resources (snd (Init_negotiate k path d)) = resources d
  /\ bindings (snd (Init_negotiate k path d)) = bindings d.
Proof.
  unfold Init_negotiate; simpl.
  destruct (k_open k path); simpl; [|done].
  case_ifs; done.
Qed.

Lemma Init_crtcs_frame k i ids d :
  kept_by_catalog (Init_crtcs k i ids d) = kept_by_catalog d.
Proof.
  revert i d. induction ids as [|id rest IH]; intros i d; simpl; [done|].
  rewrite IH. by destruct (k_DrmCrtc_CreateInstance k id i).
Qed.

Lemma Init_encoders_frame k i ids d :
  kept_by_catalog (Init_encoders k i ids d) = kept_by_catalog d.
Proof.
  revert i d. induction ids as [|id rest IH]; intros i d; simpl; [done|].
  rewrite IH. by destruct (k_DrmEncoder_CreateInstance k id i).
Qed.

Lemma Init_planes_frame k ids d :
  kept_by_catalog (Init_planes k ids d) = kept_by_catalog d.
Proof.
  revert d. induction ids as [|id rest IH]; intros d; simpl; [done|].
  rewrite IH. by destruct (k_DrmPlane_CreateInstance k id).
Qed.

Lemma Init_connectors_frame k i ids d :
  kept_by_connectors (Init_connectors k i ids d) = kept_by_connectors d.
Proof.
  revert i d. induction ids as [|id rest IH]; intros i d; simpl; [done|].
  rewrite IH. destruct (k_DrmConnector_CreateInstance k id i) as [c|]; [|done].
  by destruct (DrmConnector.IsWriteback c).
Qed.

(** The loop over the connector ids appends the created connectors, split by
    [IsWriteback], to the two vectors. *)
Lemma Init_connectors_split k i ids d :
  connectors_ (Init_connectors k i ids d)
  = connectors_ d
    ++ filter (fun c => DrmConnector.IsWriteback c = false)
         (created_connectors k i ids)
  /\ writeback_connectors_ (Init_connectors k i ids d)
     = writeback_connectors_ d
       ++ filter (fun c => DrmConnector.IsWriteback c = true)
            (created_connectors k i ids).
Proof.
  revert i d. induction ids as [|id rest IH]; intros i d; simpl.
  - by rewrite !app_nil_r.
  - destruct (IH (S i)
      match k_DrmConnector_CreateInstance k id i with
      | Some conn =>
          if DrmConnector.IsWriteback conn
          then set_writeback_connectors d (writeback_connectors_ d ++ [conn])
          else set_connectors d (connectors_ d ++ [conn])
      | None => d
      end) as [-> ->].
    destruct (k_DrmConnector_CreateInstance k id i) as [c|]; [|done].
    rewrite !filter_cons.
    destruct (DrmConnector.IsWriteback c) eqn:W; simpl.
    + by rewrite <- app_assoc.
    + by rewrite <- app_assoc.
Qed.

Lemma add_displays_frame internal connected p conns st :
  kept_by_add_displays (fst (add_displays internal connected p conns st))
  = kept_by_add_displays (fst st).
Proof.
  revert p st. induction conns as [|c rest IH]; intros p [d n]; simpl; [done|].
  rewrite IH. case_ifs; done.
Qed.

Lemma Init_add_displays_frame st :
  kept_by_add_displays (fst (Init_add_displays st))
  = kept_by_add_displays (fst st).
Proof. unfold Init_add_displays. by rewrite !add_displays_frame. Qed.

Lemma logs_only_refl d : logs_only d d.
Proof. exists []. by rewrite app_nil_r. Qed.

Lemma logs_only_trans d1 d2 d3 :
  logs_only d1 d2 -> logs_only d2 d3 -> logs_only d1 d3.
Proof.
  intros (t1 & E1 & K1) (t2 & E2 & K2). exists (t1 ++ t2).
  rewrite E2, E1, <- app_assoc. split; [done|].
  unfold kernel_calls in *. by rewrite filter_app, K1, K2.
Qed.

Lemma logs_only_log lvl msg d : logs_only d (log lvl msg d).
Proof. by exists [EvLog lvl msg]. Qed.

Lemma displays_wf_bind connp display encp crtc d :
  connectors_to_display_id_ d !! connp = Some display ->
  displays_wf d ->
  displays_wf (claim_encoder encp display (bind_crtc display crtc encp d)).
Proof.
  intros Hc (H1 & H2 & H3). pose proof (H1 _ _ Hc) as Hd.
  split; [exact H1|]. split; simpl.
  - intros disp. destruct (decide (display = disp)) as [<-|Hne]; [done|].
    rewrite lookup_insert_ne by done. apply H2.
  - intros e disp. destruct (decide (encp = e)) as [<-|Hne].
    + rewrite lookup_insert_eq. by intros [= <-].
    + rewrite lookup_insert_ne by done. apply H3.
Qed.

Lemma CreateDisplayPipe_keeps connp conn d :
  kept_by_pipes (snd (CreateDisplayPipe connp conn d)) = kept_by_pipes d
  /\ logs_only d (snd (CreateDisplayPipe connp conn d))
  /\ (displays_wf d -> displays_wf (snd (CreateDisplayPipe connp conn d))).
Proof.
  destruct (CreateDisplayPipe_cases connp conn d)
    as [[_ E]|[(disp & _ & E)|(disp & e & crtc & Hc & _ & _ & _ & _ & E)]];
    rewrite E; simpl.
  - split; [done|]. split; [apply logs_only_refl|done].
  - split; [done|]. split; [apply logs_only_log|done].
  - split; [done|]. split; [exists []; simpl; by rewrite app_nil_r|].
    by apply displays_wf_bind with connp.
Qed.

Lemma Init_pipes_keeps p conns ret d :
  kept_by_pipes (snd (Init_pipes p conns ret d)) = kept_by_pipes d
  /\ logs_only d (snd (Init_pipes p conns ret d))
  /\ (displays_wf d -> displays_wf (snd (Init_pipes p conns ret d))).
Proof.
  revert p ret d. induction conns as [|conn rest IH]; intros p ret d; simpl.
  - split; [done|]. split; [apply logs_only_refl|done].
  - destruct (CreateDisplayPipe_keeps p conn d) as (K & L & W).
    destruct (CreateDisplayPipe p conn d) as [[r|e] d1]; simpl in *;
      [|done].
    destruct (negb (r =? 0)); simpl.
    + split; [done|]. split; [|done].
      eapply logs_only_trans; [exact L|apply logs_only_log].
    + destruct (IH (S p) r d1) as (K' & L' & W').
      split; [congruence|]. split; [|auto].
      eapply logs_only_trans; eauto.
Qed.

(** The loop over a vector split in two: the second part runs from the state
    and the [ret] the first part ends with, unless the first part left
    [Init]. *)
Lemma Init_pipes_app p pre post ret d :
  Init_pipes p (pre ++ post) ret d =
  match Init_pipes p pre ret d with
  | (Normal (inr r), d') => Init_pipes (p + length pre) post r d'
  | other => other
  end.
Proof.
  revert p ret d. induction pre as [|conn rest IH]; intros p ret d; simpl.
  - by rewrite Nat.add_0_r.
  - destruct (CreateDisplayPipe p conn d) as [[r|e] d1]; [|done].
    destruct (negb (r =? 0)); [done|].
    rewrite IH. by replace (S p + length rest)%nat with (p + S (length rest))%nat by lia.
Qed.

Lemma connectors_wf_kept d d' :
  kept_by_pipes d' = kept_by_pipes d -> connectors_wf d -> connectors_wf d'.
Proof.
  unfold kept_by_pipes, resources, connectors_wf.
  intros [= -> -> _ _ _ -> -> _]. done.
Qed.

(** ** Allocation of display ids *)

Lemma add_displays_select internal connected p conns st :
  add_displays internal connected p conns st
  = assign_ids (select (in_class internal connected) p conns) st.
Proof.
  revert p st. induction conns as [|c rest IH]; intros p [d n]; simpl; [done|].
  rewrite IH. unfold in_class.
  by destruct ((if internal then _ else _) && (if connected then _ else _)).
Qed.

Lemma assign_ids_app l1 l2 st :
  assign_ids (l1 ++ l2) st = assign_ids l2 (assign_ids l1 st).
Proof.
  revert st. induction l1 as [|p rest IH]; intros [d n]; simpl; [done|].
  apply IH.
Qed.

Lemma add_displays_connectors internal connected p conns st :
  connectors_ (fst (add_displays internal connected p conns st))
  = connectors_ (fst st).
Proof.
  pose proof (add_displays_frame internal connected p conns st) as F.
  unfold kept_by_add_displays, resources in F. congruence.
Qed.

Lemma Init_add_displays_refines d n :
  Init_add_displays (d, n) = assign_ids (display_order (connectors_ d)) (d, n).
Proof.
  unfold Init_add_displays, display_order.
  rewrite !add_displays_connectors. simpl.
  rewrite !add_displays_select, !assign_ids_app. done.
Qed.

Lemma assign_ids_lookup l d n :
  snd (assign_ids l (d, n)) = n + Z.of_nat (length l)
  /\ (forall i p, l !! i = Some p ->
        bound_connectors_ (fst (assign_ids l (d, n))) !! (n + Z.of_nat i)
        = Some p)
  /\ (forall display, display < n \/ n + Z.of_nat (length l) <= display ->
        bound_connectors_ (fst (assign_ids l (d, n))) !! display
        = bound_connectors_ d !! display)
  /\ (forall i p, l !! i = Some p ->
        (forall j, (i < j)%nat -> l !! j <> Some p) ->
        connectors_to_display_id_ (fst (assign_ids l (d, n))) !! p
        = Some (n + Z.of_nat i))
  /\ (forall p, p ∉ l ->
        connectors_to_display_id_ (fst (assign_ids l (d, n))) !! p
        = connectors_to_display_id_ d !! p).
Proof.
  revert d n. induction l as [|q rest IH]; intros d n; simpl.
  - split; [lia|]. repeat split; done.
  - match goal with |- context [assign_ids rest (?d1, _)] =>
      destruct (IH d1 (n + 1)) as (Hn & Hl & Ho & Hc & Hf) end.
    simpl in *. split; [lia|]. split; [|split; [|split]].
    + intros [|i] p Hp; simpl in Hp.
      * injection Hp as ->. rewrite Z.add_0_r, Ho by lia.
        apply lookup_insert_eq.
      * replace (n + Z.of_nat (S i)) with (n + 1 + Z.of_nat i) by lia. auto.
    + intros display Hd. rewrite Ho by lia. apply lookup_insert_ne. lia.
    + intros [|i] p Hp Hlast; simpl in Hp.
      * injection Hp as ->. rewrite Z.add_0_r, Hf; [apply lookup_insert_eq|].
        intros Hin. apply list_elem_of_lookup in Hin as [j Hj].
        apply (Hlast (S j)); [lia|done].
      * replace (n + Z.of_nat (S i)) with (n + 1 + Z.of_nat i) by lia.
        apply Hc; [done|]. intros j Hj. apply (Hlast (S j)). lia.
    + intros p Hp. apply not_elem_of_cons in Hp as [Hne Hp].
      rewrite Hf by done. by apply lookup_insert_ne.
Qed.

Lemma select_lookup f p conns i q :
  select f p conns !! i = Some q ->
  (p <= q)%nat /\ exists c, conns !! (q - p)%nat = Some c /\ f c = true.
Proof.
  revert p i. induction conns as [|c rest IH]; intros p i; simpl; [done|].
  assert (Hrest : forall i, select f (S p) rest !! i = Some q ->
    (p <= q)%nat /\ exists c', (c :: rest) !! (q - p)%nat = Some c' /\ f c' = true).
  { intros i' Hi. destruct (IH _ _ Hi) as (Hle & c' & Hc & Hf).
    split; [lia|]. exists c'. split; [|done].
    by replace (q - p)%nat with (S (q - S p)) by lia. }
  destruct (f c) eqn:Fc; [|apply Hrest].
  destruct i as [|i]; simpl; [|apply Hrest].
  intros [= <-]. split; [lia|]. exists c. by rewrite Nat.sub_diag.
Qed.

Lemma select_nonempty f p conns c :
  c ∈ conns -> f c = true -> exists q, select f p conns !! 0%nat = Some q.
Proof.
  revert p. induction conns as [|c' rest IH]; intros p Hin Hf; simpl.
  - by apply elem_of_nil in Hin.
  - destruct (f c') eqn:Fc; [by eexists|].
    apply elem_of_cons in Hin as [->|Hin]; [congruence|]. by apply IH.
Qed.

(** ** Negotiation *)

Lemma Init_negotiate_verdict k path d :
  fst (Init_negotiate k path d)
  = match negotiation_fatal_spec k path with
    | Some err => inl (err, 0)
    | None => inr 0
    end.
Proof.
  unfold Init_negotiate, negotiation_fatal_spec; simpl.
  destruct (k_open k path); simpl; [|done].
  destruct (k_drmSetClientCap k DRM_CLIENT_CAP_UNIVERSAL_PLANES =? 0);
    simpl; [|done].
  destruct (k_drmSetClientCap k DRM_CLIENT_CAP_ATOMIC =? 0) eqn:Ha;
    simpl; [|done].
  apply Z.eqb_eq in Ha. rewrite Ha.
  destruct (k_have_writeback_cap k); simpl.
  - destruct (k_drmSetClientCap k DRM_CLIENT_CAP_WRITEBACK_CONNECTORS =? 0)
      eqn:Hw; simpl.
    + apply Z.eqb_eq in Hw. rewrite Hw. case_ifs; done.
    + case_ifs; done.
  - case_ifs; done.
Qed.

Lemma Init_negotiate_trace k path d :
  exists t,
    trace_ (snd (Init_negotiate k path d)) = trace_ d ++ t
    /\ kernel_calls t `prefix_of` negotiation_calls k path
    /\ (forall ret, fst (Init_negotiate k path d) = inr ret ->
          kernel_calls t = negotiation_calls k path)
    /\ EvGetResources ∉ t.
Proof.
  unfold Init_negotiate, negotiation_calls; simpl.
  destruct (k_open k path); simpl;
    [|eexists; split; [rewrite <- ?app_assoc; reflexivity|];
      split; [by eexists|]; split; [done|]; not_in_list].
  destruct (k_have_writeback_cap k); simpl; case_ifs;
    (eexists; split; [rewrite <- ?app_assoc; reflexivity|];
     split; [by eexists|]; split; [done|]; not_in_list).
Qed.


(** ** The invariants along [Init] *)

Lemma wf_transfer d d' :
  connectors_ d' = connectors_ d ->
  writeback_connectors_ d' = writeback_connectors_ d ->
  bindings d' = bindings d ->
  (connectors_wf d -> connectors_wf d') /\ (displays_wf d -> displays_wf d').
Proof.
  unfold bindings, connectors_wf, displays_wf.
  intros -> -> [= -> -> -> -> _]. done.
Qed.

Lemma DrmDevice_new_wf : connectors_wf DrmDevice_new /\ displays_wf DrmDevice_new.
Proof.
  unfold connectors_wf, displays_wf; simpl.
  repeat split; try (intros ? H; by apply elem_of_nil in H);
    try (intros ?? H; by rewrite lookup_empty in H).
  intros ? [? H]. by rewrite lookup_empty in H.
Qed.

Lemma Init_enumerate_keeps k d d2 :
  Init_enumerate k d = Some d2 ->
  bindings d2 = bindings d
  /\ HasAddFb2ModifiersSupport_ d2 = HasAddFb2ModifiersSupport_ d
  /\ trace_ d2 = trace_ d
  /\ exists res,
       k_MakeDrmModeResUnique k = Some res
       /\ connectors_ d2
          = connectors_ d
            ++ filter (fun c => DrmConnector.IsWriteback c = false)
                 (created_connectors k 0 (res_connectors res))
       /\ writeback_connectors_ d2
          = writeback_connectors_ d
            ++ filter (fun c => DrmConnector.IsWriteback c = true)
                 (created_connectors k 0 (res_connectors res)).
Proof.
  unfold Init_enumerate.
  destruct (k_MakeDrmModeResUnique k) as [res|]; [|done]. intros [= <-].
  set (d0 := set_resolution d _ _).
  set (d1 := Init_crtcs k 0 _ d0). set (d2 := Init_encoders k 0 _ d1).
  assert (F0 : kept_by_catalog d0 = kept_by_catalog d) by done.
  pose proof (Init_crtcs_frame k 0 (res_crtcs res) d0) as F1.
  pose proof (Init_encoders_frame k 0 (res_encoders res) d1) as F2.
  pose proof (Init_connectors_frame k 0 (res_connectors res) d2) as F3.
  destruct (Init_connectors_split k 0 (res_connectors res) d2) as [Sc Sw].
  fold d1 in F1. fold d2 in F2. rewrite Sc, Sw.
  clearbody d2 d1 d0. clear Sc Sw.
  unfold kept_by_catalog, kept_by_connectors in *.
  split; [congruence|]. split; [congruence|]. split; [congruence|].
  exists res. split; [done|]. split; congruence.
Qed.

Lemma Init_enumerate_wf k d d2 :
  Init_enumerate k d = Some d2 ->
  (connectors_wf d -> connectors_wf d2) /\ (displays_wf d -> displays_wf d2).
Proof.
  intros E. destruct (Init_enumerate_keeps _ _ _ E)
    as (Hb & _ & _ & res & _ & Hc & Hw).
  split.
  - intros (W1 & W2 & W3 & W4). unfold connectors_wf.
    injection Hb as _ -> -> _ _. rewrite Hc, Hw, length_app.
    split; [|split; [|split]].
    + intros c [Hin|Hin]%elem_of_app; [auto|].
      by apply list_elem_of_filter in Hin as [? _].
    + intros c [Hin|Hin]%elem_of_app; [auto|].
      by apply list_elem_of_filter in Hin as [? _].
    + intros display p Hp. apply W3 in Hp. lia.
    + intros p display Hp. apply W4 in Hp. lia.
  - unfold displays_wf. injection Hb as -> -> -> -> _. done.
Qed.

Lemma assign_ids_wf l d n :
  (forall p, p ∈ l -> (p < length (connectors_ d))%nat) ->
  (connectors_wf d -> connectors_wf (fst (assign_ids l (d, n))))
  /\ (displays_wf d -> displays_wf (fst (assign_ids l (d, n)))).
Proof.
  revert d n. induction l as [|q rest IH]; intros d n Hl; simpl; [done|].
  match goal with |- context [assign_ids rest (?d1, _)] =>
    destruct (IH d1 (n + 1)) as [IHc IHd] end.
  { intros p Hp. simpl. apply Hl. by apply list_elem_of_further. }
  assert (Hq : (q < length (connectors_ d))%nat)
    by apply Hl, list_elem_of_here.
  split.
  - intros (W1 & W2 & W3 & W4). apply IHc. unfold connectors_wf; simpl.
    split; [done|]. split; [done|]. split.
    + intros display p. destruct (decide (n = display)) as [<-|Hne].
      * rewrite lookup_insert_eq. by intros [= <-].
      * rewrite lookup_insert_ne by done. apply W3.
    + intros p display. destruct (decide (q = p)) as [<-|Hne]; [done|].
      rewrite lookup_insert_ne by done. apply W4.
  - intros (D1 & D2 & D3). apply IHd. unfold displays_wf; simpl.
    assert (Hmono : forall display, is_Some (bound_connectors_ d !! display) ->
              is_Some (<[n := q]> (bound_connectors_ d) !! display)).
    { intros display. destruct (decide (n = display)) as [<-|Hne].
      - by rewrite lookup_insert_eq.
      - by rewrite lookup_insert_ne. }
    split; [|split].
    + intros p display. destruct (decide (q = p)) as [<-|Hne].
      * rewrite lookup_insert_eq. intros [= <-]. by rewrite lookup_insert_eq.
      * rewrite lookup_insert_ne by done. intros Hp. eauto.
    + intros display Hd. auto.
    + intros e display He. eauto.
Qed.

Lemma display_order_bound conns p :
  p ∈ display_order conns -> (p < length conns)%nat.
Proof.
  unfold display_order. rewrite !elem_of_app.
  intros Hin.
  assert (Hsel : forall f, p ∈ select f 0 conns -> (p < length conns)%nat).
  { intros f [i Hi]%list_elem_of_lookup.
    destruct (select_lookup _ _ _ _ _ Hi) as (_ & c & Hc & _).
    apply lookup_lt_Some in Hc. lia. }
  destruct Hin as [?|[?|[?|?]]]; eauto.
Qed.

Lemma Init_add_displays_wf d n :
  (connectors_wf d -> connectors_wf (fst (Init_add_displays (d, n))))
  /\ (displays_wf d -> displays_wf (fst (Init_add_displays (d, n)))).
Proof.
  rewrite Init_add_displays_refines. apply assign_ids_wf.
  apply display_order_bound.
Qed.

(** ** The runs of [Init] *)

(** The paths through [Init], by the verdict of the negotiation and the
    answers to the two resource queries. *)
Lemma Init_run k path n d :
  (exists err,
     negotiation_fatal_spec k path = Some err
     /\ Init_prepare k path n d
        = (inl (err, 0), snd (Init_negotiate k path d))
     /\ Init k path n d = (Normal (err, 0), snd (Init_negotiate k path d)))
  \/ (negotiation_fatal_spec k path = None
      /\ k_MakeDrmModeResUnique k = None
      /\ Init_prepare k path n d
         = (inl (- ENODEV, 0),
            log ALOGE "Failed to get DrmDevice resources"
              (emit EvGetResources (snd (Init_negotiate k path d))))
      /\ Init k path n d
         = (Normal (- ENODEV, 0),
            log ALOGE "Failed to get DrmDevice resources"
              (emit EvGetResources (snd (Init_negotiate k path d)))))
  \/ (exists d2,
       negotiation_fatal_spec k path = None
       /\ Init_enumerate k (emit EvGetResources (snd (Init_negotiate k path d)))
          = Some d2
       /\ k_MakeDrmModePlaneResUnique k = None
       /\ Init_prepare k path n d
          = (inl (- ENOENT, 0),
             log ALOGE "Failed to get plane resources"
               (emit EvGetPlaneResources (fst (Init_add_displays (d2, n)))))
       /\ Init k path n d
          = (Normal (- ENOENT, 0),
             log ALOGE "Failed to get plane resources"
               (emit EvGetPlaneResources (fst (Init_add_displays (d2, n))))))
  \/ (exists d2 plane_res,
       negotiation_fatal_spec k path = None
       /\ Init_enumerate k (emit EvGetResources (snd (Init_negotiate k path d)))
          = Some d2
       /\ k_MakeDrmModePlaneResUnique k = Some plane_res
       /\ Init_prepare k path n d
          = (inr 0,
             Init_planes k plane_res
               (emit EvGetPlaneResources (fst (Init_add_displays (d2, n)))))).
Proof.
  pose proof (Init_negotiate_verdict k path d) as V.
  unfold Init, Init_prepare.
  destruct (Init_negotiate k path d) as [v d1]; simpl in *.
  destruct (negotiation_fatal_spec k path) as [err|]; subst v.
  { left. by exists err. }
  right.
  destruct (Init_enumerate k (emit EvGetResources d1)) as [d2|] eqn:E.
  2:{ left. unfold Init_enumerate in E.
      by destruct (k_MakeDrmModeResUnique k). }
  right. destruct (Init_add_displays (d2, n)) as [d3 n'] eqn:A; simpl.
  destruct (k_MakeDrmModePlaneResUnique k) as [plane_res|].
  - right. exists d2, plane_res. by rewrite A.
  - left. exists d2. by rewrite A.
Qed.

Lemma Init_unfold k path n d :
  Init k path n d =
  match Init_prepare k path n d with
  | (inl r, d) => (Normal r, d)
  | (inr ret, d) =>
      match Init_pipes 0 (connectors_ d) ret d with
      | (Throws e, d) => (Throws e, d)
      | (Normal (inl r), d) => (Normal r, d)
      | (Normal (inr ret), d) =>
          (Normal (ret, Z.of_nat (size (bound_connectors_ d))), d)
      end
  end.
Proof. done. Qed.

(** The device that [Init] leaves is the one the loop over the connectors
    leaves, or the one the earlier part leaves when that part returns. *)
Lemma Init_final_device k path n d :
  snd (Init k path n d) =
  match Init_prepare k path n d with
  | (inl r, d) => d
  | (inr ret, d) => snd (Init_pipes 0 (connectors_ d) ret d)
  end.
Proof.
  rewrite Init_unfold.
  destruct (Init_prepare k path n d) as [[r|ret] d1]; [done|].
  by destruct (Init_pipes 0 (connectors_ d1) ret d1) as [[[r|ret']|e] d2].
Qed.

Lemma device_wf_transfer d d' :
  connectors_ d' = connectors_ d ->
  writeback_connectors_ d' = writeback_connectors_ d ->
  bindings d' = bindings d ->
  device_wf d -> device_wf d'.
Proof.
  intros Hc Hw Hb [W1 W2]. destruct (wf_transfer d d' Hc Hw Hb). by split; auto.
Qed.

Lemma emit_wf ev d : device_wf d -> device_wf (emit ev d).
Proof. by apply device_wf_transfer. Qed.

Lemma Init_negotiate_wf k path d :
  device_wf d -> device_wf (snd (Init_negotiate k path d)).
Proof.
  destruct (Init_negotiate_frame k path d) as [R B].
  unfold resources in R. apply device_wf_transfer; congruence.
Qed.

Lemma Init_planes_wf k ids d : device_wf d -> device_wf (Init_planes k ids d).
Proof.
  pose proof (Init_planes_frame k ids d) as F. unfold kept_by_catalog in F.
  apply device_wf_transfer; congruence.
Qed.

Lemma Init_pipes_wf p conns ret d :
  device_wf d -> device_wf (snd (Init_pipes p conns ret d)).
Proof.
  destruct (Init_pipes_keeps p conns ret d) as (K & _ & W).
  intros [W1 W2]. split; [|auto]. by apply (connectors_wf_kept d).
Qed.

(** [Init] keeps the invariants, however it ends. *)
Lemma Init_wf k path n d :
  device_wf d -> device_wf (snd (Init k path n d)).
Proof.
  intros W. pose proof (Init_negotiate_wf k path d W) as W1.
  destruct (Init_run k path n d)
    as [(err & _ & _ & E)|[(_ & _ & _ & E)|[(d2 & _ & En & _ & _ & E)
       |(d2 & pr & _ & En & _ & E)]]].
  - by rewrite E.
  - rewrite E. by do 2 apply emit_wf.
  - rewrite E. do 2 apply emit_wf.
    destruct (Init_enumerate_wf _ _ _ En) as [Ec Ed].
    destruct (Init_add_displays_wf d2 n) as [Ac Ad].
    destruct (emit_wf EvGetResources _ W1). split; auto.
  - rewrite Init_final_device, E. apply Init_pipes_wf, Init_planes_wf, emit_wf.
    destruct (Init_enumerate_wf _ _ _ En) as [Ec Ed].
    destruct (Init_add_displays_wf d2 n) as [Ac Ad].
    destruct (emit_wf EvGetResources _ W1). split; auto.
Qed.

(** C9: a display id without an entry in [bound_connectors_] is not handled
    and [GetConnectorForDisplay] throws for it; one without an entry in
    [bound_crtcs_] makes [GetCrtcForDisplay] throw; neither accessor returns
    a null or default value.  On the device that [Init] leaves, started on a
    new device, both accessors throw for every display that
    [HandlesDisplay] rejects. *)
Theorem accessors_need_handled_display display :
  (forall d,
     bound_connectors_ d !! display = None ->
     HandlesDisplay display d = false
     /\ GetConnectorForDisplay display d = Throws std_out_of_range)
  /\ (forall d,
        bound_crtcs_ d !! display = None ->
        GetCrtcForDisplay display d = Throws std_out_of_range)
  /\ (forall d p, GetConnectorForDisplay display d = Normal p ->
        HandlesDisplay display d = true
        /\ bound_connectors_ d !! display = Some p)
  /\ (forall d p, GetCrtcForDisplay display d = Normal p ->
        bound_crtcs_ d !! display = Some p)
  /\ (forall k path n,
        HandlesDisplay display (snd (Init k path n DrmDevice_new)) = false ->
        GetConnectorForDisplay display (snd (Init k path n DrmDevice_new))
        = Throws std_out_of_range
        /\ GetCrtcForDisplay display (snd (Init k path n DrmDevice_new))
           = Throws std_out_of_range).
Proof.
  unfold HandlesDisplay, GetConnectorForDisplay, GetCrtcForDisplay,
    map_at, map_count.
  split; [|split; [|split; [|split]]].
  - intros d ->. done.
  - intros d ->. done.
  - intros d p. destruct (bound_connectors_ d !! display); [|done].
    by intros [= ->].
  - intros d p. destruct (bound_crtcs_ d !! display); [|done].
    by intros [= ->].
  - intros k path n.
    destruct (Init_wf k path n DrmDevice_new DrmDevice_new_wf)
      as [_ (_ & D2 & _)].
    specialize (D2 display).
    destruct (bound_connectors_ _ !! display) eqn:Ec; simpl; [done|].
    intros _. split; [done|].
    destruct (bound_crtcs_ _ !! display) eqn:Er; [|done].
    destruct D2 as [? ?]; [by eexists|done].
Qed.

(** The two connector vectors after an [Init] that got past the resource
    query. *)
Lemma Init_collections k path n d res :
  negotiation_fatal_spec k path = None ->
  k_MakeDrmModeResUnique k = Some res ->
  connectors_ (snd (Init k path n d))
  = connectors_ d
    ++ filter (fun c => DrmConnector.IsWriteback c = false)
         (created_connectors k 0 (res_connectors res))
  /\ writeback_connectors_ (snd (Init k path n d))
     = writeback_connectors_ d
       ++ filter (fun c => DrmConnector.IsWriteback c = true)
            (created_connectors k 0 (res_connectors res)).
Proof.
  intros Hn Hr.
  destruct (Init_negotiate_frame k path d) as [R _]. unfold resources in R.
  assert (Hen : forall d2,
    Init_enumerate k (emit EvGetResources (snd (Init_negotiate k path d)))
    = Some d2 ->
    connectors_ (fst (Init_add_displays (d2, n)))
    = connectors_ d
      ++ filter (fun c => DrmConnector.IsWriteback c = false)
           (created_connectors k 0 (res_connectors res))
    /\ writeback_connectors_ (fst (Init_add_displays (d2, n)))
       = writeback_connectors_ d
         ++ filter (fun c => DrmConnector.IsWriteback c = true)
              (created_connectors k 0 (res_connectors res))).
  { intros d2 En.
    destruct (Init_enumerate_keeps _ _ _ En) as (_ & _ & _ & res' & Hr' & Ec & Ew).
    assert (res' = res) as -> by congruence.
    pose proof (Init_add_displays_frame (d2, n)) as F.
    unfold kept_by_add_displays, resources in F. simpl in *.
    split; congruence. }
  destruct (Init_run k path n d)
    as [(err & ? & _)|[(_ & ? & _)|[(d2 & _ & En & _ & _ & E)
       |(d2 & pr & _ & En & _ & E)]]]; try congruence.
  - rewrite E. simpl. auto.
  - rewrite Init_final_device, E.
    match goal with |- context [Init_pipes 0 ?c 0 ?d4] =>
      destruct (Init_pipes_keeps 0 c 0 d4) as (K & _)
    end.
    match type of K with context [Init_planes k pr ?d3] =>
      pose proof (Init_planes_frame k pr d3) as P
    end.
    unfold kept_by_pipes, resources in K. unfold kept_by_catalog in P.
    simpl in P. destruct (Hen d2 En) as [Hc Hw].
    split; congruence.
Qed.


(** The display ids of a device that [Init] leaves are those its allocation
    step made, over the connectors the enumeration built. *)
Lemma Init_allocation k path n d d2 :
  negotiation_fatal_spec k path = None ->
  Init_enumerate k (emit EvGetResources (snd (Init_negotiate k path d)))
  = Some d2 ->
  connectors_ (snd (Init k path n d)) = connectors_ d2
  /\ bound_connectors_ (snd (Init k path n d))
     = bound_connectors_ (fst (Init_add_displays (d2, n)))
  /\ connectors_to_display_id_ (snd (Init k path n d))
     = connectors_to_display_id_ (fst (Init_add_displays (d2, n))).
Proof.
  intros Hn En.
  pose proof (Init_add_displays_frame (d2, n)) as F.
  unfold kept_by_add_displays, resources in F. simpl in F.
  destruct (Init_enumerate_keeps _ _ _ En) as (_ & _ & _ & res & Hr & _).
  destruct (Init_run k path n d)
    as [(err & ? & _)|[(_ & ? & _)|[(d2' & _ & En' & _ & _ & E)
       |(d2' & pr & _ & En' & _ & E)]]]; try congruence.
  - assert (d2' = d2) as -> by congruence. rewrite E. simpl.
    split; [congruence|done].
  - assert (d2' = d2) as -> by congruence. rewrite Init_final_device, E.
    match goal with |- context [Init_pipes 0 ?c 0 ?d4] =>
      destruct (Init_pipes_keeps 0 c 0 d4) as (K & _)
    end.
    match type of K with context [Init_planes k pr ?d3] =>
      pose proof (Init_planes_frame k pr d3) as P
    end.
    unfold kept_by_pipes, resources in K.
    unfold kept_by_catalog, bindings in P. simpl in P.
    repeat split; congruence.
Qed.

(** C3: display ids are handed out one after the other from the starting id,
    to the connectors of the four classes internal+connected,
    external+connected, internal+disconnected, external+disconnected, in this
    order and in enumeration order inside a class; so when an internal
    connected connector exists, the starting id is bound to one.  The maps
    of the device that [Init] leaves are those of this allocation. *)
Theorem display_ids_follow_priority_order (d : DrmDevice) (n : Z) :
  Init_add_displays (d, n) = assign_ids (display_order (connectors_ d)) (d, n)
  /\ snd (Init_add_displays (d, n))
     = n + Z.of_nat (length (display_order (connectors_ d)))
  /\ (forall i p, display_order (connectors_ d) !! i = Some p ->
        bound_connectors_ (fst (Init_add_displays (d, n))) !! (n + Z.of_nat i)
        = Some p)
  /\ (forall i p, display_order (connectors_ d) !! i = Some p ->
        (forall j, (i < j)%nat -> display_order (connectors_ d) !! j <> Some p) ->
        connectors_to_display_id_ (fst (Init_add_displays (d, n))) !! p
        = Some (n + Z.of_nat i))
  /\ (forall c, c ∈ connectors_ d ->
        DrmConnector.IsInternal c = true ->
        DrmConnector.IsConnected c = true ->
        exists p c',
          bound_connectors_ (fst (Init_add_displays (d, n))) !! n = Some p
          /\ connectors_ d !! p = Some c'
          /\ DrmConnector.IsInternal c' = true
          /\ DrmConnector.IsConnected c' = true)
  /\ (forall k path d0,
        negotiation_fatal_spec k path = None ->
        Init_enumerate k (emit EvGetResources (snd (Init_negotiate k path d0)))
        = Some d ->
        connectors_ (snd (Init k path n d0)) = connectors_ d
        /\ bound_connectors_ (snd (Init k path n d0))
           = bound_connectors_ (fst (Init_add_displays (d, n)))
        /\ connectors_to_display_id_ (snd (Init k path n d0))
           = connectors_to_display_id_ (fst (Init_add_displays (d, n)))).
Proof.
  split; [|split; [|split; [|split; [|split]]]];
    [apply Init_add_displays_refines|..|by intros; apply Init_allocation].
  all: rewrite Init_add_displays_refines;
    destruct (assign_ids_lookup (display_order (connectors_ d)) d n)
      as (Hn & Hl & _ & Hc & _); try done.
  intros c Hin Hi Hco.
  destruct (select_nonempty (in_class true true) 0 (connectors_ d) c)
    as [p Hp]; [done|by unfold in_class; rewrite Hi, Hco|].
  destruct (select_lookup _ _ _ _ _ Hp) as (_ & c' & Hc' & Hf).
  rewrite Nat.sub_0_r in Hc'. unfold in_class in Hf.
  apply andb_prop in Hf as [??].
  exists p, c'. split; [|done].
  specialize (Hl 0%nat p). rewrite Z.add_0_r in Hl. apply Hl.
  unfold display_order. apply lookup_app_l_Some. done.
Qed.



(** C10: after [Init] on a new device, whatever the kernel answered to the
    writeback capability, the connectors that are writeback are in
    [writeback_connectors_] and the others in [connectors_]; every connector
    pointer in the binding maps is a position of [connectors_], so not a
    writeback connector; and every display with a CRTC or an encoder is bound
    to such a connector. *)
Theorem writeback_connectors_never_bound k path n :
  (forall c, c ∈ writeback_connectors_ (snd (Init k path n DrmDevice_new)) ->
     DrmConnector.IsWriteback c = true)
  /\ (forall c, c ∈ connectors_ (snd (Init k path n DrmDevice_new)) ->
        DrmConnector.IsWriteback c = false)
  /\ (forall res,
        negotiation_fatal_spec k path = None ->
        k_MakeDrmModeResUnique k = Some res ->
        connectors_ (snd (Init k path n DrmDevice_new))
        = filter (fun c => DrmConnector.IsWriteback c = false)
            (created_connectors k 0 (res_connectors res))
        /\ writeback_connectors_ (snd (Init k path n DrmDevice_new))
           = filter (fun c => DrmConnector.IsWriteback c = true)
               (created_connectors k 0 (res_connectors res)))
  /\ (forall display p,
        bound_connectors_ (snd (Init k path n DrmDevice_new)) !! display
        = Some p ->
        exists c, connectors_ (snd (Init k path n DrmDevice_new)) !! p = Some c
                  /\ DrmConnector.IsWriteback c = false)
  /\ (forall p display,
        connectors_to_display_id_ (snd (Init k path n DrmDevice_new)) !! p
        = Some display ->
        exists c, connectors_ (snd (Init k path n DrmDevice_new)) !! p = Some c
                  /\ DrmConnector.IsWriteback c = false)
  /\ (forall display,
        is_Some (bound_crtcs_ (snd (Init k path n DrmDevice_new)) !! display)
        \/ (exists e,
              encoders_to_display_id_ (snd (Init k path n DrmDevice_new)) !! e
              = Some display) ->
        exists p c,
          bound_connectors_ (snd (Init k path n DrmDevice_new)) !! display
          = Some p
          /\ connectors_ (snd (Init k path n DrmDevice_new)) !! p = Some c
          /\ DrmConnector.IsWriteback c = false).
Proof.
  destruct (Init_wf k path n DrmDevice_new DrmDevice_new_wf)
    as [(C1 & C2 & C3 & C4) (D1 & D2 & D3)].
  assert (Hpos : forall p,
    (p < length (connectors_ (snd (Init k path n DrmDevice_new))))%nat ->
    exists c, connectors_ (snd (Init k path n DrmDevice_new)) !! p = Some c
              /\ DrmConnector.IsWriteback c = false).
  { intros p Hp. destruct (lookup_lt_is_Some_2 _ _ Hp) as [c Hc].
    exists c. split; [done|]. apply C1. by eapply list_elem_of_lookup_2. }
  split; [done|]. split; [done|]. split; [|split; [|split]].
  - intros res Hn Hr. apply (Init_collections k path n DrmDevice_new res Hn Hr).
  - intros display p Hb. eauto.
  - intros p display Hb. eauto.
  - intros display Hd.
    assert (Hs : is_Some
      (bound_connectors_ (snd (Init k path n DrmDevice_new)) !! display)).
    { destruct Hd as [Hd|[e He]]; eauto. }
    destruct Hs as [p Hp]. destruct (Hpos p) as (c & ? & ?); eauto.
Qed.

(** ** A connector without a pipeline *)

(** C2, as the code has it: when the loop reaches a connector for which
    [CreateDisplayPipe] finds no encoder/CRTC pair, [Init] returns -ENODEV
    with display count 0.  The device is not rolled back: its binding maps
    are those reached before the failing connector, with every display id
    that was allocated. *)
Theorem unassignable_connector_fails_Init
    k path n d ret d0 pre conn post r dp :
  Init_prepare k path n d = (inr ret, d0) ->
  connectors_ d0 = pre ++ conn :: post ->
  Init_pipes 0 pre ret d0 = (Normal (inr r), dp) ->
  fst (CreateDisplayPipe (length pre) conn dp) = Normal (- ENODEV) ->
  fst (Init k path n d) = Normal (- ENODEV, 0)
  /\ bindings (snd (Init k path n d)) = bindings dp
  /\ bound_connectors_ (snd (Init k path n d)) = bound_connectors_ d0
  /\ connectors_to_display_id_ (snd (Init k path n d))
     = connectors_to_display_id_ d0.
Proof.
  intros Hp Hc Hpre Hfail.
  destruct (Init_pipes_keeps 0 pre ret d0) as (K & _).
  rewrite Hpre in K. unfold kept_by_pipes in K. simpl in K.
  rewrite Init_unfold, Hp, Hc, Init_pipes_app, Hpre. simpl.
  destruct (CreateDisplayPipe_cases (length pre) conn dp)
    as [[_ E]|[(disp & _ & E)|(disp & e & crtc & _ & _ & _ & _ & _ & E)]];
    rewrite E in Hfail |- *; simpl in *; try discriminate.
  repeat split; congruence.
Qed.

Lemma unassignable_connector_fails_Init_witness :
  fst (Init second_output_unassignable "/dev/dri/card0" 0 DrmDevice_new)
  = Normal (- ENODEV, 0)
  /\ bindings
       (snd (Init second_output_unassignable "/dev/dri/card0" 0 DrmDevice_new))
     = bindings
         (snd (Init_pipes 0
                 [DrmConnector.Build 51 0 true true false false 0 [41]] 0
                 (snd (Init_prepare second_output_unassignable
                         "/dev/dri/card0" 0 DrmDevice_new))))
  /\ bound_connectors_
       (snd (Init second_output_unassignable "/dev/dri/card0" 0 DrmDevice_new))
     = bound_connectors_
         (snd (Init_prepare second_output_unassignable
                 "/dev/dri/card0" 0 DrmDevice_new))
  /\ connectors_to_display_id_
       (snd (Init second_output_unassignable "/dev/dri/card0" 0 DrmDevice_new))
     = connectors_to_display_id_
         (snd (Init_prepare second_output_unassignable
                 "/dev/dri/card0" 0 DrmDevice_new)).
Proof.
  apply (unassignable_connector_fails_Init
           second_output_unassignable "/dev/dri/card0" 0 DrmDevice_new 0
           (snd (Init_prepare second_output_unassignable
                   "/dev/dri/card0" 0 DrmDevice_new))
           [DrmConnector.Build 51 0 true true false false 0 [41]]
           (DrmConnector.Build 52 1 true false true false 0 [])
           [] 0);
    vm_compute; reflexivity.
Defined.

(** C2, the claim as stated fails: on a device whose second connector
    supports no encoder, [CreateDisplayPipe] exhausts the candidates for it
    and [Init] returns -ENODEV with count 0, yet the device still handles
    displays 0 and 1 and answers with the connector and the CRTC bound to
    display 0. *)
Lemma failed_Init_leaves_bindings :
  fst (CreateDisplayPipe 1
         (DrmConnector.Build 52 1 true false true false 0 [])
         (snd (Init_pipes 0
                 [DrmConnector.Build 51 0 true true false false 0 [41]] 0
                 (snd (Init_prepare second_output_unassignable
                         "/dev/dri/card0" 0 DrmDevice_new)))))
  = Normal (- ENODEV)
  /\ fst (Init second_output_unassignable "/dev/dri/card0" 0 DrmDevice_new)
     = Normal (- ENODEV, 0)
  /\ HandlesDisplay 0
       (snd (Init second_output_unassignable "/dev/dri/card0" 0 DrmDevice_new))
     = true
  /\ HandlesDisplay 1
       (snd (Init second_output_unassignable "/dev/dri/card0" 0 DrmDevice_new))
     = true
  /\ GetConnectorForDisplay 0
       (snd (Init second_output_unassignable "/dev/dri/card0" 0 DrmDevice_new))
     = Normal 0%nat
  /\ GetCrtcForDisplay 0
       (snd (Init second_output_unassignable "/dev/dri/card0" 0 DrmDevice_new))
     = Normal 0%nat.
Proof. vm_compute. repeat split; reflexivity. Qed.

(** ** One CRTC for two displays *)

(** C1 fails on the code: with one CRTC, two encoders that can drive it and
    two connected connectors, [Init] succeeds with two displays and binds the
    same CRTC to both.  The test [bound_crtcs_.count(display) == 0] of
    [TryEncoderForDisplay] asks whether the display has a CRTC, not whether
    the CRTC has a display. *)
Theorem one_crtc_bound_to_two_displays :
  fst (Init one_crtc_two_outputs "/dev/dri/card0" 0 DrmDevice_new)
  = Normal (0, 2)
  /\ length (crtcs_ (snd (Init one_crtc_two_outputs "/dev/dri/card0" 0
                            DrmDevice_new))) = 1%nat
  /\ GetCrtcForDisplay 0
       (snd (Init one_crtc_two_outputs "/dev/dri/card0" 0 DrmDevice_new))
     = Normal 0%nat
  /\ GetCrtcForDisplay 1
       (snd (Init one_crtc_two_outputs "/dev/dri/card0" 0 DrmDevice_new))
     = Normal 0%nat
  /\ GetConnectorForDisplay 0
       (snd (Init one_crtc_two_outputs "/dev/dri/card0" 0 DrmDevice_new))
     = Normal 0%nat
  /\ GetConnectorForDisplay 1
       (snd (Init one_crtc_two_outputs "/dev/dri/card0" 0 DrmDevice_new))
     = Normal 1%nat
  /\ encoders_to_display_id_
       (snd (Init one_crtc_two_outputs "/dev/dri/card0" 0 DrmDevice_new))
       !! 0%nat = Some 0
  /\ encoders_to_display_id_
       (snd (Init one_crtc_two_outputs "/dev/dri/card0" 0 DrmDevice_new))
       !! 1%nat = Some 1
  /\ bound_encoders_
       (snd (Init one_crtc_two_outputs "/dev/dri/card0" 0 DrmDevice_new))
       !! 0%nat = Some 1%nat.
Proof. vm_compute. repeat split; reflexivity. Qed.

(** ** Property lookup *)




(** A match is a property of the set with the requested name, and no
    earlier property has that name. *)
Lemma first_match_Some k nm props p v :
  first_match k nm props = Some (p, v) ->
  exists i id,
    props !! i = Some (id, v)
    /\ k_drmModeGetProperty k id = Some p
    /\ name p = nm.
Proof.
  induction props as [|[id v'] rest IH]; simpl; [done|].
  assert (Hrest : first_match k nm rest = Some (p, v) ->
    exists i id0, ((id, v') :: rest) !! i = Some (id0, v)
      /\ k_drmModeGetProperty k id0 = Some p /\ name p = nm).
  { intros (i & id0 & H)%IH. by exists (S i), id0. }
  destruct (k_drmModeGetProperty k id) as [q|] eqn:Hq; [|done].
  destruct (String.eqb (name q) nm) eqn:Hn; [|done].
  intros [= -> ->]. exists 0%nat, id. by apply String.eqb_eq in Hn.
Qed.






(** C7, the loop at work on a property without descriptor: object 51 lists
    the ids 2 and 20, [drmModeGetProperty] gives no descriptor for id 2 and
    the descriptor named CRTC_ID for id 20.  The name CRTC_ID is present
    exactly once, and the specification returns its descriptor with the
    value 31; the name GAMMA_LUT is absent, and the specification returns
    -ENOENT.  [GetProperty] returns neither: it dereferences the missing
    descriptor of id 2 (line 296), where the property set itself is checked
    against NULL (line 287). *)
Theorem GetProperty_faults_on_missing_descriptor :
  k_drmModeObjectGetProperties kernel_with_missing_descriptor 51 0
  = Some [(2, 0); (20, 31)]
  /\ k_drmModeGetProperty kernel_with_missing_descriptor 2 = None
  /\ k_drmModeGetProperty kernel_with_missing_descriptor 20
     = Some {| prop_id := 20; flags := 64; name := "CRTC_ID" |}
  /\ GetProperty_spec kernel_with_missing_descriptor 51 0 "CRTC_ID"
       {| property_obj_id := 0; property_desc := None; property_value := 0 |}
     = (0, DrmProperty_Init 51
             {| prop_id := 20; flags := 64; name := "CRTC_ID" |} 31)
  /\ fst (GetProperty kernel_with_missing_descriptor 51 0 "CRTC_ID"
            {| property_obj_id := 0; property_desc := None;
               property_value := 0 |} DrmDevice_new)
     = Throws null_dereference
  /\ GetProperty_spec kernel_with_missing_descriptor 51 0 "GAMMA_LUT"
       {| property_obj_id := 0; property_desc := None; property_value := 0 |}
     = (- ENOENT,
        {| property_obj_id := 0; property_desc := None; property_value := 0 |})
  /\ fst (GetProperty kernel_with_missing_descriptor 51 0 "GAMMA_LUT"
            {| property_obj_id := 0; property_desc := None;
               property_value := 0 |} DrmDevice_new)
     = Throws null_dereference.
Proof. vm_compute. repeat split; reflexivity. Qed.

(** ** Property blobs *)

(** The deleter adds one destroy call to the history and, when the call
    fails, a log line. *)
Lemma blob_deleter_trace k id d :
  trace_ (blob_deleter k id d)
  = trace_ d ++ EvDestroyPropBlob id
      :: (if k_destroy_blob k id =? 0 then []
          else [EvLog ALOGE "Failed to destroy mode property blob"]).
Proof.
  unfold blob_deleter.
  destruct (k_destroy_blob k id =? 0); simpl; [done|].
  by rewrite <- app_assoc.
Qed.

(** The uses the owning scope makes of a handle leave it as it was, or empty
    after the deleter ran once. *)
Lemma uses_release_at_most_once k uses h d :
  foldl (fun st u => use_handle k u st) (h, d) uses = (h, d)
  \/ exists id,
       h = Some id
       /\ foldl (fun st u => use_handle k u st) (h, d) uses
          = (None, blob_deleter k id d).
Proof.
  revert h d. induction uses as [|u rest IH]; intros h d; simpl; [by left|].
  destruct u; simpl; [apply IH|].
  destruct h as [id|]; simpl; [|apply IH].
  right. exists id. split; [done|].
  by destruct (IH None (blob_deleter k id d)) as [E|(id' & ? & _)].
Qed.

(** Whatever the owning scope did with the handle and however it was left,
    the deleter ran once after a creation that succeeded, and never after one
    that failed. *)
Lemma owning_scope_result k data uses exit d :
  owning_scope k data uses exit d
  = match RegisterUserPropertyBlob k data d with
    | (Some id, d1) => (None, blob_deleter k id d1)
    | (None, d1) => (None, d1)
    end.
Proof.
  unfold owning_scope.
  destruct (RegisterUserPropertyBlob k data d) as [h d1].
  destruct (uses_release_at_most_once k (uses_made uses exit) h d1)
    as [->|(id & -> & ->)]; simpl; [by destruct h|done].
Qed.

(** C8: a creation that succeeds returns a handle that owns the blob id; the
    release of the handle issues one DESTROYPROPBLOB call for that id and
    nothing else but, when the call fails, a log line; it returns no error
    and leaves an empty handle, whose release does nothing.  In the scope
    that owns the handle, whatever the scope does with it (reading the id,
    letting go of the blob early, any number of times) and on each way out
    (normal drop, early return, propagated failure, after any number of
    uses), the kernel sees the creation and then exactly one destroy call,
    for that blob.  A creation that fails returns the empty handle, and its
    owning scope issues no destroy call. *)
Theorem blob_destroyed_exactly_once k data d :
  match RegisterUserPropertyBlob k data d with
  | (Some id, d1) =>
      k_create_blob k data = (0, id)
      /\ (forall d2,
            fst (blob_release k (Some id) d2) = None
            /\ kernel_calls (new_trace d2 (snd (blob_release k (Some id) d2)))
               = [EvDestroyPropBlob id]
            /\ destroy_calls (new_trace d2 (snd (blob_release k (Some id) d2)))
               = [id]
            /\ new_trace d2 (snd (blob_release k (Some id) d2))
               = EvDestroyPropBlob id
                 :: (if k_destroy_blob k id =? 0 then []
                     else [EvLog ALOGE "Failed to destroy mode property blob"])
            /\ resources (snd (blob_release k (Some id) d2)) = resources d2
            /\ bindings (snd (blob_release k (Some id) d2)) = bindings d2)
      /\ (forall uses exit,
            fst (owning_scope k data uses exit d) = None
            /\ destroy_calls
                 (new_trace d (snd (owning_scope k data uses exit d)))
               = [id]
            /\ kernel_calls
                 (new_trace d (snd (owning_scope k data uses exit d)))
               = [EvCreatePropBlob data; EvDestroyPropBlob id]
            /\ new_trace d (snd (owning_scope k data uses exit d))
               = EvCreatePropBlob data :: EvDestroyPropBlob id
                 :: (if k_destroy_blob k id =? 0 then []
                     else [EvLog ALOGE "Failed to destroy mode property blob"]))
  | (None, d1) =>
      fst (k_create_blob k data) <> 0
      /\ (forall d2, blob_release k None d2 = (None, d2))
      /\ (forall uses exit,
            owning_scope k data uses exit d = (None, d1)
            /\ destroy_calls
                 (new_trace d (snd (owning_scope k data uses exit d)))
               = []
            /\ kernel_calls
                 (new_trace d (snd (owning_scope k data uses exit d)))
               = [EvCreatePropBlob data])
  end
  /\ (forall h d2 d3,
        blob_release k (fst (blob_release k h d2)) d3 = (None, d3)).
Proof.
  split; [|by intros [id|] d2 d3].
  pose proof (owning_scope_result k data) as Hscope.
  unfold RegisterUserPropertyBlob in *.
  destruct (k_create_blob k data) as [ret id] eqn:E.
  destruct (ret =? 0) eqn:R; simpl in *.
  - apply Z.eqb_eq in R as ->. split; [done|]. split.
    + intros d2. unfold new_trace. rewrite blob_deleter_trace, drop_app_length.
      split; [done|].
      unfold blob_deleter. destruct (k_destroy_blob k id =? 0); done.
    + intros uses exit. rewrite Hscope. simpl. split; [done|].
      unfold new_trace. rewrite blob_deleter_trace. simpl.
      rewrite <- app_assoc, drop_app_length. simpl.
      by destruct (k_destroy_blob k id =? 0).
  - apply Z.eqb_neq in R. split; [done|]. split; [done|].
    intros uses exit. rewrite Hscope. simpl. split; [done|].
    unfold new_trace. simpl. by rewrite <- app_assoc, drop_app_length.
Qed.

(** ** The CRTC test of [TryEncoderForDisplay] during [Init] *)

Lemma assign_ids_distinct l d n :
  (forall p display, connectors_to_display_id_ d !! p = Some display ->
     display < n) ->
  display_ids_distinct d ->
  display_ids_distinct (fst (assign_ids l (d, n))).
Proof.
  revert d n. induction l as [|q rest IH]; intros d n Hlt Hinj; simpl; [done|].
  apply IH; simpl.
  - intros p display. destruct (decide (q = p)) as [<-|Hne].
    + rewrite lookup_insert_eq. intros [= <-]. lia.
    + rewrite lookup_insert_ne by done. intros Hp%Hlt. lia.
  - unfold display_ids_distinct. simpl. intros q1 q2 display.
    destruct (decide (q = q1)) as [<-|H1], (decide (q = q2)) as [<-|H2];
      rewrite ?lookup_insert_eq, ?lookup_insert_ne by done; try done.
    + intros [= <-] Hp%Hlt. lia.
    + intros Hp%Hlt [= <-]. lia.
    + apply Hinj.
Qed.

(** A new device reaches the loop over the connectors with no CRTC bound and
    with distinct display ids. *)
Lemma Init_prepare_new k path n ret d0 :
  Init_prepare k path n DrmDevice_new = (inr ret, d0) ->
  bound_crtcs_ d0 = ∅ /\ display_ids_distinct d0.
Proof.
  intros Hp.
  destruct (Init_run k path n DrmDevice_new)
    as [(err & _ & E & _)|[(_ & _ & E & _)|[(d2 & _ & _ & _ & E & _)
       |(d2 & pr & _ & En & _ & E)]]]; try congruence.
  rewrite E in Hp. injection Hp as _ <-.
  destruct (Init_enumerate_keeps _ _ _ En) as (Hb & _).
  destruct (Init_negotiate_frame k path DrmDevice_new) as [_ Hb0].
  pose proof (Init_add_displays_frame (d2, n)) as F.
  match goal with |- context [Init_planes k pr ?d3] =>
    pose proof (Init_planes_frame k pr d3) as P
  end.
  unfold kept_by_add_displays in F. unfold kept_by_catalog in P.
  unfold bindings in *. simpl in *.
  assert (Hc : bound_crtcs_ d2 = ∅) by congruence.
  assert (Hd : connectors_to_display_id_ d2 = ∅) by congruence.
  split; [congruence|].
  assert (Hinj : display_ids_distinct (fst (Init_add_displays (d2, n)))).
  { rewrite Init_add_displays_refines. apply assign_ids_distinct.
    - intros p display. by rewrite Hd, lookup_empty.
    - intros q1 q2 display. by rewrite Hd, lookup_empty. }
  unfold display_ids_distinct in *.
  replace (connectors_to_display_id_ (Init_planes k pr _))
    with (connectors_to_display_id_ (fst (Init_add_displays (d2, n))))
    by congruence.
  done.
Qed.

Lemma Init_pipes_earlier p pre ret d r dp :
  Init_pipes p pre ret d = (Normal (inr r), dp) ->
  crtcs_of_earlier p d -> crtcs_of_earlier (p + length pre) dp.
Proof.
  revert p ret d. induction pre as [|conn rest IH]; intros p ret d; simpl.
  - intros [= _ <-]. by rewrite Nat.add_0_r.
  - intros Hrun Hearlier.
    replace (p + S (length rest))%nat with (S p + length rest)%nat by lia.
    destruct (CreateDisplayPipe_cases p conn d)
      as [[_ E]|[(disp & _ & E)|(disp & e & crtc & Hc & _ & _ & _ & _ & E)]];
      rewrite E in Hrun; simpl in Hrun; try discriminate.
    apply (IH _ _ _ Hrun). intros display; simpl.
    destruct (decide (disp = display)) as [<-|Hne].
    + intros _. exists p. split; [lia|done].
    + rewrite lookup_insert_ne by done.
      intros (q & Hq & Hd)%Hearlier. exists q. split; [lia|done].
Qed.

(** X1: during [Init] on a new device the display of the connector at hand
    never has a CRTC, so the test [bound_crtcs_.count(display) == 0] of
    [TryEncoderForDisplay] always passes there: the CRTC chosen for an
    encoder is its current CRTC when that exists, else the first CRTC it
    accepts, whichever CRTCs other displays hold. *)
Theorem crtc_test_always_passes
    k path n ret d0 pre conn post r dp display :
  Init_prepare k path n DrmDevice_new = (inr ret, d0) ->
  connectors_ d0 = pre ++ conn :: post ->
  Init_pipes 0 pre ret d0 = (Normal (inr r), dp) ->
  connectors_to_display_id_ dp !! length pre = Some display ->
  bound_crtcs_ dp !! display = None
  /\ forall encp enc,
       TryEncoderForDisplay display encp enc dp
       = match FindCrtcById (DrmEncoder.GetCurrentCrtcId enc) dp with
         | Some (crtc, _) => (0, bind_crtc display crtc encp dp)
         | None =>
             match find_from (acceptable_crtc enc) 0 (crtcs_ dp) with
             | Some (crtc, _) => (0, bind_crtc display crtc encp dp)
             | None => (- EAGAIN, dp)
             end
         end.
Proof.
  intros Hp Hc Hpre Hd.
  destruct (Init_prepare_new _ _ _ _ _ Hp) as [Hempty Hinj].
  destruct (Init_pipes_keeps 0 pre ret d0) as (K & _).
  rewrite Hpre in K. unfold kept_by_pipes in K. simpl in K.
  assert (Hnone : bound_crtcs_ dp !! display = None).
  { destruct (bound_crtcs_ dp !! display) as [c|] eqn:Hb; [|done].
    destruct (Init_pipes_earlier 0 pre ret d0 r dp Hpre) with display
      as (q & Hq & Hq').
    - intros disp. rewrite Hempty, lookup_empty. by intros [? ?].
    - by eexists.
    - simpl in Hq. unfold display_ids_distinct in Hinj.
      replace (connectors_to_display_id_ d0)
        with (connectors_to_display_id_ dp) in Hinj by congruence.
      specialize (Hinj _ _ _ Hq' Hd). lia. }
  split; [done|]. intros encp enc.
  rewrite TryEncoderForDisplay_refines. unfold TryEncoderForDisplay_spec.
  by rewrite Hnone.
Qed.

Lemma crtc_test_always_passes_witness :
  bound_crtcs_
    (snd (Init_pipes 0 [DrmConnector.Build 51 0 true true false false 0 [41]]
            0 (snd (Init_prepare one_crtc_two_outputs "/dev/dri/card0" 0
                      DrmDevice_new)))) !! 1 = None.
Proof.
  apply (crtc_test_always_passes
           one_crtc_two_outputs "/dev/dri/card0" 0 0
           (snd (Init_prepare one_crtc_two_outputs "/dev/dri/card0" 0
                   DrmDevice_new))
           [DrmConnector.Build 51 0 true true false false 0 [41]]
           (DrmConnector.Build 52 1 true false true false 0 [42])
           [] 0
           (snd (Init_pipes 0
                   [DrmConnector.Build 51 0 true true false false 0 [41]] 0
                   (snd (Init_prepare one_crtc_two_outputs "/dev/dri/card0" 0
                           DrmDevice_new))))
           1);
    vm_compute; reflexivity.
Defined.

(** ** The current configuration is preferred *)

(** X2: when the current encoder of a connector exists and is unclaimed, and
    the current CRTC of that encoder exists, [CreateDisplayPipe] binds exactly
    this pair to the display of the connector, provided the display has no
    CRTC yet. *)
Theorem current_pair_is_kept
    connp conn d display enc0p enc0 crtcp crtc :
  connectors_to_display_id_ d !! connp = Some display ->
  bound_crtcs_ d !! display = None ->
  FindEncoderById (DrmConnector.GetCurrentEncoderId conn) d
  = Some (enc0p, enc0) ->
  encoders_to_display_id_ d !! enc0p = None ->
  FindCrtcById (DrmEncoder.GetCurrentCrtcId enc0) d = Some (crtcp, crtc) ->
  CreateDisplayPipe connp conn d
  = (Normal 0, claim_encoder enc0p display (bind_crtc display crtcp enc0p d)).
Proof.
  intros Hc Hb He Hu Hf.
  rewrite CreateDisplayPipe_refines. unfold CreateDisplayPipe_spec.
  rewrite Hc, He, Hu. unfold TryEncoderForDisplay_spec. by rewrite Hb, Hf.
Qed.

Lemma current_pair_is_kept_witness :
  CreateDisplayPipe 0 (DrmConnector.Build 51 0 true true false false 41 [41])
    (snd (Init_prepare scenario_A "/dev/dri/card0" 0 DrmDevice_new))
  = (Normal 0,
     claim_encoder 0 0
       (bind_crtc 0 0 0
          (snd (Init_prepare scenario_A "/dev/dri/card0" 0 DrmDevice_new)))).
Proof.
  apply (current_pair_is_kept 0
           (DrmConnector.Build 51 0 true true false false 41 [41])
           (snd (Init_prepare scenario_A "/dev/dri/card0" 0 DrmDevice_new))
           0 0 (DrmEncoder.Build 41 0 31 1) 0 (DrmCrtc.Build 31 0));
    vm_compute; reflexivity.
Defined.

(** Scenario A of the specification: display 0 is the internal connector
    with its current encoder and that encoder's current CRTC, display 1 is
    the external connector with the second encoder and the second CRTC, found
    by the scans. *)
Theorem scenario_A_pipelines :
  fst (Init scenario_A "/dev/dri/card0" 0 DrmDevice_new) = Normal (0, 2)
  /\ GetConnectorForDisplay 0
       (snd (Init scenario_A "/dev/dri/card0" 0 DrmDevice_new)) = Normal 0%nat
  /\ GetCrtcForDisplay 0
       (snd (Init scenario_A "/dev/dri/card0" 0 DrmDevice_new)) = Normal 0%nat
  /\ encoders_to_display_id_
       (snd (Init scenario_A "/dev/dri/card0" 0 DrmDevice_new)) !! 0%nat
     = Some 0
  /\ GetConnectorForDisplay 1
       (snd (Init scenario_A "/dev/dri/card0" 0 DrmDevice_new)) = Normal 1%nat
  /\ GetCrtcForDisplay 1
       (snd (Init scenario_A "/dev/dri/card0" 0 DrmDevice_new)) = Normal 1%nat
  /\ encoders_to_display_id_
       (snd (Init scenario_A "/dev/dri/card0" 0 DrmDevice_new)) !! 1%nat
     = Some 1
  /\ bound_encoders_
       (snd (Init scenario_A "/dev/dri/card0" 0 DrmDevice_new)) !! 0%nat
     = Some 0%nat
  /\ bound_encoders_
       (snd (Init scenario_A "/dev/dri/card0" 0 DrmDevice_new)) !! 1%nat
     = Some 1%nat.
Proof. vm_compute. repeat split; reflexivity. Qed.

(** ** One display per connector *)

Lemma select_elem f p conns q :
  q ∈ select f p conns ->
  (p <= q)%nat /\ exists c, conns !! (q - p)%nat = Some c /\ f c = true.
Proof. intros [i Hi]%list_elem_of_lookup. by eapply select_lookup. Qed.

Lemma select_NoDup f p conns : NoDup (select f p conns).
Proof.
  revert p. induction conns as [|c rest IH]; intros p; simpl;
    [apply NoDup_nil_2|].
  destruct (f c); [|apply IH]. apply NoDup_cons. split; [|apply IH].
  intros [Hle _]%select_elem. lia.
Qed.

Lemma classes_disjoint conns a b a' b' q :
  classified_once conns ->
  (a, b) <> (a', b') ->
  q ∈ select (in_class a b) 0 conns ->
  q ∉ select (in_class a' b') 0 conns.
Proof.
  intros Hcl Hne (_ & c & Hc & Hf)%select_elem (_ & c' & Hc' & Hf')%select_elem.
  assert (c' = c) as -> by congruence.
  assert (Hin : c ∈ conns) by (by eapply list_elem_of_lookup_2).
  specialize (Hcl c Hin). unfold in_class in *.
  destruct a, b, a', b', (DrmConnector.IsInternal c),
    (DrmConnector.IsExternal c), (DrmConnector.IsConnected c);
    simpl in *; congruence.
Qed.

Lemma display_order_NoDup conns :
  classified_once conns -> NoDup (display_order conns).
Proof.
  intros Hcl. unfold display_order.
  assert (Hdis : forall a b a' b' q,
    (a, b) <> (a', b') ->
    q ∈ select (in_class a b) 0 conns ->
    q ∉ select (in_class a' b') 0 conns).
  { intros a b a' b' q Hne. by apply classes_disjoint. }
  apply NoDup_app. split; [apply select_NoDup|]. split.
  { intros q Hq. rewrite !not_elem_of_app.
    repeat split; by apply (Hdis true true). }
  apply NoDup_app. split; [apply select_NoDup|]. split.
  { intros q Hq. rewrite !not_elem_of_app.
    repeat split; by apply (Hdis false true). }
  apply NoDup_app. split; [apply select_NoDup|]. split.
  { intros q Hq. by apply (Hdis true false). }
  apply select_NoDup.
Qed.

(** On empty maps, ids handed out over distinct connectors make the two
    connector maps inverse of each other. *)
Lemma assign_ids_inverse l d n :
  bound_connectors_ d = ∅ ->
  NoDup l ->
  forall display p,
    bound_connectors_ (fst (assign_ids l (d, n))) !! display = Some p ->
    connectors_to_display_id_ (fst (assign_ids l (d, n))) !! p = Some display.
Proof.
  intros Hempty Hnd display p Hb.
  destruct (assign_ids_lookup l d n) as (_ & Hl & Ho & Hc & _).
  destruct (decide (n <= display < n + Z.of_nat (length l))) as [Hin|Hout].
  - destruct (lookup_lt_is_Some_2 l (Z.to_nat (display - n))) as [p' Hp'];
      [lia|].
    pose proof (Hl _ _ Hp') as Hb'.
    replace (n + Z.of_nat (Z.to_nat (display - n))) with display in Hb' by lia.
    assert (p' = p) as -> by congruence.
    replace display with (n + Z.of_nat (Z.to_nat (display - n))) at 1 by lia.
    apply Hc; [done|]. intros j Hj Hp.
    pose proof (NoDup_lookup _ _ _ _ Hnd Hp' Hp). lia.
  - rewrite Ho, Hempty, lookup_empty in Hb by lia. done.
Qed.

(** X4: when no connector is both internal and external, [Init] on a new
    device leaves no connector under two display ids: the display-to-connector map
    is injective and [connectors_to_display_id_] is its inverse. *)
Theorem one_display_per_connector k path n display1 display2 p :
  classified_once (connectors_ (snd (Init k path n DrmDevice_new))) ->
  bound_connectors_ (snd (Init k path n DrmDevice_new)) !! display1 = Some p ->
  bound_connectors_ (snd (Init k path n DrmDevice_new)) !! display2 = Some p ->
  display1 = display2
  /\ connectors_to_display_id_ (snd (Init k path n DrmDevice_new)) !! p
     = Some display1.
Proof.
  intros Hcl.
  assert (Hinv : forall display q,
    bound_connectors_ (snd (Init k path n DrmDevice_new)) !! display = Some q ->
    connectors_to_display_id_ (snd (Init k path n DrmDevice_new)) !! q
    = Some display).
  { destruct (Init_negotiate_frame k path DrmDevice_new) as [_ Hb0].
    unfold bindings in Hb0. simpl in Hb0.
    destruct (Init_run k path n DrmDevice_new)
      as [(err & _ & _ & E)|[(_ & _ & _ & E)|[(d2 & Hn & En & _)
         |(d2 & pr & Hn & En & _)]]].
    - rewrite E. simpl. intros display q.
      replace (bound_connectors_ (snd (Init_negotiate k path DrmDevice_new)))
        with (∅ : gmap Z nat) by congruence.
      by rewrite lookup_empty.
    - rewrite E. simpl. intros display q.
      replace (bound_connectors_ (snd (Init_negotiate k path DrmDevice_new)))
        with (∅ : gmap Z nat) by congruence.
      by rewrite lookup_empty.
    - destruct (Init_allocation k path n DrmDevice_new d2 Hn En)
        as (Hc & -> & ->).
      destruct (Init_enumerate_keeps _ _ _ En) as (Hb & _).
      unfold bindings in Hb. simpl in Hb.
      rewrite Init_add_displays_refines. apply assign_ids_inverse.
      + congruence.
      + apply display_order_NoDup. by rewrite <- Hc.
    - destruct (Init_allocation k path n DrmDevice_new d2 Hn En)
        as (Hc & -> & ->).
      destruct (Init_enumerate_keeps _ _ _ En) as (Hb & _).
      unfold bindings in Hb. simpl in Hb.
      rewrite Init_add_displays_refines. apply assign_ids_inverse.
      + congruence.
      + apply display_order_NoDup. by rewrite <- Hc. }
  intros H1 H2. pose proof (Hinv _ _ H1). pose proof (Hinv _ _ H2).
  split; congruence.
Qed.

Lemma one_display_per_connector_witness :
  1 = 1
  /\ connectors_to_display_id_
       (snd (Init scenario_A "/dev/dri/card0" 0 DrmDevice_new)) !! 1%nat
     = Some 1.
Proof.
  apply (one_display_per_connector scenario_A "/dev/dri/card0" 0 1 1 1%nat);
    [|vm_compute; reflexivity..].
  intros c Hin. vm_compute in Hin.
  repeat (apply elem_of_cons in Hin as [->|Hin]; [reflexivity|]).
  by apply elem_of_nil in Hin.
Defined.

(** ** Lookup of an object by its id *)

(** X5: [FindCrtcById] and [FindEncoderById] return no object exactly when no
    object of the vector has the id, and otherwise the first object with
    that id, as a pointer into the vector. *)
Theorem find_by_id_first_match (id : Z) (d : DrmDevice) :
  (FindCrtcById id d = None
   <-> forall crtc, crtc ∈ crtcs_ d -> DrmCrtc.GetId crtc <> id)
  /\ (forall p crtc,
        FindCrtcById id d = Some (p, crtc)
        <-> crtcs_ d !! p = Some crtc /\ DrmCrtc.GetId crtc = id
            /\ forall j c, (j < p)%nat -> crtcs_ d !! j = Some c ->
                  DrmCrtc.GetId c <> id)
  /\ (FindEncoderById id d = None
      <-> forall enc, enc ∈ encoders_ d -> DrmEncoder.GetId enc <> id)
  /\ (forall p enc,
        FindEncoderById id d = Some (p, enc)
        <-> encoders_ d !! p = Some enc /\ DrmEncoder.GetId enc = id
            /\ forall j e, (j < p)%nat -> encoders_ d !! j = Some e ->
                  DrmEncoder.GetId e <> id).
Proof.
  assert (Hgen : forall A (get : A -> Z) (l : list A),
    (find_from (fun x => get x =? id) 0 l = None
     <-> forall x, x ∈ l -> get x <> id)
    /\ (forall p x,
          find_from (fun x => get x =? id) 0 l = Some (p, x)
          <-> l !! p = Some x /\ get x = id
              /\ forall j y, (j < p)%nat -> l !! j = Some y -> get y <> id)).
  { intros A get l. split.
    - rewrite find_from_None. split; intros H x Hx; specialize (H x Hx); lia.
    - intros p x. split.
      + intros (_ & Hl & Hx & Hmin)%find_from_Some.
        rewrite Nat.sub_0_r in *. split; [done|]. split; [lia|].
        intros j y Hj Hy. specialize (Hmin j y Hj Hy). lia.
      + intros (Hl & Hx & Hmin).
        rewrite (find_from_first _ l 0 p x); [done|done|lia|].
        intros j y Hj Hy. specialize (Hmin j y Hj Hy). lia. }
  destruct (Hgen _ DrmCrtc.GetId (crtcs_ d)) as [H1 H2].
  destruct (Hgen _ DrmEncoder.GetId (encoders_ d)) as [H3 H4].
  done.
Qed.

(** ** The results of [Init] *)

Lemma negotiation_fatal_nonzero k path err :
  negotiation_fatal_spec k path = Some err -> err <> 0.
Proof.
  unfold negotiation_fatal_spec.
  destruct (k_open k path); [|by intros [= <-]].
  destruct (k_drmSetClientCap k DRM_CLIENT_CAP_UNIVERSAL_PLANES =? 0) eqn:H1;
    simpl; [|intros [= <-]; by apply Z.eqb_neq].
  destruct (k_drmSetClientCap k DRM_CLIENT_CAP_ATOMIC =? 0) eqn:H2;
    simpl; [|intros [= <-]; by apply Z.eqb_neq].
  destruct (k_drmIsMaster k =? 0); [by intros [= <-]|done].
Qed.

(** The loop over the connectors leaves [Init] with -ENODEV and count 0, or
    ends with [ret] 0 (the [ret] it started with when there is no
    connector). *)
Lemma Init_pipes_result p conns ret d x d' :
  Init_pipes p conns ret d = (Normal x, d') ->
  x = inl (- ENODEV, 0) \/ x = inr 0 \/ (x = inr ret /\ conns = []).
Proof.
  revert p ret d. induction conns as [|conn rest IH]; intros p ret d; simpl.
  - intros [= <- <-]. auto.
  - destruct (CreateDisplayPipe_cases p conn d)
      as [[_ E]|[(disp & _ & E)|(disp & e & crtc & _ & _ & _ & _ & _ & E)]];
      rewrite E; simpl; [done|intros [= <- <-]; auto|].
    intros Hrun. destruct (IH _ _ _ Hrun) as [?|[?|[? ?]]]; auto.
Qed.

(** An [Init] that returns status 0 went through every stage. *)
Lemma Init_success k path n d c :
  fst (Init k path n d) = Normal (0, c) ->
  negotiation_fatal_spec k path = None
  /\ exists d2 pr d4,
       Init_enumerate k (emit EvGetResources (snd (Init_negotiate k path d)))
       = Some d2
       /\ k_MakeDrmModePlaneResUnique k = Some pr
       /\ d4 = Init_planes k pr
                 (emit EvGetPlaneResources (fst (Init_add_displays (d2, n))))
       /\ Init_prepare k path n d = (inr 0, d4)
       /\ Init_pipes 0 (connectors_ d4) 0 d4
          = (Normal (inr 0), snd (Init k path n d))
       /\ c = Z.of_nat (size (bound_connectors_ (snd (Init k path n d)))).
Proof.
  destruct (Init_run k path n d)
    as [(err & Hn & _ & E)|[(_ & _ & _ & E)|[(d2 & _ & _ & _ & _ & E)
       |(d2 & pr & Hn & En & Hp & E)]]]; try (rewrite E; simpl).
  - intros [= -> _]. by apply negotiation_fatal_nonzero in Hn.
  - done.
  - done.
  - rewrite Init_unfold, E.
    destruct (Init_pipes 0 _ 0 _) as [[x|e] dfin] eqn:R; simpl; [|done].
    destruct (Init_pipes_result _ _ _ _ _ _ R) as [->|[->|[-> _]]]; simpl;
      try done; intros [= <-]; (split; [done|]);
      exists d2, pr; eexists; repeat split; done.
Qed.

(** X6: an [Init] that returns normally gives a display count only with
    status 0, and then the count is the size of [bound_connectors_]; with
    another status the count is 0 and the status is -ENODEV, -EACCES,
    -ENOENT or the nonzero result of setting the universal-plane or the
    atomic capability. *)
Theorem Init_status_and_count k path n d r c :
  fst (Init k path n d) = Normal (r, c) ->
  (r = 0
   /\ c = Z.of_nat (size (bound_connectors_ (snd (Init k path n d))))
   /\ negotiation_fatal_spec k path = None)
  \/ (r <> 0 /\ c = 0
      /\ (r = - ENODEV \/ r = - EACCES \/ r = - ENOENT
          \/ r = k_drmSetClientCap k DRM_CLIENT_CAP_UNIVERSAL_PLANES
          \/ r = k_drmSetClientCap k DRM_CLIENT_CAP_ATOMIC)).
Proof.
  destruct (Init_run k path n d)
    as [(err & Hn & _ & E)|[(_ & _ & _ & E)|[(d2 & _ & _ & _ & _ & E)
       |(d2 & pr & Hn & En & Hp & E)]]].
  - rewrite E. simpl. intros [= <- <-]. right.
    split; [by eapply negotiation_fatal_nonzero|]. split; [done|].
    unfold negotiation_fatal_spec in Hn.
    destruct (k_open k path); [|injection Hn as <-; auto].
    destruct (negb (_ =? 0)); [injection Hn as <-; auto|].
    destruct (negb (_ =? 0)); [injection Hn as <-; auto 6|].
    destruct (k_drmIsMaster k =? 0); [injection Hn as <-; auto|done].
  - rewrite E. simpl. intros [= <- <-]. right. auto.
  - rewrite E. simpl. intros [= <- <-]. right. auto 6.
  - rewrite Init_unfold, E.
    destruct (Init_pipes 0 _ 0 _) as [[x|e] dfin] eqn:R; simpl; [|done].
    destruct (Init_pipes_result _ _ _ _ _ _ R) as [->|[->|[-> _]]]; simpl;
      intros [= <- <-]; auto.
Qed.

Lemma Init_status_and_count_witness :
  (- ENODEV = 0
   /\ 0 = Z.of_nat
            (size (bound_connectors_
                     (snd (Init second_output_unassignable "/dev/dri/card0" 0
                             DrmDevice_new))))
   /\ negotiation_fatal_spec second_output_unassignable "/dev/dri/card0"
      = None)
  \/ (- ENODEV <> 0 /\ 0 = 0
      /\ (- ENODEV = - ENODEV \/ - ENODEV = - EACCES \/ - ENODEV = - ENOENT
          \/ - ENODEV
             = k_drmSetClientCap second_output_unassignable
                 DRM_CLIENT_CAP_UNIVERSAL_PLANES
          \/ - ENODEV
             = k_drmSetClientCap second_output_unassignable
                 DRM_CLIENT_CAP_ATOMIC)).
Proof.
  apply (Init_status_and_count second_output_unassignable "/dev/dri/card0" 0
           DrmDevice_new (- ENODEV) 0).
  vm_compute. reflexivity.
Defined.

(** ** Complete pipelines *)

(** A CRTC search that binds, binds a CRTC of the device that is the current
    CRTC of the encoder or one the encoder can drive, for a display that had
    none. *)
Lemma TryEncoderForDisplay_success display encp enc d d' :
  TryEncoderForDisplay display encp enc d = (0, d') ->
  exists crtcp crtc,
    crtcs_ d !! crtcp = Some crtc
    /\ (DrmCrtc.GetId crtc = DrmEncoder.GetCurrentCrtcId enc
        \/ DrmEncoder.SupportsCrtc enc crtc = true)
    /\ bound_crtcs_ d !! display = None
    /\ d' = bind_crtc display crtcp encp d.
Proof.
  rewrite TryEncoderForDisplay_refines. unfold TryEncoderForDisplay_spec.
  destruct (bound_crtcs_ d !! display) eqn:Hb; [discriminate|].
  unfold FindCrtcById.
  destruct (find_from _ 0 (crtcs_ d)) as [[crtcp crtc]|] eqn:F.
  - intros [= <-]. apply find_from_Some in F as (_ & Hl & Hid & _).
    rewrite Nat.sub_0_r in Hl. exists crtcp, crtc.
    split; [done|]. split; [left; lia|done].
  - destruct (find_from (acceptable_crtc enc) 0 (crtcs_ d))
      as [[crtcp crtc]|] eqn:G; [|discriminate].
    intros [= <-]. apply find_from_Some in G as (_ & Hl & Ha & _).
    rewrite Nat.sub_0_r in Hl. unfold acceptable_crtc in Ha.
    apply andb_prop in Ha as [Hs _]. exists crtcp, crtc. auto.
Qed.

Lemma CreateDisplayPipe_scan_success display conn p encs d d' :
  CreateDisplayPipe_scan display conn p encs d = (0, d') ->
  exists e enc crtcp crtc,
    (p <= e)%nat /\ encs !! (e - p)%nat = Some enc
    /\ DrmConnector.SupportsEncoder conn enc = true
    /\ encoders_to_display_id_ d !! e = None
    /\ crtcs_ d !! crtcp = Some crtc
    /\ (DrmCrtc.GetId crtc = DrmEncoder.GetCurrentCrtcId enc
        \/ DrmEncoder.SupportsCrtc enc crtc = true)
    /\ bound_crtcs_ d !! display = None
    /\ d' = claim_encoder e display (bind_crtc display crtcp e d).
Proof.
  revert p. induction encs as [|enc rest IH]; intros p; simpl; [discriminate|].
  assert (Hrest :
    CreateDisplayPipe_scan display conn (S p) rest d = (0, d') ->
    exists e enc' crtcp crtc,
      (p <= e)%nat /\ (enc :: rest) !! (e - p)%nat = Some enc'
      /\ DrmConnector.SupportsEncoder conn enc' = true
      /\ encoders_to_display_id_ d !! e = None
      /\ crtcs_ d !! crtcp = Some crtc
      /\ (DrmCrtc.GetId crtc = DrmEncoder.GetCurrentCrtcId enc'
          \/ DrmEncoder.SupportsCrtc enc' crtc = true)
      /\ bound_crtcs_ d !! display = None
      /\ d' = claim_encoder e display (bind_crtc display crtcp e d)).
  { intros (e & enc' & crtcp & crtc & Hle & Hl & H)%IH.
    exists e, enc', crtcp, crtc. split; [lia|]. split; [|done].
    by replace (e - p)%nat with (S (e - S p)) by lia. }
  destruct (DrmConnector.SupportsEncoder conn enc) eqn:Hs; simpl; [|done].
  unfold map_count.
  destruct (encoders_to_display_id_ d !! p) eqn:Hc; simpl; [done|].
  destruct (TryEncoderForDisplay display p enc d) as [ret d1] eqn:T.
  destruct (ret =? 0) eqn:R.
  - apply Z.eqb_eq in R as ->. intros [= <-].
    apply TryEncoderForDisplay_success in T
      as (crtcp & crtc & Hl & Hok & Hb & ->).
    exists p, enc, crtcp, crtc. rewrite Nat.sub_diag. done.
  - destruct (TryEncoderForDisplay_cases display p enc d)
      as [E|(crtc & _ & _ & E)]; rewrite E in T; injection T as <- <-;
      [done|discriminate].
Qed.

(** A [CreateDisplayPipe] that returns 0 has bound, to the display of the
    connector, an unclaimed encoder that the connector supports or has as its
    current encoder, and a CRTC that this encoder has as its current CRTC or
    can drive. *)
Lemma CreateDisplayPipe_success connp conn d d' :
  CreateDisplayPipe connp conn d = (Normal 0, d') ->
  exists display e enc crtcp crtc,
    connectors_to_display_id_ d !! connp = Some display
    /\ encoders_ d !! e = Some enc
    /\ (DrmConnector.SupportsEncoder conn enc = true
        \/ DrmEncoder.GetId enc = DrmConnector.GetCurrentEncoderId conn)
    /\ encoders_to_display_id_ d !! e = None
    /\ crtcs_ d !! crtcp = Some crtc
    /\ (DrmCrtc.GetId crtc = DrmEncoder.GetCurrentCrtcId enc
        \/ DrmEncoder.SupportsCrtc enc crtc = true)
    /\ bound_crtcs_ d !! display = None
    /\ d' = claim_encoder e display (bind_crtc display crtcp e d).
Proof.
  unfold CreateDisplayPipe, map_at.
  destruct (connectors_to_display_id_ d !! connp) as [display|] eqn:Hc;
    [|discriminate].
  assert (Hscan : forall d1,
    d1 = d ->
    (let '(ret, d2) :=
       CreateDisplayPipe_scan display conn 0 (encoders_ d1) d1 in
     (Normal ret, d2)) = (Normal 0, d') ->
    exists display0 e enc crtcp crtc,
      Some display = Some display0
      /\ encoders_ d !! e = Some enc
      /\ (DrmConnector.SupportsEncoder conn enc = true
          \/ DrmEncoder.GetId enc = DrmConnector.GetCurrentEncoderId conn)
      /\ encoders_to_display_id_ d !! e = None
      /\ crtcs_ d !! crtcp = Some crtc
      /\ (DrmCrtc.GetId crtc = DrmEncoder.GetCurrentCrtcId enc
          \/ DrmEncoder.SupportsCrtc enc crtc = true)
      /\ bound_crtcs_ d !! display0 = None
      /\ d' = claim_encoder e display0 (bind_crtc display0 crtcp e d)).
  { intros d1 ->.
    destruct (CreateDisplayPipe_scan display conn 0 (encoders_ d) d)
      as [ret d2] eqn:S0.
    intros [= -> ->].
    apply CreateDisplayPipe_scan_success in S0
      as (e & enc & crtcp & crtc & _ & Hl & Hs & He & Hcr & Hok & Hb & ->).
    rewrite Nat.sub_0_r in Hl.
    exists display, e, enc, crtcp, crtc. auto 10. }
  destruct (FindEncoderById _ d) as [[enc0p enc0]|] eqn:F; [|by apply Hscan].
  unfold map_count.
  destruct (encoders_to_display_id_ d !! enc0p) eqn:He; simpl;
    [by apply Hscan|].
  destruct (TryEncoderForDisplay display enc0p enc0 d) as [ret d1] eqn:T.
  destruct (ret =? 0) eqn:R.
  - apply Z.eqb_eq in R as ->. intros [= <-].
    apply TryEncoderForDisplay_success in T
      as (crtcp & crtc & Hl & Hok & Hb & ->).
    apply find_from_Some in F as (_ & Hle & Hid & _).
    rewrite Nat.sub_0_r in Hle.
    exists display, enc0p, enc0, crtcp, crtc.
    split; [done|]. split; [done|]. split; [right; lia|done].
  - destruct (TryEncoderForDisplay_cases display enc0p enc0 d)
      as [E|(crtc & _ & _ & E)]; rewrite E in T; injection T as <- <-;
      [|discriminate].
    simpl. by apply Hscan.
Qed.

(** A bind keeps the pipelines of the other connectors. *)
Lemma pipeline_ok_bind d q conn display e crtcp :
  bound_crtcs_ d !! display = None ->
  encoders_to_display_id_ d !! e = None ->
  pipeline_ok d q conn ->
  pipeline_ok (claim_encoder e display (bind_crtc display crtcp e d)) q conn.
Proof.
  intros Hb He (disp & e' & enc & c' & crtc & Hc & He' & Hl & Hs & Hb' & Hcr & Hok).
  exists disp, e', enc, c', crtc. simpl.
  split; [done|]. split; [|split; [done|split; [done|split; [|done]]]].
  - rewrite lookup_insert_ne; [done|congruence].
  - rewrite lookup_insert_ne; [done|congruence].
Qed.

(** While the loop runs on, every connector it has passed has a complete
    pipeline. *)
Lemma Init_pipes_pipelines p conns ret d r d' :
  (forall j c, conns !! j = Some c -> connectors_ d !! (p + j)%nat = Some c) ->
  (forall q c, (q < p)%nat -> connectors_ d !! q = Some c -> pipeline_ok d q c) ->
  Init_pipes p conns ret d = (Normal (inr r), d') ->
  forall q c, (q < p + length conns)%nat -> connectors_ d' !! q = Some c ->
    pipeline_ok d' q c.
Proof.
  revert p ret d. induction conns as [|conn rest IH]; intros p ret d Hcs Hinv;
    simpl.
  - intros [= _ <-] q c Hq. apply Hinv. lia.
  - destruct (CreateDisplayPipe p conn d) as [[x|e] d1] eqn:E; [|done].
    destruct (x =? 0) eqn:X; simpl; [|done]. apply Z.eqb_eq in X as ->.
    destruct (CreateDisplayPipe_keeps p conn d) as (K & _). rewrite E in K.
    unfold kept_by_pipes, resources in K. simpl in K.
    assert (Hconn : connectors_ d1 = connectors_ d) by congruence.
    apply CreateDisplayPipe_success in E
      as (display & e & enc & crtcp & crtc & Hc & Hl & Hs & He & Hcr & Hok
          & Hb & ->).
    intros Hrun q0 c0 Hq0 Hqc0.
    eapply (IH (S p)); [| |exact Hrun|lia|exact Hqc0].
    + intros j c Hj. rewrite Hconn.
      replace (S p + j)%nat with (p + S j)%nat by lia. by apply Hcs.
    + intros q c Hq. rewrite Hconn. intros Hqc.
      destruct (decide (q = p)) as [->|Hne].
      * specialize (Hcs 0%nat conn eq_refl). rewrite Nat.add_0_r in Hcs.
        assert (c = conn) as -> by congruence.
        exists display, e, enc, crtcp, crtc. simpl.
        rewrite !lookup_insert_eq. done.
      * apply pipeline_ok_bind; [done..|]. apply Hinv; [lia|done].
Qed.

Lemma successful_Init_pipelines k path n d c p conn :
  fst (Init k path n d) = Normal (0, c) ->
  connectors_ (snd (Init k path n d)) !! p = Some conn ->
  pipeline_ok (snd (Init k path n d)) p conn.
Proof.
  intros (_ & d2 & pr & d4 & _ & _ & _ & _ & Hrun & _)%Init_success Hp.
  destruct (Init_pipes_keeps 0 (connectors_ d4) 0 d4) as (K & _).
  rewrite Hrun in K. unfold kept_by_pipes, resources in K. simpl in K.
  apply (Init_pipes_pipelines 0 (connectors_ d4) 0 d4 0 _); try done.
  - intros q c' Hq. lia.
  - simpl. apply lookup_lt_Some in Hp. congruence.
Qed.

(** X3: after an [Init] that returns status 0, whatever the device was
    before, every connector of [connectors_] has a complete pipeline: a
    display id, an encoder claimed for that display which the connector
    supports or has as its current encoder, and a CRTC bound to that display
    which is the current CRTC of the encoder or one it can drive. *)
Theorem successful_Init_completes_every_pipeline k path n d c p conn :
  fst (Init k path n d) = Normal (0, c) ->
  GetConnectors (snd (Init k path n d)) !! p = Some conn ->
  exists display e enc crtcp crtc,
    GetDisplayId p (snd (Init k path n d)) = Normal display
    /\ encoders_to_display_id_ (snd (Init k path n d)) !! e = Some display
    /\ GetEncoders (snd (Init k path n d)) !! e = Some enc
    /\ (DrmConnector.SupportsEncoder conn enc = true
        \/ DrmEncoder.GetId enc = DrmConnector.GetCurrentEncoderId conn)
    /\ GetCrtcForDisplay display (snd (Init k path n d)) = Normal crtcp
    /\ GetCrtcs (snd (Init k path n d)) !! crtcp = Some crtc
    /\ (DrmCrtc.GetId crtc = DrmEncoder.GetCurrentCrtcId enc
        \/ DrmEncoder.SupportsCrtc enc crtc = true).
Proof.
  intros Hok Hp.
  destruct (successful_Init_pipelines k path n d c p conn Hok Hp)
    as (display & e & enc & crtcp & crtc & Hc & He & Hl & Hs & Hb & Hcr & Hd).
  exists display, e, enc, crtcp, crtc.
  unfold GetDisplayId, GetCrtcForDisplay, GetEncoders, GetCrtcs, map_at.
  rewrite Hc, Hb. done.
Qed.

Lemma successful_Init_completes_every_pipeline_witness :
  exists display e enc crtcp crtc,
    GetDisplayId 1 (snd (Init scenario_A "/dev/dri/card0" 0 DrmDevice_new))
    = Normal display
    /\ encoders_to_display_id_
         (snd (Init scenario_A "/dev/dri/card0" 0 DrmDevice_new)) !! e
       = Some display
    /\ GetEncoders (snd (Init scenario_A "/dev/dri/card0" 0 DrmDevice_new))
         !! e = Some enc
    /\ (DrmConnector.SupportsEncoder
          (DrmConnector.Build 52 1 true false true false 0 [41; 42]) enc = true
        \/ DrmEncoder.GetId enc
           = DrmConnector.GetCurrentEncoderId
               (DrmConnector.Build 52 1 true false true false 0 [41; 42]))
    /\ GetCrtcForDisplay display
         (snd (Init scenario_A "/dev/dri/card0" 0 DrmDevice_new))
       = Normal crtcp
    /\ GetCrtcs (snd (Init scenario_A "/dev/dri/card0" 0 DrmDevice_new))
         !! crtcp = Some crtc
    /\ (DrmCrtc.GetId crtc = DrmEncoder.GetCurrentCrtcId enc
        \/ DrmEncoder.SupportsCrtc enc crtc = true).
Proof.
  apply (successful_Init_completes_every_pipeline
           scenario_A "/dev/dri/card0" 0 DrmDevice_new 2 1%nat
           (DrmConnector.Build 52 1 true false true false 0 [41; 42]));
    vm_compute; reflexivity.
Defined.

(** ** Encoders and displays *)

Lemma encoders_exclusive_bind d display e crtcp :
  bound_crtcs_ d !! display = None ->
  encoders_to_display_id_ d !! e = None ->
  encoders_exclusive d ->
  encoders_exclusive (claim_encoder e display (bind_crtc display crtcp e d)).
Proof.
  intros Hb He [Hinj Hiff].
  assert (Hfree : forall e', encoders_to_display_id_ d !! e' <> Some display).
  { intros e' He'. destruct (proj2 (Hiff display)) as [? ?]; [by eexists|].
    congruence. }
  split; simpl.
  - intros e1 e2 disp.
    destruct (decide (e = e1)) as [<-|H1], (decide (e = e2)) as [<-|H2];
      rewrite ?lookup_insert_eq, ?lookup_insert_ne by done; try done.
    + intros [= <-] H. by apply Hfree in H.
    + intros H [= <-]. by apply Hfree in H.
    + apply Hinj.
  - intros disp. destruct (decide (display = disp)) as [<-|Hne].
    + rewrite lookup_insert_eq. split; [|by eexists].
      intros _. exists e. by rewrite lookup_insert_eq.
    + rewrite lookup_insert_ne by done. rewrite Hiff.
      split; intros [e' He']; exists e'.
      * rewrite lookup_insert_ne; [done|]. intros <-. congruence.
      * destruct (decide (e = e')) as [<-|Hne'];
          [rewrite lookup_insert_eq in He'; congruence|].
        by rewrite lookup_insert_ne in He'.
Qed.

Lemma encoders_exclusive_kept d d' :
  bound_crtcs_ d' = bound_crtcs_ d ->
  encoders_to_display_id_ d' = encoders_to_display_id_ d ->
  encoders_exclusive d -> encoders_exclusive d'.
Proof. unfold encoders_exclusive. by intros -> ->. Qed.

Lemma CreateDisplayPipe_exclusive connp conn d :
  encoders_exclusive d ->
  encoders_exclusive (snd (CreateDisplayPipe connp conn d)).
Proof.
  intros Hex.
  destruct (CreateDisplayPipe_cases connp conn d)
    as [[_ E]|[(disp & _ & E)|(disp & e & crtc & _ & _ & He & _ & Hb & E)]];
    rewrite E; simpl; [done|done|].
  by apply encoders_exclusive_bind.
Qed.

Lemma Init_pipes_exclusive p conns ret d :
  encoders_exclusive d ->
  encoders_exclusive (snd (Init_pipes p conns ret d)).
Proof.
  revert p ret d. induction conns as [|conn rest IH]; intros p ret d Hex;
    simpl; [done|].
  pose proof (CreateDisplayPipe_exclusive p conn d Hex) as Hex1.
  destruct (CreateDisplayPipe p conn d) as [[x|e] d1]; simpl in *; [|done].
  destruct (negb (x =? 0)); simpl; [done|]. by apply IH.
Qed.

(** X7: [CreateDisplayPipe] and [Init] keep encoders and displays paired one
    to one: two encoders are never claimed for the same display, and a
    display has a CRTC exactly when an encoder is claimed for it.  This does
    not depend on how [Init] ends. *)
Theorem Init_keeps_encoders_exclusive k path n d connp conn :
  encoders_exclusive d ->
  encoders_exclusive (snd (CreateDisplayPipe connp conn d))
  /\ encoders_exclusive (snd (Init k path n d)).
Proof.
  intros Hex. split; [by apply CreateDisplayPipe_exclusive|].
  destruct (Init_negotiate_frame k path d) as [_ Hb0].
  unfold bindings in Hb0.
  assert (H1 : encoders_exclusive (snd (Init_negotiate k path d)))
    by (apply (encoders_exclusive_kept d); congruence).
  assert (Hen : forall d2,
    Init_enumerate k (emit EvGetResources (snd (Init_negotiate k path d)))
    = Some d2 ->
    encoders_exclusive (fst (Init_add_displays (d2, n)))).
  { intros d2 En. destruct (Init_enumerate_keeps _ _ _ En) as (Hb & _).
    pose proof (Init_add_displays_frame (d2, n)) as F.
    unfold kept_by_add_displays in F. unfold bindings in Hb. simpl in *.
    apply (encoders_exclusive_kept (snd (Init_negotiate k path d)));
      [congruence..|done]. }
  destruct (Init_run k path n d)
    as [(err & _ & _ & E)|[(_ & _ & _ & E)|[(d2 & _ & En & _ & _ & E)
       |(d2 & pr & _ & En & _ & E)]]].
  - by rewrite E.
  - rewrite E. simpl.
    by apply (encoders_exclusive_kept (snd (Init_negotiate k path d))).
  - rewrite E. simpl.
    apply (encoders_exclusive_kept (fst (Init_add_displays (d2, n))));
      [done..|by apply Hen].
  - rewrite Init_final_device, E. apply Init_pipes_exclusive.
    match goal with |- context [Init_planes k pr ?d3] =>
      pose proof (Init_planes_frame k pr d3) as P
    end.
    unfold kept_by_catalog, bindings in P. simpl in P.
    apply (encoders_exclusive_kept (fst (Init_add_displays (d2, n))));
      [congruence..|by apply Hen].
Qed.

Lemma Init_keeps_encoders_exclusive_witness :
  encoders_exclusive
    (snd (CreateDisplayPipe 0
            (DrmConnector.Build 51 0 true true false false 41 [41])
            DrmDevice_new))
  /\ encoders_exclusive
       (snd (Init one_crtc_two_outputs "/dev/dri/card0" 0 DrmDevice_new)).
Proof.
  apply (Init_keeps_encoders_exclusive
           one_crtc_two_outputs "/dev/dri/card0" 0 DrmDevice_new).
  split; simpl.
  - intros e1 e2 display H. by rewrite lookup_empty in H.
  - intros display. rewrite lookup_empty. split.
    + by intros [? ?].
    + intros [e H]. by rewrite lookup_empty in H.
Defined.

(** ** The display ids of a device *)

(** Ids handed out above every id in use: the map grows by one entry per
    connector of the sequence, and every id of a connector leads back to
    it. *)
Lemma assign_ids_fresh l d n :
  (forall display, is_Some (bound_connectors_ d !! display) -> display < n) ->
  size (bound_connectors_ (fst (assign_ids l (d, n))))
  = (size (bound_connectors_ d) + length l)%nat
  /\ (display_ids_lead_back d ->
      display_ids_lead_back (fst (assign_ids l (d, n)))).
Proof.
  revert d n. induction l as [|q rest IH]; intros d n Hlt; simpl.
  - split; [lia|done].
  - match goal with |- context [assign_ids rest (?d1, _)] =>
      destruct (IH d1 (n + 1)) as [IHs IHb] end.
    { simpl. intros display. destruct (decide (n = display)) as [<-|Hne].
      - lia.
      - rewrite lookup_insert_ne by done. intros H%Hlt. lia. }
    assert (Hnone : bound_connectors_ d !! n = None).
    { destruct (bound_connectors_ d !! n) eqn:E; [|done].
      assert (n < n) by (apply Hlt; by eexists). lia. }
    split.
    + rewrite IHs. simpl. rewrite map_size_insert_None by done. lia.
    + intros Hback. apply IHb. intros p display. simpl.
      destruct (decide (q = p)) as [<-|Hne].
      * rewrite lookup_insert_eq. intros [= <-]. apply lookup_insert_eq.
      * rewrite lookup_insert_ne by done. intros Hp.
        pose proof (Hback _ _ Hp) as Hb.
        rewrite lookup_insert_ne; [done|]. intros <-. congruence.
Qed.

(** The two connector maps after [Init]: untouched when [Init] stops before
    the allocation, else those of the allocation over the connectors of the
    device. *)
Lemma Init_connector_maps k path n d :
  (bound_connectors_ (snd (Init k path n d)) = bound_connectors_ d
   /\ connectors_to_display_id_ (snd (Init k path n d))
      = connectors_to_display_id_ d)
  \/ exists d2,
       bindings d2 = bindings d
       /\ connectors_ d2 = connectors_ (snd (Init k path n d))
       /\ bound_connectors_ (snd (Init k path n d))
          = bound_connectors_
              (fst (assign_ids (display_order (connectors_ d2)) (d2, n)))
       /\ connectors_to_display_id_ (snd (Init k path n d))
          = connectors_to_display_id_
              (fst (assign_ids (display_order (connectors_ d2)) (d2, n))).
Proof.
  destruct (Init_negotiate_frame k path d) as [_ Hb0].
  assert (Hen : forall d2,
    negotiation_fatal_spec k path = None ->
    Init_enumerate k (emit EvGetResources (snd (Init_negotiate k path d)))
    = Some d2 ->
    exists d2,
      bindings d2 = bindings d
      /\ connectors_ d2 = connectors_ (snd (Init k path n d))
      /\ bound_connectors_ (snd (Init k path n d))
         = bound_connectors_
             (fst (assign_ids (display_order (connectors_ d2)) (d2, n)))
      /\ connectors_to_display_id_ (snd (Init k path n d))
         = connectors_to_display_id_
             (fst (assign_ids (display_order (connectors_ d2)) (d2, n)))).
  { intros d2 Hn En.
    destruct (Init_allocation k path n d d2 Hn En) as (Hc & Hbc & Hcd).
    destruct (Init_enumerate_keeps _ _ _ En) as (Hb & _).
    exists d2. rewrite <- Init_add_displays_refines.
    split; [by rewrite Hb|done]. }
  destruct (Init_run k path n d)
    as [(err & _ & _ & E)|[(_ & _ & _ & E)|[(d2 & Hn & En & _)
       |(d2 & pr & Hn & En & _)]]].
  - left. rewrite E. unfold bindings in Hb0. simpl. split; congruence.
  - left. rewrite E. unfold bindings in Hb0. simpl. split; congruence.
  - right. by apply (Hen d2).
  - right. by apply (Hen d2).
Qed.

(** X8: on the device that [Init] leaves, started on a new device, the
    display id of a connector leads back to that connector:
    [GetConnectorForDisplay (GetDisplayId conn)] is [conn], however [Init]
    ended. *)
Theorem display_id_leads_back_to_connector k path n p display :
  GetDisplayId p (snd (Init k path n DrmDevice_new)) = Normal display ->
  GetConnectorForDisplay display (snd (Init k path n DrmDevice_new))
  = Normal p.
Proof.
  unfold GetDisplayId, GetConnectorForDisplay, map_at.
  assert (Hback : display_ids_lead_back (snd (Init k path n DrmDevice_new))).
  { unfold display_ids_lead_back.
    destruct (Init_connector_maps k path n DrmDevice_new)
      as [[-> ->]|(d2 & Hb & _ & -> & ->)].
    - intros q disp. simpl. by rewrite lookup_empty.
    - unfold bindings in Hb. simpl in Hb.
      apply assign_ids_fresh.
      + intros disp. replace (bound_connectors_ d2) with (∅ : gmap Z nat)
          by congruence. rewrite lookup_empty. by intros [? ?].
      + intros q disp. replace (connectors_to_display_id_ d2)
          with (∅ : gmap nat Z) by congruence. by rewrite lookup_empty. }
  destruct (connectors_to_display_id_ _ !! p) as [disp|] eqn:E; [|done].
  intros [= ->]. by rewrite (Hback _ _ E).
Qed.

Lemma display_id_leads_back_to_connector_witness :
  GetConnectorForDisplay 1
    (snd (Init second_output_unassignable "/dev/dri/card0" 0 DrmDevice_new))
  = Normal 1%nat.
Proof.
  apply (display_id_leads_back_to_connector
           second_output_unassignable "/dev/dri/card0" 0 1%nat 1).
  vm_compute. reflexivity.
Defined.

(** X9: an [Init] on a new device that returns status 0 with count [c], for
    the starting id [n], handles exactly the display ids [n], ..., [n+c-1],
    and [c] is the number of connectors in the four classes. *)
Theorem successful_Init_handles_a_range k path n c :
  fst (Init k path n DrmDevice_new) = Normal (0, c) ->
  c = Z.of_nat (length (display_order
                          (GetConnectors
                             (snd (Init k path n DrmDevice_new)))))
  /\ forall display,
       HandlesDisplay display (snd (Init k path n DrmDevice_new)) = true
       <-> n <= display < n + c.
Proof.
  intros Hok. pose proof Hok as (Hn & d2 & pr & d4 & En & _ & _ & _ & _ & ->)%Init_success.
  destruct (Init_allocation k path n DrmDevice_new d2 Hn En) as (Hc & Hbc & _).
  destruct (Init_enumerate_keeps _ _ _ En) as (Hb & _).
  destruct (Init_negotiate_frame k path DrmDevice_new) as [_ Hb0].
  unfold bindings in Hb, Hb0. simpl in Hb, Hb0.
  assert (Hempty : bound_connectors_ d2 = ∅) by congruence.
  unfold GetConnectors, HandlesDisplay, map_count.
  rewrite Hbc, Hc, Init_add_displays_refines.
  destruct (assign_ids_fresh (display_order (connectors_ d2)) d2 n) as [Hs _].
  { intros display. rewrite Hempty, lookup_empty. by intros [? ?]. }
  destruct (assign_ids_lookup (display_order (connectors_ d2)) d2 n)
    as (_ & Hl & Ho & _).
  rewrite Hs, Hempty, map_size_empty. split; [done|].
  intros display. simpl.
  destruct (decide (n <= display
                    < n + Z.of_nat (length (display_order (connectors_ d2)))))
    as [Hin|Hout].
  - destruct (lookup_lt_is_Some_2 (display_order (connectors_ d2))
                (Z.to_nat (display - n))) as [p Hp]; [lia|].
    apply Hl in Hp.
    replace (n + Z.of_nat (Z.to_nat (display - n))) with display in Hp by lia.
    rewrite Hp. simpl. split; [lia|done].
  - rewrite Ho, Hempty, lookup_empty by lia. simpl. split; [done|lia].
Qed.

Lemma successful_Init_handles_a_range_witness :
  2 = Z.of_nat (length (display_order
                          (GetConnectors
                             (snd (Init scenario_A "/dev/dri/card0" 5
                                     DrmDevice_new)))))
  /\ forall display,
       HandlesDisplay display
         (snd (Init scenario_A "/dev/dri/card0" 5 DrmDevice_new)) = true
       <-> 5 <= display < 5 + 2.
Proof.
  apply (successful_Init_handles_a_range scenario_A "/dev/dri/card0" 5 2).
  vm_compute. reflexivity.
Defined.

(** X10: after an [Init] on a new device that returns status 0, when no
    connector is both internal and external, every display that
    [HandlesDisplay] accepts has a connector and a CRTC: both accessors
    return, and the connector's display id is that display. *)
Theorem handled_display_has_connector_and_crtc k path n c display :
  fst (Init k path n DrmDevice_new) = Normal (0, c) ->
  classified_once (GetConnectors (snd (Init k path n DrmDevice_new))) ->
  HandlesDisplay display (snd (Init k path n DrmDevice_new)) = true ->
  exists p crtc,
    GetConnectorForDisplay display (snd (Init k path n DrmDevice_new))
    = Normal p
    /\ GetCrtcForDisplay display (snd (Init k path n DrmDevice_new))
       = Normal crtc
    /\ GetDisplayId p (snd (Init k path n DrmDevice_new)) = Normal display.
Proof.
  intros Hok Hcl Hh.
  unfold HandlesDisplay, GetConnectorForDisplay, GetCrtcForDisplay,
    GetDisplayId, GetConnectors, map_at, map_count in *.
  destruct (bound_connectors_ _ !! display) as [p|] eqn:Hp; [|done].
  destruct (Init_wf k path n DrmDevice_new DrmDevice_new_wf)
    as [(_ & _ & Hlt & _) _].
  destruct (lookup_lt_is_Some_2 _ _ (Hlt _ _ Hp)) as [conn Hconn].
  destruct (successful_Init_pipelines k path n DrmDevice_new c p conn Hok Hconn)
    as (disp & e & enc & crtcp & crtc & Hc & _ & _ & _ & Hb & _).
  assert (Hinv : connectors_to_display_id_ (snd (Init k path n DrmDevice_new))
                 !! p = Some display).
  { pose proof Hok as (Hn & d2 & _ & _ & En & _)%Init_success.
    destruct (Init_allocation k path n DrmDevice_new d2 Hn En)
      as (Hcs & Hbc & Hcd).
    destruct (Init_enumerate_keeps _ _ _ En) as (Hbd & _).
    destruct (Init_negotiate_frame k path DrmDevice_new) as [_ Hb0].
    unfold bindings in Hbd, Hb0. simpl in Hbd, Hb0.
    rewrite Hcd, Init_add_displays_refines.
    rewrite Hbc, Init_add_displays_refines in Hp.
    apply assign_ids_inverse; [congruence| |done].
    apply display_order_NoDup. by rewrite <- Hcs. }
  assert (disp = display) as -> by congruence.
  exists p, crtcp. by rewrite Hb, Hinv.
Qed.

Lemma handled_display_has_connector_and_crtc_witness :
  exists p crtc,
    GetConnectorForDisplay 1
      (snd (Init scenario_A "/dev/dri/card0" 0 DrmDevice_new)) = Normal p
    /\ GetCrtcForDisplay 1
         (snd (Init scenario_A "/dev/dri/card0" 0 DrmDevice_new))
       = Normal crtc
    /\ GetDisplayId p (snd (Init scenario_A "/dev/dri/card0" 0 DrmDevice_new))
       = Normal 1.
Proof.
  apply (handled_display_has_connector_and_crtc
           scenario_A "/dev/dri/card0" 0 2 1);
    [vm_compute; reflexivity| |vm_compute; reflexivity].
  intros c Hin. vm_compute in Hin.
  repeat (apply elem_of_cons in Hin as [->|Hin]; [reflexivity|]).
  by apply elem_of_nil in Hin.
Defined.

(** ** A connector without a class *)

(** X11: when [Init] on a new device reaches, in its loop, a connector that
    is neither internal nor external, the connector has no display id and
    the [std::out_of_range] of [connectors_to_display_id_.at] leaves [Init]:
    no status is returned. *)
Theorem unclassified_connector_throws
    k path n ret d0 pre conn post r dp :
  Init_prepare k path n DrmDevice_new = (inr ret, d0) ->
  connectors_ d0 = pre ++ conn :: post ->
  DrmConnector.IsInternal conn = false ->
  DrmConnector.IsExternal conn = false ->
  Init_pipes 0 pre ret d0 = (Normal (inr r), dp) ->
  fst (Init k path n DrmDevice_new) = Throws std_out_of_range
  /\ GetDisplayId (length pre) (snd (Init k path n DrmDevice_new))
     = Throws std_out_of_range.
Proof.
  intros Hp Hc Hi He Hpre.
  assert (Hnone : connectors_to_display_id_ d0 !! length pre = None).
  { destruct (Init_run k path n DrmDevice_new)
      as [(err & _ & E & _)|[(_ & _ & E & _)|[(d2 & _ & _ & _ & E & _)
         |(d2 & pr & Hn & En & _ & E)]]]; try congruence.
    rewrite E in Hp. injection Hp as _ <-.
    destruct (Init_enumerate_keeps _ _ _ En) as (Hb & _).
    destruct (Init_negotiate_frame k path DrmDevice_new) as [_ Hb0].
    pose proof (Init_add_displays_frame (d2, n)) as F.
    match goal with |- context [Init_planes k pr ?d3] =>
      pose proof (Init_planes_frame k pr d3) as P
    end.
    unfold kept_by_add_displays, resources in F.
    unfold kept_by_catalog in P. unfold bindings in *. simpl in *.
    assert (Hcs : connectors_ d2 = pre ++ conn :: post) by congruence.
    replace (connectors_to_display_id_ (Init_planes k pr _))
      with (connectors_to_display_id_ (fst (Init_add_displays (d2, n))))
      by congruence.
    rewrite Init_add_displays_refines.
    destruct (assign_ids_lookup (display_order (connectors_ d2)) d2 n)
      as (_ & _ & _ & _ & Hf).
    rewrite Hf.
    - replace (connectors_to_display_id_ d2) with (∅ : gmap nat Z)
        by congruence. apply lookup_empty.
    - unfold display_order. rewrite !elem_of_app.
      assert (Hsel : forall a b,
        length pre ∉ select (in_class a b) 0 (connectors_ d2)).
      { intros a b (_ & c & Hl & Hf')%select_elem.
        rewrite Nat.sub_0_r, Hcs, list_lookup_middle in Hl by done.
        injection Hl as <-. unfold in_class in Hf'.
        rewrite Hi, He in Hf'. by destruct a. }
      intros [H|[H|[H|H]]]; by apply Hsel in H. }
  destruct (Init_pipes_keeps 0 pre ret d0) as (K & _).
  rewrite Hpre in K. unfold kept_by_pipes in K. simpl in K.
  assert (Hthrow : CreateDisplayPipe (length pre) conn dp
                   = (Throws std_out_of_range, dp)).
  { destruct (CreateDisplayPipe_cases (length pre) conn dp)
      as [[_ E]|[(disp & Hd & _)|(disp & e & crtc & Hd & _)]];
      [done|congruence..]. }
  rewrite Init_unfold, Hp, Hc, Init_pipes_app, Hpre. simpl.
  rewrite Hthrow. simpl. split; [done|].
  unfold GetDisplayId, map_at.
  by replace (connectors_to_display_id_ dp !! length pre) with (@None Z)
    by congruence.
Qed.

Lemma unclassified_connector_throws_witness :
  fst (Init unclassified_connector_node "/dev/dri/card0" 0 DrmDevice_new)
  = Throws std_out_of_range
  /\ GetDisplayId (length (@nil DrmConnector.t))
       (snd (Init unclassified_connector_node "/dev/dri/card0" 0
               DrmDevice_new))
     = Throws std_out_of_range.
Proof.
  apply (unclassified_connector_throws
           unclassified_connector_node "/dev/dri/card0" 0 0
           (snd (Init_prepare unclassified_connector_node "/dev/dri/card0" 0
                   DrmDevice_new))
           [] (DrmConnector.Build 51 0 true false false false 0 [41]) [] 0
           (snd (Init_prepare unclassified_connector_node "/dev/dri/card0" 0
                   DrmDevice_new)));
    vm_compute; reflexivity.
Defined.

(** ** The catalog of objects *)

Lemma Init_negotiate_catalog k path d :
  catalog (snd (Init_negotiate k path d)) = catalog d.
Proof.
  unfold Init_negotiate; simpl.
  destruct (k_open k path); simpl; [|done].
  case_ifs; done.
Qed.

Lemma Init_crtcs_catalog k i ids d :
  catalog (Init_crtcs k i ids d)
  = (crtcs_ d ++ created_objects (k_DrmCrtc_CreateInstance k) i ids,
     encoders_ d, planes_ d, min_resolution_ d, max_resolution_ d).
Proof.
  revert i d. induction ids as [|id rest IH]; intros i d; simpl.
  - unfold catalog. by rewrite app_nil_r.
  - rewrite IH. destruct (k_DrmCrtc_CreateInstance k id i); simpl; [|done].
    by rewrite <- app_assoc.
Qed.

Lemma Init_encoders_catalog k i ids d :
  catalog (Init_encoders k i ids d)
  = (crtcs_ d,
     encoders_ d ++ created_objects (k_DrmEncoder_CreateInstance k) i ids,
     planes_ d, min_resolution_ d, max_resolution_ d).
Proof.
  revert i d. induction ids as [|id rest IH]; intros i d; simpl.
  - unfold catalog. by rewrite app_nil_r.
  - rewrite IH. destruct (k_DrmEncoder_CreateInstance k id i); simpl; [|done].
    by rewrite <- app_assoc.
Qed.

Lemma Init_connectors_catalog k i ids d :
  catalog (Init_connectors k i ids d) = catalog d.
Proof.
  revert i d. induction ids as [|id rest IH]; intros i d; simpl; [done|].
  rewrite IH. destruct (k_DrmConnector_CreateInstance k id i) as [c|]; [|done].
  by destruct (DrmConnector.IsWriteback c).
Qed.

Lemma Init_planes_catalog k ids d :
  catalog (Init_planes k ids d)
  = (crtcs_ d, encoders_ d,
     planes_ d ++ omap (k_DrmPlane_CreateInstance k) ids,
     min_resolution_ d, max_resolution_ d).
Proof.
  revert d. induction ids as [|id rest IH]; intros d; simpl.
  - unfold catalog. by rewrite app_nil_r.
  - rewrite IH. destruct (k_DrmPlane_CreateInstance k id); simpl; [|done].
    by rewrite <- app_assoc.
Qed.

Lemma Init_enumerate_catalog k d d2 res :
  k_MakeDrmModeResUnique k = Some res ->
  Init_enumerate k d = Some d2 ->
  catalog d2
  = (crtcs_ d
     ++ created_objects (k_DrmCrtc_CreateInstance k) 0 (res_crtcs res),
     encoders_ d
     ++ created_objects (k_DrmEncoder_CreateInstance k) 0 (res_encoders res),
     planes_ d, (min_width res, min_height res),
     (max_width res, max_height res)).
Proof.
  unfold Init_enumerate. intros ->. intros [= <-].
  rewrite Init_connectors_catalog.
  set (d0 := set_resolution d _ _).
  pose proof (Init_crtcs_catalog k 0 (res_crtcs res) d0) as C.
  pose proof (Init_encoders_catalog k 0 (res_encoders res)
                (Init_crtcs k 0 (res_crtcs res) d0)) as E.
  unfold catalog in *. simpl in C. congruence.
Qed.

Lemma add_displays_catalog internal connected p conns st :
  catalog (fst (add_displays internal connected p conns st)) = catalog (fst st).
Proof.
  revert p st. induction conns as [|c rest IH]; intros p [d n]; simpl; [done|].
  rewrite IH. case_ifs; done.
Qed.

Lemma Init_add_displays_catalog st :
  catalog (fst (Init_add_displays st)) = catalog (fst st).
Proof. unfold Init_add_displays. by rewrite !add_displays_catalog. Qed.

Lemma Init_pipes_catalog p conns ret d :
  catalog (snd (Init_pipes p conns ret d)) = catalog d.
Proof.
  revert p ret d. induction conns as [|conn rest IH]; intros p ret d; simpl;
    [done|].
  assert (Hc : catalog (snd (CreateDisplayPipe p conn d)) = catalog d).
  { destruct (CreateDisplayPipe_cases p conn d)
      as [[_ E]|[(disp & _ & E)|(disp & e & crtc & _ & _ & _ & _ & _ & E)]];
      by rewrite E. }
  destruct (CreateDisplayPipe p conn d) as [[r|e] d1]; simpl in *; [|done].
  destruct (negb (r =? 0)); simpl; [done|]. by rewrite IH.
Qed.

(** The catalog after an [Init] that got past the resource query. *)
Lemma Init_catalog k path n d res :
  negotiation_fatal_spec k path = None ->
  k_MakeDrmModeResUnique k = Some res ->
  catalog (snd (Init k path n d))
  = (crtcs_ d
     ++ created_objects (k_DrmCrtc_CreateInstance k) 0 (res_crtcs res),
     encoders_ d
     ++ created_objects (k_DrmEncoder_CreateInstance k) 0 (res_encoders res),
     planes_ d
     ++ match k_MakeDrmModePlaneResUnique k with
        | Some plane_res => omap (k_DrmPlane_CreateInstance k) plane_res
        | None => []
        end,
     (min_width res, min_height res), (max_width res, max_height res)).
Proof.
  intros Hn Hr.
  pose proof (Init_negotiate_catalog k path d) as N.
  assert (Hen : forall d2,
    Init_enumerate k (emit EvGetResources (snd (Init_negotiate k path d)))
    = Some d2 ->
    catalog (emit EvGetPlaneResources (fst (Init_add_displays (d2, n))))
    = (crtcs_ d
       ++ created_objects (k_DrmCrtc_CreateInstance k) 0 (res_crtcs res),
       encoders_ d
       ++ created_objects (k_DrmEncoder_CreateInstance k) 0 (res_encoders res),
       planes_ d, (min_width res, min_height res),
       (max_width res, max_height res))).
  { intros d2 En.
    pose proof (Init_enumerate_catalog _ _ _ _ Hr En) as C.
    pose proof (Init_add_displays_catalog (d2, n)) as A.
    unfold catalog in *. simpl in *. congruence. }
  destruct (Init_run k path n d)
    as [(err & ? & _)|[(_ & ? & _)|[(d2 & _ & En & Hp & _ & E)
       |(d2 & pr & _ & En & Hp & E)]]]; try congruence.
  - rewrite E, Hp. specialize (Hen d2 En). unfold catalog in *.
    simpl in *. rewrite app_nil_r. congruence.
  - rewrite Init_final_device, E, Hp.
    match goal with |- context [Init_pipes 0 ?c 0 ?d4] =>
      pose proof (Init_pipes_catalog 0 c 0 d4) as K
    end.
    match type of K with context [Init_planes k pr ?d3] =>
      pose proof (Init_planes_catalog k pr d3) as P
    end.
    specialize (Hen d2 En). unfold catalog in *. simpl in *. congruence.
Qed.

(** X12: an [Init] that gets past the negotiation and obtains the resources
    appends to [crtcs_] and [encoders_] the objects the factories build for
    the reported ids, in the order of the ids and without those a factory
    fails on, stores the resolution bounds of the reply, and appends the
    planes built for the ids of the plane query when that query succeeds;
    the loop that creates the pipelines changes none of them, however it
    ends. *)
Theorem Init_builds_catalog k path n d res :
  negotiation_fatal_spec k path = None ->
  k_MakeDrmModeResUnique k = Some res ->
  GetCrtcs (snd (Init k path n d))
  = GetCrtcs d
    ++ created_objects (k_DrmCrtc_CreateInstance k) 0 (res_crtcs res)
  /\ GetEncoders (snd (Init k path n d))
     = GetEncoders d
       ++ created_objects (k_DrmEncoder_CreateInstance k) 0 (res_encoders res)
  /\ GetPlanes (snd (Init k path n d))
     = GetPlanes d
       ++ match k_MakeDrmModePlaneResUnique k with
          | Some plane_res => omap (k_DrmPlane_CreateInstance k) plane_res
          | None => []
          end
  /\ GetMinResolution (snd (Init k path n d)) = (min_width res, min_height res)
  /\ GetMaxResolution (snd (Init k path n d))
     = (max_width res, max_height res).
Proof.
  intros Hn Hr. pose proof (Init_catalog k path n d res Hn Hr) as C.
  unfold GetCrtcs, GetEncoders, GetPlanes, GetMinResolution, GetMaxResolution.
  unfold catalog in C. injection C as -> -> -> -> ->. done.
Qed.

Lemma Init_builds_catalog_witness :
  GetCrtcs (snd (Init scenario_A "/dev/dri/card0" 0 DrmDevice_new))
  = GetCrtcs DrmDevice_new
    ++ created_objects (k_DrmCrtc_CreateInstance scenario_A) 0 [31; 32]
  /\ GetEncoders (snd (Init scenario_A "/dev/dri/card0" 0 DrmDevice_new))
     = GetEncoders DrmDevice_new
       ++ created_objects (k_DrmEncoder_CreateInstance scenario_A) 0 [41; 42]
  /\ GetPlanes (snd (Init scenario_A "/dev/dri/card0" 0 DrmDevice_new))
     = GetPlanes DrmDevice_new
       ++ match k_MakeDrmModePlaneResUnique scenario_A with
          | Some plane_res =>
              omap (k_DrmPlane_CreateInstance scenario_A) plane_res
          | None => []
          end
  /\ GetMinResolution (snd (Init scenario_A "/dev/dri/card0" 0 DrmDevice_new))
     = (0, 0)
  /\ GetMaxResolution (snd (Init scenario_A "/dev/dri/card0" 0 DrmDevice_new))
     = (4096, 4096).
Proof.
  apply (Init_builds_catalog scenario_A "/dev/dri/card0" 0 DrmDevice_new
           {| min_width := 0; max_width := 4096;
              min_height := 0; max_height := 4096;
              res_crtcs := [31; 32]; res_encoders := [41; 42];
              res_connectors := [51; 52] |});
    vm_compute; reflexivity.
Defined.

(** ** Nodes without KMS objects *)

(** An [Init] that returns a nonzero count returned status 0. *)
Lemma Init_count_cases k path n d r c :
  fst (Init k path n d) = Normal (r, c) -> c = 0 \/ r = 0.
Proof.
  destruct (Init_run k path n d)
    as [(err & _ & _ & E)|[(_ & _ & _ & E)|[(d2 & _ & _ & _ & _ & E)
       |(d2 & pr & _ & _ & _ & E)]]]; try (rewrite E; simpl; intros [= <- <-]; auto).
  rewrite Init_unfold, E.
  destruct (Init_pipes 0 _ 0 _) as [[x|e] dfin] eqn:R; simpl; [|done].
  destruct (Init_pipes_result _ _ _ _ _ _ R) as [->|[->|[-> _]]]; simpl;
    intros [= <- <-]; auto.
Qed.

(** X13: a node that [IsKMSDev] rejects gives no display.  An [Init] of a
    new device on such a node that returns, returns the count 0, and it
    returns status 0 only when the device has no connector to serve. *)
Theorem not_KMS_node_gives_no_display k path n r c :
  IsKMSDev k path = false ->
  fst (Init k path n DrmDevice_new) = Normal (r, c) ->
  c = 0
  /\ (r = 0 -> GetConnectors (snd (Init k path n DrmDevice_new)) = []).
Proof.
  intros Hk Hok.
  assert (Hz : r = 0 -> connectors_ (snd (Init k path n DrmDevice_new)) = []).
  { intros ->.
    pose proof Hok as (Hn & d2 & pr & d4 & En & _)%Init_success.
    destruct (Init_enumerate_keeps _ _ _ En) as (_ & _ & _ & res & Hr & _).
    destruct (Init_collections k path n DrmDevice_new res Hn Hr) as [Hc _].
    pose proof (Init_catalog k path n DrmDevice_new res Hn Hr) as C.
    unfold catalog in C. simpl in C, Hc. injection C as Hcr Hen _ _ _.
    destruct (connectors_ (snd (Init k path n DrmDevice_new)))
      as [|conn rest] eqn:Hcs; [done|]. exfalso.
    destruct (successful_Init_pipelines k path n DrmDevice_new c 0 conn Hok)
      as (display & e & enc & crtcp & crtc & _ & _ & Henc & _ & _ & Hcrtc & _).
    { by rewrite Hcs. }
    unfold IsKMSDev in Hk. unfold negotiation_fatal_spec in Hn.
    destruct (k_open k path); [|done]. rewrite Hr in Hk.
    destruct (res_crtcs res); [by rewrite Hcr in Hcrtc|].
    destruct (res_encoders res); [by rewrite Hen in Henc|].
    destruct (res_connectors res); [done|].
    simpl in Hk. done. }
  split; [|exact Hz].
  destruct (Init_count_cases _ _ _ _ _ _ Hok) as [->| ->]; [done|].
  pose proof Hok as (_ & _ & _ & _ & _ & _ & _ & _ & _ & ->)%Init_success.
  destruct (Init_wf k path n DrmDevice_new DrmDevice_new_wf)
    as [(_ & _ & Hlt & _) _].
  rewrite Hz in Hlt by done.
  replace (bound_connectors_ (snd (Init k path n DrmDevice_new)))
    with (∅ : gmap Z nat); [by rewrite map_size_empty|].
  symmetry. apply map_empty. intros display.
  destruct (bound_connectors_ _ !! display) as [p|] eqn:E; [|done].
  apply Hlt in E. simpl in E. lia.
Qed.

Lemma not_KMS_node_gives_no_display_witness :
  0 = 0
  /\ (0 = 0 ->
      GetConnectors (snd (Init empty_node "/dev/dri/card0" 0 DrmDevice_new))
      = []).
Proof.
  apply (not_KMS_node_gives_no_display empty_node "/dev/dri/card0" 0 0 0);
    vm_compute; reflexivity.
Defined.

(** ** Failures of the resource queries *)

(** X14: when the negotiation passes and the resource query fails, [Init]
    returns (-ENODEV, 0) and has created nothing: the vectors of objects, the
    resolution bounds and the five binding maps are as before, and the plane
    query is never made. *)
Theorem failed_resource_query_creates_nothing k path n d :
  negotiation_fatal_spec k path = None ->
  k_MakeDrmModeResUnique k = None ->
  fst (Init k path n d) = Normal (- ENODEV, 0)
  /\ resources (snd (Init k path n d)) = resources d
  /\ catalog (snd (Init k path n d)) = catalog d
  /\ bindings (snd (Init k path n d)) = bindings d
  /\ EvGetPlaneResources ∉ new_trace d (snd (Init k path n d)).
Proof.
  intros Hn Hr.
  destruct (Init_negotiate_frame k path d) as [R B].
  pose proof (Init_negotiate_catalog k path d) as C.
  destruct (Init_negotiate_trace k path d) as (t & Ht & [u Hcalls] & _).
  destruct (Init_run k path n d)
    as [(err & ? & _)|[(_ & _ & _ & E)|[(d2 & _ & En & _)
       |(d2 & pr & _ & En & _)]]]; try congruence.
  - rewrite E. simpl. do 4 (split; [done|]).
    unfold new_trace. simpl. rewrite Ht, <- !app_assoc, drop_app_length.
    intros Hin. apply elem_of_app in Hin as [Hin|Hin].
    + assert (Hk : EvGetPlaneResources ∈ negotiation_calls k path).
      { rewrite Hcalls. apply elem_of_app. left.
        unfold kernel_calls. apply list_elem_of_filter. by split. }
      revert Hk. unfold negotiation_calls.
      destruct (k_have_writeback_cap k); simpl; not_in_list.
    + revert Hin. simpl. not_in_list.
  - unfold Init_enumerate in En. by rewrite Hr in En.
  - unfold Init_enumerate in En. by rewrite Hr in En.
Qed.

Lemma failed_resource_query_creates_nothing_witness :
  fst (Init kernel_with_properties "/dev/dri/card0" 0 DrmDevice_new)
  = Normal (- ENODEV, 0)
  /\ resources (snd (Init kernel_with_properties "/dev/dri/card0" 0
                       DrmDevice_new))
     = resources DrmDevice_new
  /\ catalog (snd (Init kernel_with_properties "/dev/dri/card0" 0
                     DrmDevice_new))
     = catalog DrmDevice_new
  /\ bindings (snd (Init kernel_with_properties "/dev/dri/card0" 0
                      DrmDevice_new))
     = bindings DrmDevice_new
  /\ EvGetPlaneResources
     ∉ new_trace DrmDevice_new
         (snd (Init kernel_with_properties "/dev/dri/card0" 0 DrmDevice_new)).
Proof.
  apply (failed_resource_query_creates_nothing
           kernel_with_properties "/dev/dri/card0" 0 DrmDevice_new);
    vm_compute; reflexivity.
Defined.

(** The displays a new device handles after an [Init] that allocated display
    ids, however it ended. *)
Lemma Init_handled_range k path n d2 :
  negotiation_fatal_spec k path = None ->
  Init_enumerate k
    (emit EvGetResources (snd (Init_negotiate k path DrmDevice_new)))
  = Some d2 ->
  forall display,
    HandlesDisplay display (snd (Init k path n DrmDevice_new)) = true
    <-> n <= display
        < n + Z.of_nat (length (display_order
                                  (connectors_
                                     (snd (Init k path n DrmDevice_new))))).
Proof.
  intros Hn En.
  destruct (Init_allocation k path n DrmDevice_new d2 Hn En) as (Hc & Hbc & _).
  destruct (Init_enumerate_keeps _ _ _ En) as (Hb & _).
  destruct (Init_negotiate_frame k path DrmDevice_new) as [_ Hb0].
  unfold bindings in Hb, Hb0. simpl in Hb, Hb0.
  assert (Hempty : bound_connectors_ d2 = ∅) by congruence.
  unfold HandlesDisplay, map_count.
  rewrite Hbc, Hc, Init_add_displays_refines.
  destruct (assign_ids_lookup (display_order (connectors_ d2)) d2 n)
    as (_ & Hl & Ho & _).
  intros display.
  destruct (decide (n <= display
                    < n + Z.of_nat (length (display_order (connectors_ d2)))))
    as [Hin|Hout].
  - destruct (lookup_lt_is_Some_2 (display_order (connectors_ d2))
                (Z.to_nat (display - n))) as [p Hp]; [lia|].
    apply Hl in Hp.
    replace (n + Z.of_nat (Z.to_nat (display - n))) with display in Hp by lia.
    rewrite Hp. simpl. split; [lia|done].
  - rewrite Ho, Hempty, lookup_empty by lia. simpl. split; [done|lia].
Qed.

(** X15: an [Init] on a new device that fails after the resource query
    returns count 0 with -ENOENT (the plane query failed, and then no display
    has a CRTC) or -ENODEV (a connector got no pipeline), but the display ids
    it allocated stay: the device still handles the ids [n], [n]+1, ..., one
    for each connector in the four classes. *)
Theorem late_failure_keeps_display_ids k path n res r c :
  negotiation_fatal_spec k path = None ->
  k_MakeDrmModeResUnique k = Some res ->
  fst (Init k path n DrmDevice_new) = Normal (r, c) ->
  r <> 0 ->
  c = 0
  /\ ((r = - ENOENT /\ k_MakeDrmModePlaneResUnique k = None
       /\ forall display,
            GetCrtcForDisplay display (snd (Init k path n DrmDevice_new))
            = Throws std_out_of_range)
      \/ (r = - ENODEV /\ is_Some (k_MakeDrmModePlaneResUnique k)))
  /\ forall display,
       HandlesDisplay display (snd (Init k path n DrmDevice_new)) = true
       <-> n <= display
           < n + Z.of_nat (length (display_order
                                     (GetConnectors
                                        (snd (Init k path n DrmDevice_new))))).
Proof.
  intros Hn Hr Hret Hne.
  split; [destruct (Init_count_cases _ _ _ _ _ _ Hret); [done|lia]|].
  destruct (Init_negotiate_frame k path DrmDevice_new) as [_ Hb0].
  destruct (Init_run k path n DrmDevice_new)
    as [(err & ? & _)|[(_ & ? & _)|[(d2 & _ & En & Hp & _ & E)
       |(d2 & pr & _ & En & Hp & E)]]]; try congruence.
  - split; [|by apply (Init_handled_range k path n d2)].
    left. rewrite E in Hret. simpl in Hret. injection Hret as <- _.
    split; [done|]. split; [done|]. intros display.
    destruct (Init_enumerate_keeps _ _ _ En) as (Hb & _).
    pose proof (Init_add_displays_frame (d2, n)) as F.
    unfold kept_by_add_displays in F. unfold bindings in *.
    rewrite E. unfold GetCrtcForDisplay, map_at. simpl in *.
    replace (bound_crtcs_ (fst (Init_add_displays (d2, n))))
      with (∅ : gmap Z nat) by congruence.
    by rewrite lookup_empty.
  - split; [|by apply (Init_handled_range k path n d2)].
    right. split; [|by rewrite Hp].
    rewrite Init_unfold, E in Hret.
    destruct (Init_pipes 0 _ 0 _) as [[x|e] dfin] eqn:R; simpl in Hret;
      [|done].
    destruct (Init_pipes_result _ _ _ _ _ _ R) as [->|[->|[-> _]]];
      simpl in Hret; injection Hret as <- _; done.
Qed.

Lemma late_failure_keeps_display_ids_witness :
  0 = 0
  /\ ((- ENODEV = - ENOENT
       /\ k_MakeDrmModePlaneResUnique second_output_unassignable = None
       /\ forall display,
            GetCrtcForDisplay display
              (snd (Init second_output_unassignable "/dev/dri/card0" 0
                      DrmDevice_new))
            = Throws std_out_of_range)
      \/ (- ENODEV = - ENODEV
          /\ is_Some (k_MakeDrmModePlaneResUnique second_output_unassignable)))
  /\ forall display,
       HandlesDisplay display
         (snd (Init second_output_unassignable "/dev/dri/card0" 0
                 DrmDevice_new)) = true
       <-> 0 <= display
           < 0 + Z.of_nat
                   (length (display_order
                              (GetConnectors
                                 (snd (Init second_output_unassignable
                                         "/dev/dri/card0" 0 DrmDevice_new))))).
Proof.
  apply (late_failure_keeps_display_ids
           second_output_unassignable "/dev/dri/card0" 0
           {| min_width := 0; max_width := 4096;
              min_height := 0; max_height := 4096;
              res_crtcs := [31; 32]; res_encoders := [41; 42];
              res_connectors := [51; 52] |} (- ENODEV) 0);
    [vm_compute; reflexivity..|vm_compute; discriminate].
Defined.

(** ** The extent of the property scan *)

Lemma GetProperty_scan_stops k obj_id nm props property d :
  GetProperty_scan k obj_id nm props true property d
  = (Normal (true, property), d).
Proof. destruct props as [|[id v] rest]; done. Qed.

(** The scan is decided at the first property that has the requested name or
    no descriptor: it asks for the descriptors up to that one and for no
    other. *)
Lemma GetProperty_scan_prefix k obj_id nm props property d i id v :
  props !! i = Some (id, v) ->
  (forall j id' v', (j < i)%nat -> props !! j = Some (id', v') ->
     exists p', k_drmModeGetProperty k id' = Some p' /\ name p' <> nm) ->
  (forall p, k_drmModeGetProperty k id = Some p -> name p = nm ->
     fst (GetProperty_scan k obj_id nm props false property d)
     = Normal (true, DrmProperty_Init obj_id p v)
     /\ trace_ (snd (GetProperty_scan k obj_id nm props false property d))
        = trace_ d ++ ((fun x => EvGetProperty x.1) <$> take (S i) props))
  /\ (k_drmModeGetProperty k id = None ->
      fst (GetProperty_scan k obj_id nm props false property d)
      = Throws null_dereference
      /\ trace_ (snd (GetProperty_scan k obj_id nm props false property d))
         = trace_ d ++ ((fun x => EvGetProperty x.1) <$> take (S i) props)).
Proof.
  revert i d. induction props as [|[id0 v0] rest IH]; intros i d Hi Hmin;
    [done|].
  destruct i as [|i]; simpl in *.
  - injection Hi as -> ->. split.
    + intros p Hp Hn. rewrite Hp. apply String.eqb_eq in Hn. rewrite Hn.
      rewrite GetProperty_scan_stops. simpl. by rewrite ?take_0.
    + intros Hp. rewrite Hp. simpl. by rewrite ?take_0.
  - destruct (Hmin 0%nat id0 v0) as (q & Hq & Hne); [lia|done|]. rewrite Hq.
    apply String.eqb_neq in Hne. rewrite Hne.
    destruct (IH i (emit (EvGetProperty id0) d) Hi) as [Hs Hnull].
    { intros j id' v' Hj. apply (Hmin (S j)). lia. }
    split.
    + intros p Hp Hn. destruct (Hs p Hp Hn) as [-> ->].
      simpl. by rewrite <- app_assoc.
    + intros Hp. destruct (Hnull Hp) as [-> ->].
      simpl. by rewrite <- app_assoc.
Qed.

(** X16: [GetProperty] is decided at the first property of the object that
    has the requested name or has no descriptor, when the properties before
    it have descriptors with other names.  A name match there returns 0 with
    that descriptor and the value at the same position, whatever follows: a
    later property with the same name or without a descriptor is never
    looked at.  A missing descriptor there is dereferenced, and no status is
    returned.  In both cases the kernel was asked for the property set and
    for the descriptors up to that position, in order, and for nothing
    else. *)
Theorem GetProperty_decided_at_first_hit
    k obj_id obj_type nm property d props i id v :
  k_drmModeObjectGetProperties k obj_id obj_type = Some props ->
  props !! i = Some (id, v) ->
  (forall j id' v', (j < i)%nat -> props !! j = Some (id', v') ->
     exists p', k_drmModeGetProperty k id' = Some p' /\ name p' <> nm) ->
  (forall p, k_drmModeGetProperty k id = Some p -> name p = nm ->
     fst (GetProperty k obj_id obj_type nm property d)
     = Normal (0, DrmProperty_Init obj_id p v))
  /\ (k_drmModeGetProperty k id = None ->
      fst (GetProperty k obj_id obj_type nm property d)
      = Throws null_dereference)
  /\ ((k_drmModeGetProperty k id = None
       \/ exists p, k_drmModeGetProperty k id = Some p /\ name p = nm) ->
      new_trace d (snd (GetProperty k obj_id obj_type nm property d))
      = EvObjectGetProperties obj_id obj_type
        :: ((fun x => EvGetProperty x.1) <$> take (S i) props)).
Proof.
  intros Hprops Hi Hmin. unfold GetProperty, new_trace. rewrite Hprops.
  destruct (GetProperty_scan_prefix k obj_id nm props property
              (emit (EvObjectGetProperties obj_id obj_type) d) i id v Hi Hmin)
    as [Hs Hnull].
  split; [|split].
  - intros p Hp Hn. destruct (Hs p Hp Hn) as [Hf _].
    destruct (GetProperty_scan _ _ _ _ _ _ _) as [[[found out]|e] d1];
      simpl in *; [|done]. by injection Hf as -> ->.
  - intros Hp. destruct (Hnull Hp) as [Hf _].
    by destruct (GetProperty_scan _ _ _ _ _ _ _) as [[[found out]|e] d1];
      simpl in *; [|injection Hf as ->].
  - intros Hhit.
    assert (Ht : trace_ (snd (GetProperty_scan k obj_id nm props false property
                                (emit (EvObjectGetProperties obj_id obj_type)
                                   d)))
                 = trace_ (emit (EvObjectGetProperties obj_id obj_type) d)
                   ++ ((fun x => EvGetProperty x.1) <$> take (S i) props)).
    { destruct Hhit as [Hp|(p & Hp & Hn)];
        [by destruct (Hnull Hp)|by destruct (Hs p Hp Hn)]. }
    destruct (GetProperty_scan _ _ _ _ _ _ _) as [[[found out]|e] d1];
      simpl in *; rewrite Ht, <- app_assoc, drop_app_length; done.
Qed.

Lemma GetProperty_decided_at_first_hit_witness :
  (forall p, k_drmModeGetProperty kernel_with_properties 20 = Some p ->
     name p = "CRTC_ID"%string ->
     fst (GetProperty kernel_with_properties 51 0 "CRTC_ID"
            {| property_obj_id := 0; property_desc := None;
               property_value := 0 |} DrmDevice_new)
     = Normal (0, DrmProperty_Init 51 p 31))
  /\ (k_drmModeGetProperty kernel_with_properties 20 = None ->
      fst (GetProperty kernel_with_properties 51 0 "CRTC_ID"
             {| property_obj_id := 0; property_desc := None;
                property_value := 0 |} DrmDevice_new)
      = Throws null_dereference)
  /\ ((k_drmModeGetProperty kernel_with_properties 20 = None
       \/ exists p, k_drmModeGetProperty kernel_with_properties 20 = Some p
                    /\ name p = "CRTC_ID"%string) ->
      new_trace DrmDevice_new
        (snd (GetProperty kernel_with_properties 51 0 "CRTC_ID"
                {| property_obj_id := 0; property_desc := None;
                   property_value := 0 |} DrmDevice_new))
      = EvObjectGetProperties 51 0
        :: ((fun x => EvGetProperty x.1)
              <$> take 2 [(2, 0); (20, 31); (1, 77)])).
Proof.
  apply (GetProperty_decided_at_first_hit kernel_with_properties 51 0
           "CRTC_ID" _ DrmDevice_new [(2, 0); (20, 31); (1, 77)] 1%nat 20 31);
    [reflexivity..|].
  intros [|j] id' v' Hj Hl; [|lia]. injection Hl as <- <-.
  eexists. split; [vm_compute; reflexivity|]. simpl. discriminate.
Defined.

(** ** When a connector gets no pipeline *)

(** The CRTC search gives the retry signal exactly when the display has a
    CRTC already, or no CRTC of the device is the current CRTC of the encoder
    or one the encoder can drive. *)
Lemma TryEncoderForDisplay_retry_iff display encp enc d :
  fst (TryEncoderForDisplay display encp enc d) = - EAGAIN
  <-> is_Some (bound_crtcs_ d !! display)
      \/ forall crtc, crtc ∈ crtcs_ d ->
           DrmCrtc.GetId crtc <> DrmEncoder.GetCurrentCrtcId enc
           /\ DrmEncoder.SupportsCrtc enc crtc = false.
Proof.
  rewrite TryEncoderForDisplay_refines. unfold TryEncoderForDisplay_spec.
  destruct (bound_crtcs_ d !! display) as [c|] eqn:Hb; simpl.
  { split; [left; by eexists|done]. }
  unfold FindCrtcById.
  destruct (find_from _ 0 (crtcs_ d)) as [[crtcp crtc]|] eqn:F; simpl.
  - split; [done|]. intros [[? ?]|Hall]; [done|].
    apply find_from_Some in F as (_ & Hl & Hid & _).
    apply list_elem_of_lookup_2, Hall in Hl as [Hne _]. lia.
  - rewrite find_from_None in F.
    destruct (find_from (acceptable_crtc enc) 0 (crtcs_ d))
      as [[crtcp crtc]|] eqn:G; simpl.
    + split; [done|]. intros [[? ?]|Hall]; [done|].
      apply find_from_Some in G as (_ & Hl & Hacc & _).
      apply list_elem_of_lookup_2, Hall in Hl as [_ Hs].
      unfold acceptable_crtc in Hacc. by rewrite Hs in Hacc.
    + rewrite find_from_None in G. split; [|done]. intros _. right.
      intros crtc Hin. specialize (F crtc Hin). specialize (G crtc Hin).
      unfold acceptable_crtc in G. simpl in F. rewrite F in G.
      split; [lia|]. by destruct (DrmEncoder.SupportsCrtc enc crtc).
Qed.

(** The scan of [encoders_] fails exactly when every encoder it may try,
    supported by the connector and not claimed, gives the retry signal. *)
Lemma CreateDisplayPipe_scan_fails_iff display conn p encs d :
  fst (CreateDisplayPipe_scan display conn p encs d) = - ENODEV
  <-> forall i enc,
        encs !! i = Some enc ->
        DrmConnector.SupportsEncoder conn enc = true ->
        encoders_to_display_id_ d !! (p + i)%nat = None ->
        fst (TryEncoderForDisplay display (p + i) enc d) = - EAGAIN.
Proof.
  revert p. induction encs as [|enc rest IH]; intros p; simpl; [done|].
  assert (Hskip :
    (forall i enc',
       rest !! i = Some enc' ->
       DrmConnector.SupportsEncoder conn enc' = true ->
       encoders_to_display_id_ d !! (S p + i)%nat = None ->
       fst (TryEncoderForDisplay display (S p + i) enc' d) = - EAGAIN)
    <-> (forall i enc',
           (enc :: rest) !! (S i) = Some enc' ->
           DrmConnector.SupportsEncoder conn enc' = true ->
           encoders_to_display_id_ d !! (p + S i)%nat = None ->
           fst (TryEncoderForDisplay display (p + S i) enc' d) = - EAGAIN)).
  { split; intros H i enc' Hl Hs' Hc'; specialize (H i enc' Hl Hs');
      rewrite Nat.add_succ_r in *; auto. }
  assert (Hhead : forall P : nat -> DrmEncoder.t -> Prop,
    P 0%nat enc ->
    ((forall i enc', (enc :: rest) !! (S i) = Some enc' -> P (S i) enc')
     <-> (forall i enc', (enc :: rest) !! i = Some enc' -> P i enc'))).
  { intros P H0. split; intros H; [|auto].
    intros [|i] enc' Hl; [|auto]. by injection Hl as <-. }
  destruct (DrmConnector.SupportsEncoder conn enc) eqn:Hs; simpl.
  2:{ rewrite IH, Hskip.
      apply (Hhead (fun i enc' =>
        DrmConnector.SupportsEncoder conn enc' = true ->
        encoders_to_display_id_ d !! (p + i)%nat = None ->
        fst (TryEncoderForDisplay display (p + i) enc' d) = - EAGAIN)).
      congruence. }
  unfold map_count.
  destruct (encoders_to_display_id_ d !! p) as [disp|] eqn:Hc; simpl.
  { rewrite IH, Hskip.
    apply (Hhead (fun i enc' =>
      DrmConnector.SupportsEncoder conn enc' = true ->
      encoders_to_display_id_ d !! (p + i)%nat = None ->
      fst (TryEncoderForDisplay display (p + i) enc' d) = - EAGAIN)).
    rewrite Nat.add_0_r. congruence. }
  destruct (TryEncoderForDisplay_cases display p enc d)
    as [E|(crtc & _ & _ & E)]; rewrite E; simpl.
  - rewrite IH, Hskip.
    apply (Hhead (fun i enc' =>
      DrmConnector.SupportsEncoder conn enc' = true ->
      encoders_to_display_id_ d !! (p + i)%nat = None ->
      fst (TryEncoderForDisplay display (p + i) enc' d) = - EAGAIN)).
    rewrite Nat.add_0_r, E. done.
  - split; [done|]. intros H.
    specialize (H 0%nat enc eq_refl Hs). rewrite Nat.add_0_r, E in H.
    by specialize (H Hc).
Qed.

(** X17: [CreateDisplayPipe] on a connector that has a display id returns 0
    or -ENODEV.  It returns -ENODEV exactly when the display has a CRTC
    already, or every candidate encoder (the connector's current encoder and
    the encoders the connector supports) is claimed by a display or has no
    CRTC at all: no CRTC of the device is its current CRTC or one it can
    drive.  Whether a CRTC is bound to another display plays no part. *)
Theorem CreateDisplayPipe_fails_exactly_when connp conn d display :
  connectors_to_display_id_ d !! connp = Some display ->
  (fst (CreateDisplayPipe connp conn d) = Normal 0
   \/ fst (CreateDisplayPipe connp conn d) = Normal (- ENODEV))
  /\ (fst (CreateDisplayPipe connp conn d) = Normal (- ENODEV)
      <-> is_Some (bound_crtcs_ d !! display)
          \/ forall encp enc,
               FindEncoderById (DrmConnector.GetCurrentEncoderId conn) d
               = Some (encp, enc)
               \/ (encoders_ d !! encp = Some enc
                   /\ DrmConnector.SupportsEncoder conn enc = true) ->
               encoders_to_display_id_ d !! encp = None ->
               forall crtc, crtc ∈ crtcs_ d ->
                 DrmCrtc.GetId crtc <> DrmEncoder.GetCurrentCrtcId enc
                 /\ DrmEncoder.SupportsCrtc enc crtc = false).
Proof.
  intros Hd. split.
  { destruct (CreateDisplayPipe_cases connp conn d)
      as [[? _]|[(disp & _ & E)|(disp & e & crtc & _ & _ & _ & _ & _ & E)]];
      [congruence|rewrite E; auto..]. }
  assert (Hscan :
    fst (CreateDisplayPipe_scan display conn 0 (encoders_ d) d) = - ENODEV
    <-> is_Some (bound_crtcs_ d !! display)
        \/ forall encp enc,
             encoders_ d !! encp = Some enc ->
             DrmConnector.SupportsEncoder conn enc = true ->
             encoders_to_display_id_ d !! encp = None ->
             forall crtc, crtc ∈ crtcs_ d ->
               DrmCrtc.GetId crtc <> DrmEncoder.GetCurrentCrtcId enc
               /\ DrmEncoder.SupportsCrtc enc crtc = false).
  { rewrite CreateDisplayPipe_scan_fails_iff. simpl. split.
    - intros H. destruct (bound_crtcs_ d !! display) eqn:Hb; [left; eauto|].
      right. intros encp enc Hl Hs Hc.
      destruct (proj1 (TryEncoderForDisplay_retry_iff display encp enc d)
                  (H encp enc Hl Hs Hc)) as [[? Hb']|Hall]; [congruence|done].
    - intros H i enc Hl Hs Hc. apply TryEncoderForDisplay_retry_iff.
      destruct H as [H|H]; [by left|right; eauto]. }
  rewrite CreateDisplayPipe_refines. unfold CreateDisplayPipe_spec.
  rewrite Hd.
  assert (Hfb :
    fst (let '(ret, d') :=
           CreateDisplayPipe_scan display conn 0 (encoders_ d) d in
         (Normal ret, d')) = Normal (- ENODEV)
    <-> fst (CreateDisplayPipe_scan display conn 0 (encoders_ d) d) = - ENODEV).
  { destruct (CreateDisplayPipe_scan display conn 0 (encoders_ d) d)
      as [ret d']; simpl. split; congruence. }
  destruct (FindEncoderById _ d) as [[e0p e0]|] eqn:F.
  2:{ rewrite Hfb, Hscan. split; (intros [H|H]; [by left|right]).
      - intros encp enc [?|[Hl Hs]]; [done|eauto].
      - intros encp enc Hl Hs. apply H. auto. }
  destruct (encoders_to_display_id_ d !! e0p) as [disp|] eqn:Hc.
  { rewrite Hfb, Hscan. split; (intros [H|H]; [by left|right]).
    - intros encp enc [[= <- <-]|[Hl Hs]]; [congruence|eauto].
    - intros encp enc Hl Hs. apply H. auto. }
  rewrite <- TryEncoderForDisplay_refines.
  pose proof (TryEncoderForDisplay_retry_iff display e0p e0 d) as R.
  destruct (TryEncoderForDisplay_cases display e0p e0 d)
    as [E|(crtc & _ & Hb & E)]; rewrite E in R |- *; simpl in *.
  - rewrite Hfb, Hscan. destruct (proj1 R eq_refl) as [Hb|Hall]; [tauto|].
    split; (intros [H|H]; [by left|right]).
    + intros encp enc [[= <- <-]|[Hl Hs]]; [by intros _|eauto].
    + intros encp enc Hl Hs. apply H. auto.
  - split; [done|]. intros [[? ?]|H]; [congruence|].
    assert (0 = - EAGAIN); [|done].
    apply R. right. apply (H e0p e0); auto.
Qed.

Lemma CreateDisplayPipe_fails_exactly_when_witness :
  (fst (CreateDisplayPipe 1
          (DrmConnector.Build 52 1 true false true false 0 [])
          (snd (Init_prepare second_output_unassignable "/dev/dri/card0" 0
                  DrmDevice_new)))
   = Normal 0
   \/ fst (CreateDisplayPipe 1
             (DrmConnector.Build 52 1 true false true false 0 [])
             (snd (Init_prepare second_output_unassignable "/dev/dri/card0" 0
                     DrmDevice_new)))
      = Normal (- ENODEV))
  /\ (fst (CreateDisplayPipe 1
             (DrmConnector.Build 52 1 true false true false 0 [])
             (snd (Init_prepare second_output_unassignable "/dev/dri/card0" 0
                     DrmDevice_new)))
      = Normal (- ENODEV)
      <-> is_Some (bound_crtcs_
                     (snd (Init_prepare second_output_unassignable
                             "/dev/dri/card0" 0 DrmDevice_new)) !! 1)
          \/ forall encp enc,
               FindEncoderById
                 (DrmConnector.GetCurrentEncoderId
                    (DrmConnector.Build 52 1 true false true false 0 []))
                 (snd (Init_prepare second_output_unassignable
                         "/dev/dri/card0" 0 DrmDevice_new))
               = Some (encp, enc)
               \/ (encoders_
                     (snd (Init_prepare second_output_unassignable
                             "/dev/dri/card0" 0 DrmDevice_new)) !! encp
                   = Some enc
                   /\ DrmConnector.SupportsEncoder
                        (DrmConnector.Build 52 1 true false true false 0 [])
                        enc = true) ->
               encoders_to_display_id_
                 (snd (Init_prepare second_output_unassignable
                         "/dev/dri/card0" 0 DrmDevice_new)) !! encp = None ->
               forall crtc,
                 crtc ∈ crtcs_
                          (snd (Init_prepare second_output_unassignable
                                  "/dev/dri/card0" 0 DrmDevice_new)) ->
                 DrmCrtc.GetId crtc <> DrmEncoder.GetCurrentCrtcId enc
                 /\ DrmEncoder.SupportsCrtc enc crtc = false).
Proof.
  apply (CreateDisplayPipe_fails_exactly_when 1
           (DrmConnector.Build 52 1 true false true false 0 [])
           (snd (Init_prepare second_output_unassignable "/dev/dri/card0" 0
                   DrmDevice_new)) 1).
  vm_compute. reflexivity.
Defined.
